(** * converter: a shallow embedding of [lib/convert.py]

    The program reads a file, deserialises it with the handler chosen by the
    extension of the input file name, serialises the value with the handler
    chosen by the extension of the output file name and writes the result.

    Python text ([str]) is a sequence of Unicode code points and is modelled
    as [list N].  Exceptions are modelled by the type [exn]; a computation
    that may raise returns a [result].

    The handlers are one-line calls into the standard library of Python, so
    most of what follows models that library, after the sources of CPython:
    [os.path.splitext] (posixpath), [repr], [ast.literal_eval], the encoder
    and the scanner of [json], [str.splitlines], the reader and the writer
    of [csv] with [DictReader] and [DictWriter].  Two parts of CPython are
    taken as given, in the record [python]: the parser behind [ast.parse]
    and the table of printable code points.

    The script at the end of the file is modelled from the parsed arguments
    on: [main] and the [try] block that prints the outcome.

    Outside the model: floating point (see [pyvalue]), the encoding of text
    in files, the parser of the command line, and the limits of the
    interpreter (recursion depth, the limit on the digits of an integer
    converted from or to text, memory). *)

From Stdlib Require Import String Ascii NArith ZArith Bool Lia List.
From Stdlib Require Decimal DecimalPos DecimalN.
Import ListNotations.

Set Warnings "-register-all".

(** ** Text *)

Abbreviation pystr := (list N) (only parsing).

(** [str s] is the Python text made of the characters of the literal [s]. *)
Definition str (s : string) : pystr := map N_of_ascii (list_ascii_of_string s).

Definition ch (a : ascii) : N := N_of_ascii a.

Fixpoint str_eqb (a b : pystr) : bool :=
  match a, b with
  | [], [] => true
  | x :: a', y :: b' => N.eqb x y && str_eqb a' b'
  | _, _ => false
  end.

(** [p[i:j]] for indices that are not negative. *)
Definition slice (p : pystr) (i j : Z) : pystr :=
  firstn (Z.to_nat (j - i)) (skipn (Z.to_nat i) p).

(** [p.rfind(c)]: index of the last occurrence of [c], [-1] when absent. *)
Fixpoint rfind_from (c : N) (p : pystr) (i last : Z) : Z :=
  match p with
  | [] => last
  | x :: r => rfind_from c r (i + 1) (if N.eqb x c then i else last)
  end.

Definition rfind (c : N) (p : pystr) : Z := rfind_from c p 0 (-1).

(** ** Exceptions and results *)

Inductive exn : Type :=
| Exception (msg : pystr)
| KeyError
| IndexError
| TypeError
| AttributeError
| ValueError
| SyntaxError
| JSONDecodeError
| CsvError
| FileNotFoundError
| IsADirectoryError.

Inductive result (A : Type) : Type :=
| Ok (a : A)
| Raise (e : exn).

Arguments Ok {A} a.
Arguments Raise {A} e.

Definition bind {A B : Type} (r : result A) (k : A -> result B) : result B :=
  match r with
  | Ok a => k a
  | Raise e => Raise e
  end.

Notation "x <- r ;; k" := (bind r (fun x => k))
  (at level 61, r at next level, right associativity).
Notation "' p <- r ;; k" := (bind r (fun p => k))
  (at level 61, p pattern, r at next level, right associativity).

Definition raises {A : Type} (r : result A) : Prop := exists e, r = Raise e.

(** ** Python values

    The values that the three handlers exchange.  A dictionary is the list of
    its items in insertion order; a set is the list of its distinct members
    ([CPython] iterates a set in hash order, which is not modelled).

    A float is kept as the decimal literal that denotes it, [VFloat lit]
    standing for [float(lit)].  Floating point is outside this development:
    the text Python prints for a float and the equality of floats with each
    other and with integers are not modelled (the literal is printed, and
    floats are compared by their literal); no statement below involves a
    float.  Complex numbers are left out altogether. *)

#[local] Unset Elimination Schemes.

Inductive pyvalue : Type :=
| VNone
| VEllipsis
| VBool (b : bool)
| VInt (z : Z)
| VFloat (lit : pystr)
| VStr (s : pystr)
| VBytes (b : list N)
| VTuple (l : list pyvalue)
| VList (l : list pyvalue)
| VSet (l : list pyvalue)
| VDict (items : list (pyvalue * pyvalue)).

#[local] Set Elimination Schemes.

(** [hash(v)] succeeds. *)
Fixpoint hashable (v : pyvalue) : bool :=
  match v with
  | VNone | VEllipsis | VBool _ | VInt _ | VFloat _ | VStr _ | VBytes _ => true
  | VTuple l => forallb hashable l
  | VList _ | VSet _ | VDict _ => false
  end.

(** [a == b] on hashable values, as dictionaries and sets compare keys:
    [True == 1] and [False == 0]. *)
Fixpoint key_eqb (a b : pyvalue) {struct a} : bool :=
  match a, b with
  | VNone, VNone => true
  | VEllipsis, VEllipsis => true
  | VBool x, VBool y => Bool.eqb x y
  | VBool x, VInt z => Z.eqb (Z.b2z x) z
  | VInt z, VBool x => Z.eqb z (Z.b2z x)
  | VInt x, VInt y => Z.eqb x y
  | VFloat x, VFloat y => str_eqb x y
  | VStr x, VStr y => str_eqb x y
  | VBytes x, VBytes y => str_eqb x y
  | VTuple x, VTuple y =>
      (fix go (x y : list pyvalue) {struct x} : bool :=
         match x, y with
         | [], [] => true
         | a' :: x', b' :: y' => key_eqb a' b' && go x' y'
         | _, _ => false
         end) x y
  | _, _ => false
  end.

Abbreviation dict := (list (pyvalue * pyvalue)) (only parsing).

(** [d.get(k)]. *)
Fixpoint dict_get (d : dict) (k : pyvalue) : option pyvalue :=
  match d with
  | [] => None
  | (k', v) :: d' => if key_eqb k' k then Some v else dict_get d' k
  end.

Definition dict_contains (d : dict) (k : pyvalue) : bool :=
  match dict_get d k with Some _ => true | None => false end.

(** [d[k] = v] on a key known to be hashable: an existing key keeps its place
    and its key object, a new key goes last. *)
Fixpoint dict_store (d : dict) (k v : pyvalue) : dict :=
  match d with
  | [] => [(k, v)]
  | (k', v') :: d' =>
      if key_eqb k' k then (k', v) :: d' else (k', v') :: dict_store d' k v
  end.

(** [d[k] = v]. *)
Definition dict_setitem (d : dict) (k v : pyvalue) : result dict :=
  if hashable k then Ok (dict_store d k v) else Raise TypeError.

Definition dict_keys (d : dict) : list pyvalue := map fst d.

(** [s.add(x)]. *)
Definition set_add (s : list pyvalue) (x : pyvalue) : result (list pyvalue) :=
  if hashable x
  then Ok (if existsb (fun y => key_eqb y x) s then s else s ++ [x])
  else Raise TypeError.

Section Monadic.
Context {A B : Type}.

Section MapM.
Variable f : A -> result B.

Fixpoint mapM (l : list A) : result (list B) :=
  match l with
  | [] => Ok []
  | a :: l' => b <- f a ;; bs <- mapM l' ;; Ok (b :: bs)
  end.
End MapM.

Section FoldM.
Variable f : B -> A -> result B.

Fixpoint foldM (l : list A) (b : B) : result B :=
  match l with
  | [] => Ok b
  | a :: l' => b' <- f b a ;; foldM l' b'
  end.
End FoldM.
End Monadic.

(** ** Numbers as text *)

Fixpoint uint_chars (d : Decimal.uint) : pystr :=
  match d with
  | Decimal.Nil => []
  | Decimal.D0 d => 48 :: uint_chars d
  | Decimal.D1 d => 49 :: uint_chars d
  | Decimal.D2 d => 50 :: uint_chars d
  | Decimal.D3 d => 51 :: uint_chars d
  | Decimal.D4 d => 52 :: uint_chars d
  | Decimal.D5 d => 53 :: uint_chars d
  | Decimal.D6 d => 54 :: uint_chars d
  | Decimal.D7 d => 55 :: uint_chars d
  | Decimal.D8 d => 56 :: uint_chars d
  | Decimal.D9 d => 57 :: uint_chars d
  end%N.

(** [int.__repr__]. *)
Definition int_repr (z : Z) : pystr :=
  match z with
  | Z0 => [48%N]
  | Zpos p => uint_chars (Pos.to_uint p)
  | Zneg p => 45%N :: uint_chars (Pos.to_uint p)
  end.

Definition is_digit (c : N) : bool := (48 <=? c)%N && (c <=? 57)%N.

Definition digit_cons (c : N) (d : Decimal.uint) : Decimal.uint :=
  match (c - 48)%N with
  | 0 => Decimal.D0 d | 1 => Decimal.D1 d | 2 => Decimal.D2 d | 3 => Decimal.D3 d | 4 => Decimal.D4 d
  | 5 => Decimal.D5 d | 6 => Decimal.D6 d | 7 => Decimal.D7 d | 8 => Decimal.D8 d | _ => Decimal.D9 d
  end%N.

(** The longest run of ASCII digits at the head of [s], and what follows. *)
Fixpoint scan_digits (s : pystr) : Decimal.uint * pystr :=
  match s with
  | c :: r =>
      if is_digit c
      then let (d, rest) := scan_digits r in (digit_cons c d, rest)
      else (Decimal.Nil, s)
  | [] => (Decimal.Nil, [])
  end.

Definition hex_char (d : N) : N := (if d <? 10 then 48 + d else 87 + d)%N.

(** [n] on [k] lower-case hexadecimal digits, as [%0kx] prints it when it fits. *)
Fixpoint hexdigits (k : nat) (n : N) : pystr :=
  match k with
  | O => []
  | S k' => hexdigits k' (n / 16) ++ [hex_char (n mod 16)]
  end.

Definition hex_value (c : N) : option N :=
  (if (48 <=? c) && (c <=? 57) then Some (c - 48)
   else if (97 <=? c) && (c <=? 102) then Some (c - 87)
   else if (65 <=? c) && (c <=? 70) then Some (c - 55)
   else None)%N.

(** Reads exactly [k] hexadecimal digits. *)
Fixpoint scan_hex (k : nat) (acc : N) (s : pystr) : option (N * pystr) :=
  match k with
  | O => Some (acc, s)
  | S k' =>
      match s with
      | c :: r =>
          match hex_value c with
          | Some d => scan_hex k' (acc * 16 + d) r
          | None => None
          end
      | [] => None
      end
  end.

(** ** [repr] *)

Fixpoint join (sep : pystr) (l : list pystr) : pystr :=
  match l with
  | [] => []
  | [x] => x
  | x :: l' => x ++ sep ++ join sep l'
  end.

Definition bytes_repr_char (quote ch : N) : pystr :=
  if (ch =? quote)%N || (ch =? 92)%N then [92; ch]%N
  else if (ch =? 9)%N then str "\t"
  else if (ch =? 10)%N then str "\n"
  else if (ch =? 13)%N then str "\r"
  else if (ch <? 32)%N || (127 <=? ch)%N then str "\x" ++ hexdigits 2 ch
  else [ch].

Definition repr_quote (s : pystr) : N :=
  if existsb (N.eqb 39) s && negb (existsb (N.eqb 34) s) then 34%N else 39%N.

Definition bytes_repr (b : list N) : pystr :=
  let quote := repr_quote b in
  [98%N; quote] ++ flat_map (bytes_repr_char quote) b ++ [quote].

Section Repr.
(** [Py_UNICODE_ISPRINTABLE], a table of the Unicode database; [repr]
    consults it for code points above [0x7f] only. *)
Variable isprintable : N -> bool.

Definition unicode_repr_char (quote ch : N) : pystr :=
  if (ch =? quote)%N || (ch =? 92)%N then [92; ch]%N
  else if (ch =? 9)%N then str "\t"
  else if (ch =? 10)%N then str "\n"
  else if (ch =? 13)%N then str "\r"
  else if (ch <? 32)%N || (ch =? 127)%N then str "\x" ++ hexdigits 2 ch
  else if (ch <? 127)%N then [ch]
  else if negb (isprintable ch) then
    if (ch <=? 255)%N then str "\x" ++ hexdigits 2 ch
    else if (ch <=? 65535)%N then str "\u" ++ hexdigits 4 ch
    else str "\U" ++ hexdigits 8 ch
  else [ch].

Definition unicode_repr (s : pystr) : pystr :=
  let quote := repr_quote s in
  [quote] ++ flat_map (unicode_repr_char quote) s ++ [quote].

Fixpoint repr (v : pyvalue) : pystr :=
  match v with
  | VNone => str "None"
  | VEllipsis => str "Ellipsis"
  | VBool true => str "True"
  | VBool false => str "False"
  | VInt z => int_repr z
  | VFloat lit => lit
  | VStr s => unicode_repr s
  | VBytes b => bytes_repr b
  | VTuple [] => str "()"
  | VTuple [x] => str "(" ++ repr x ++ str ",)"
  | VTuple l => str "(" ++ join (str ", ") (map repr l) ++ str ")"
  | VList l => str "[" ++ join (str ", ") (map repr l) ++ str "]"
  | VSet [] => str "set()"
  | VSet l => str "{" ++ join (str ", ") (map repr l) ++ str "}"
  | VDict d =>
      str "{"
      ++ join (str ", ")
           (map (fun kv => repr (fst kv) ++ str ": " ++ repr (snd kv)) d)
      ++ str "}"
  end.

(** [str(v)]. *)
Definition py_str (v : pyvalue) : pystr :=
  match v with
  | VStr s => s
  | _ => repr v
  end.
End Repr.

(** ** [ast.literal_eval]

    The expression nodes of Python's [ast] module that [literal_eval]
    inspects; every other node class is an [EOther].  A [Dict] node holds
    its [keys] and [values] as one list of pairs: the parser always produces
    as many keys as values, so the test [len(node.keys) != len(node.values)]
    of [_convert] never fires on parsed text.  A key is [None] for the
    [**mapping] form. *)

Inductive unaryop : Type := UAdd | USub | Not | Invert.

Inductive operator : Type :=
| Add | Sub | Mult | MatMult | Div | Mod | Pow | LShift | RShift
| BitOr | BitXor | BitAnd | FloorDiv.

#[local] Unset Elimination Schemes.

Inductive expr : Type :=
| EConstant (value : pyvalue)
| ETuple (elts : list expr)
| EList (elts : list expr)
| ESet (elts : list expr)
| EDict (items : list (option expr * expr))
| ECall (func : expr) (args : list expr) (keywords : list (option pystr * expr))
| EName (id : pystr)
| EUnaryOp (op : unaryop) (operand : expr)
| EBinOp (lhs : expr) (op : operator) (rhs : expr)
| EOther (class_name : pystr) (children : list expr).

#[local] Set Elimination Schemes.

(** [_raise_malformed_node]. *)
Definition malformed {A : Type} : result A := Raise ValueError.

Definition _convert_num (node : expr) : result pyvalue :=
  match node with
  | EConstant (VInt z) => Ok (VInt z)
  | EConstant (VFloat lit) => Ok (VFloat lit)
  | _ => malformed
  end.

(** [- operand] on what [_convert_num] returns. *)
Definition negative (operand : pyvalue) : pyvalue :=
  match operand with
  | VInt z => VInt (- z)
  | VFloat lit => VFloat (45%N :: lit)
  | _ => operand
  end.

Definition _convert_signed_num (node : expr) : result pyvalue :=
  match node with
  | EUnaryOp UAdd operand => operand <- _convert_num operand ;; Ok operand
  | EUnaryOp USub operand => operand <- _convert_num operand ;; Ok (negative operand)
  | _ => _convert_num node
  end.

(** [dict(zip(map(_convert, node.keys), map(_convert, node.values)))]: each
    key and its value are converted and stored before the next pair is
    looked at. *)
Section ConvertItems.
Variable convert : expr -> result pyvalue.

Fixpoint convert_items (items : list (option expr * expr)) (d : dict) : result dict :=
  match items with
  | (k, v) :: items' =>
    k' <- match k with Some e => convert e | None => malformed end ;;
    v' <- convert v ;;
    d' <- dict_setitem d k' v' ;;
    convert_items items' d'
  | [] => Ok d
  end.
End ConvertItems.

Fixpoint _convert (node : expr) : result pyvalue :=
  match node with
  | EConstant value => Ok value
  | ETuple elts => l <- mapM _convert elts ;; Ok (VTuple l)
  | EList elts => l <- mapM _convert elts ;; Ok (VList l)
  | ESet elts =>
      s <- foldM (fun s e => x <- _convert e ;; set_add s x) elts [] ;;
      Ok (VSet s)
  | ECall (EName id) [] [] =>
      if str_eqb id (str "set") then Ok (VSet []) else _convert_signed_num node
  | EDict items => d <- convert_items _convert items [] ;; Ok (VDict d)
  | EBinOp lhs Add rhs | EBinOp lhs Sub rhs =>
      (* the sum of a real and a complex number; no complex constant exists
         in this model, so the branch ends in the final line of [_convert] *)
      _ <- _convert_signed_num lhs ;;
      _ <- _convert_num rhs ;;
      _convert_signed_num node
  | _ => _convert_signed_num node
  end.

(** [s.lstrip] of spaces and tabs. *)
Fixpoint lstrip_blank (s : pystr) : pystr :=
  match s with
  | c :: r => if (c =? 32)%N || (c =? 9)%N then lstrip_blank r else s
  | [] => []
  end.

(** [ast.literal_eval(s)] for a text [s]; [parse] is [ast.parse(_, mode='eval')]
    followed by taking the body of the [Expression]. *)
Definition literal_eval (parse : pystr -> result expr) (s : pystr) : result pyvalue :=
  node <- parse (lstrip_blank s) ;;
  _convert node.




(** ** A parser for literal displays

    [ast.parse] is the parser of CPython and is not modelled as a whole.
    [literal_display] below recognises a fragment of Python's expression
    grammar, the one [repr] writes: [None], [True], [False], decimal integers
    with an optional minus sign, one-line string literals in single or double
    quotes with the escapes [repr] produces, and list, tuple and dictionary
    displays of such expressions, with blanks between tokens.  On a text of
    the fragment it returns the node CPython's parser returns; on any other
    text it answers [SyntaxError], which says nothing about CPython. *)

Definition is_blank (c : N) : bool := (c =? 32)%N || (c =? 9)%N.

Definition ident_continue (c : N) : bool :=
  (is_digit c || ((65 <=? c) && (c <=? 90)) || ((97 <=? c) && (c <=? 122))
   || (c =? 95) || (128 <=? c))%N.

Definition is_surrogate (c : N) : bool := ((55296 <=? c) && (c <=? 57343))%N.

(** A character that stands for itself inside a string literal of the
    fragment. *)
Definition raw_char (c : N) : bool :=
  ((32 <=? c) && negb (c =? 127) && negb (is_surrogate c) && (c <? 1114112))%N.

Definition simple_escape (e : N) : option N :=
  (if e =? 92 then Some 92        (* backslash *)
   else if e =? 39 then Some 39   (* single quote *)
   else if e =? 34 then Some 34   (* double quote *)
   else if e =? 97 then Some 7    (* a: bell *)
   else if e =? 98 then Some 8    (* b: backspace *)
   else if e =? 102 then Some 12  (* f: form feed *)
   else if e =? 110 then Some 10  (* n: line feed *)
   else if e =? 114 then Some 13  (* r: carriage return *)
   else if e =? 116 then Some 9   (* t: tab *)
   else if e =? 118 then Some 11  (* v: vertical tab *)
   else None)%N.

(** The number of hexadecimal digits after [\x], [\u] and [\U]. *)
Definition hex_escape (e : N) : option nat :=
  if (e =? 120)%N then Some 2%nat
  else if (e =? 117)%N then Some 4%nat
  else if (e =? 85)%N then Some 8%nat
  else None.

(** The body of a string literal opened by the quote [q], up to the closing
    quote. *)
Fixpoint string_body (fuel : nat) (q : N) (s : pystr) : result (pystr * pystr) :=
  match fuel with
  | O => Raise SyntaxError
  | S fuel' =>
      match s with
      | [] => Raise SyntaxError
      | c :: r =>
          if (c =? q)%N then Ok ([], r)
          else if (c =? 92)%N then
            match r with
            | [] => Raise SyntaxError
            | e :: r' =>
                match simple_escape e with
                | Some x =>
                    '(body, rest) <- string_body fuel' q r' ;; Ok (x :: body, rest)
                | None =>
                    match hex_escape e with
                    | Some k =>
                        match scan_hex k 0 r' with
                        | Some (n, r'') =>
                            if (n <? 1114112)%N
                            then '(body, rest) <- string_body fuel' q r'' ;;
                                 Ok (n :: body, rest)
                            else Raise SyntaxError
                        | None => Raise SyntaxError
                        end
                    | None => Raise SyntaxError
                    end
                end
            end
          else if raw_char c
          then '(body, rest) <- string_body fuel' q r ;; Ok (c :: body, rest)
          else Raise SyntaxError
      end
  end.

(** What may follow a number or a keyword. *)
Definition token_ends (rest : pystr) : bool :=
  match rest with
  | [] => true
  | c :: _ => negb (ident_continue c || (c =? 46)%N)
  end.

(** A decimal integer at the head of [s]. *)
Definition number (s : pystr) : result (Z * pystr) :=
  let (d, rest) := scan_digits s in
  if token_ends rest then
    match d with
    | Decimal.Nil => Raise SyntaxError
    | Decimal.D0 Decimal.Nil => Ok (0%Z, rest)
    | Decimal.D0 _ => Raise SyntaxError
    | _ => Ok (Z.of_N (N.of_uint d), rest)
    end
  else Raise SyntaxError.

Fixpoint strip_prefix (p s : pystr) : option pystr :=
  match p, s with
  | [], _ => Some s
  | x :: p', y :: s' => if (x =? y)%N then strip_prefix p' s' else None
  | _ :: _, [] => None
  end.

Definition keyword (s : pystr) : result (pyvalue * pystr) :=
  let try (word : pystr) (v : pyvalue) (otherwise : result (pyvalue * pystr)) :=
    match strip_prefix word s with
    | Some rest => if token_ends rest then Ok (v, rest) else Raise SyntaxError
    | None => otherwise
    end in
  try (str "None") VNone
    (try (str "True") (VBool true)
       (try (str "False") (VBool false) (Raise SyntaxError))).

Fixpoint parse_expr (fuel : nat) (s : pystr) {struct fuel} : result (expr * pystr) :=
  match fuel with
  | O => Raise SyntaxError
  | S fuel' =>
      match s with
      | [] => Raise SyntaxError
      | c :: r =>
          if (c =? 91)%N then                       (* opening bracket *)
            '(elts, rest) <- parse_elements fuel' 93%N (lstrip_blank r) ;;
            Ok (EList elts, rest)
          else if (c =? 40)%N then                  (* opening parenthesis *)
            match lstrip_blank r with
            | [] => Raise SyntaxError
            | c1 :: r1 =>
                if (c1 =? 41)%N then Ok (ETuple [], r1)
                else
                  '(e, r2) <- parse_expr fuel' (c1 :: r1) ;;
                  match lstrip_blank r2 with
                  | [] => Raise SyntaxError
                  | c3 :: r3 =>
                      if (c3 =? 41)%N then Ok (e, r3)
                      else if (c3 =? 44)%N then
                        '(elts, rest) <- parse_elements fuel' 41%N (lstrip_blank r3) ;;
                        Ok (ETuple (e :: elts), rest)
                      else Raise SyntaxError
                  end
            end
          else if (c =? 123)%N then                 (* opening brace *)
            '(items, rest) <- parse_items fuel' (lstrip_blank r) ;;
            Ok (EDict items, rest)
          else if (c =? 39)%N || (c =? 34)%N then   (* a quote *)
            '(body, rest) <- string_body (length r) c r ;;
            Ok (EConstant (VStr body), rest)
          else if (c =? 45)%N then                  (* minus *)
            '(z, rest) <- number r ;;
            Ok (EUnaryOp USub (EConstant (VInt z)), rest)
          else if is_digit c then
            '(z, rest) <- number s ;;
            Ok (EConstant (VInt z), rest)
          else
            '(v, rest) <- keyword s ;;
            Ok (EConstant v, rest)
      end
  end

(** The elements of a display up to the bracket [close]; [s] starts at an
    element or at the bracket. *)
with parse_elements (fuel : nat) (close : N) (s : pystr) {struct fuel}
  : result (list expr * pystr) :=
  match fuel with
  | O => Raise SyntaxError
  | S fuel' =>
      match s with
      | [] => Raise SyntaxError
      | c :: r =>
          if (c =? close)%N then Ok ([], r)
          else
            '(e, r1) <- parse_expr fuel' s ;;
            match lstrip_blank r1 with
            | [] => Raise SyntaxError
            | c2 :: r2 =>
                if (c2 =? close)%N then Ok ([e], r2)
                else if (c2 =? 44)%N then
                  '(elts, rest) <- parse_elements fuel' close (lstrip_blank r2) ;;
                  Ok (e :: elts, rest)
                else Raise SyntaxError
            end
      end
  end

(** The [key: value] items of a dictionary display up to the brace. *)
with parse_items (fuel : nat) (s : pystr) {struct fuel}
  : result (list (option expr * expr) * pystr) :=
  match fuel with
  | O => Raise SyntaxError
  | S fuel' =>
      match s with
      | [] => Raise SyntaxError
      | c :: r =>
          if (c =? 125)%N then Ok ([], r)
          else
            '(k, r1) <- parse_expr fuel' s ;;
            match lstrip_blank r1 with
            | [] => Raise SyntaxError
            | c2 :: r2 =>
                if (c2 =? 58)%N then
                  '(v, r3) <- parse_expr fuel' (lstrip_blank r2) ;;
                  match lstrip_blank r3 with
                  | [] => Raise SyntaxError
                  | c4 :: r4 =>
                      if (c4 =? 125)%N then Ok ([(Some k, v)], r4)
                      else if (c4 =? 44)%N then
                        '(items, rest) <- parse_items fuel' (lstrip_blank r4) ;;
                        Ok ((Some k, v) :: items, rest)
                      else Raise SyntaxError
                  end
                else Raise SyntaxError
            end
      end
  end.

Definition literal_display (s : pystr) : result expr :=
  '(e, rest) <- parse_expr (2 * length s + 2) s ;;
  if forallb is_blank rest then Ok e else Raise SyntaxError.

(** ** The parts of CPython taken as given *)

Record python : Type := {
  (** the table behind [str.isprintable] *)
  Py_UNICODE_ISPRINTABLE : N -> bool;
  (** [ast.parse(text, mode='eval').body] *)
  ast_parse : pystr -> result expr
}.

(** [ast.parse] parses the text [s] as the fragment parser does, when that
    one succeeds.  CPython does so on the texts of the fragment that are
    within the limits of the interpreter (the depth of nested brackets, the
    number of digits of an integer). *)
Definition parses_display (py : python) (s : pystr) : Prop :=
  forall node, literal_display s = Ok node -> ast_parse py s = Ok node.

(** No surrogate and nothing past [U+10FFFF] is printable. *)
Definition printable_scalars (py : python) : Prop :=
  forall c, Py_UNICODE_ISPRINTABLE py c = true ->
            is_surrogate c = false /\ (c < 1114112)%N.

(** ** [json.dumps]

    The encoder of [json.encoder] with its defaults: [ensure_ascii=True],
    a comma and a space between items, a colon and a space after a key,
    no indentation, keys in insertion order. *)

(** The replacement that [py_encode_basestring_ascii] makes for one
    character: the characters from the space to the tilde stand for
    themselves, but for the backslash and the double quote. *)
Definition encode_char (c : N) : pystr :=
  (if c =? 92 then [92; 92]
   else if c =? 34 then [92; 34]
   else if (32 <=? c) && (c <=? 126) then [c]
   else if c =? 8 then [92; 98]
   else if c =? 12 then [92; 102]
   else if c =? 10 then [92; 110]
   else if c =? 13 then [92; 114]
   else if c =? 9 then [92; 116]
   else if c <? 65536 then [92; 117] ++ hexdigits 4 c
   else
     let n := c - 65536 in
     let s1 := N.lor 55296 (N.land (N.shiftr n 10) 1023) in
     let s2 := N.lor 56320 (N.land n 1023) in
     [92; 117] ++ hexdigits 4 s1 ++ [92; 117] ++ hexdigits 4 s2)%N.

Definition encode_basestring_ascii (s : pystr) : pystr :=
  [34%N] ++ flat_map encode_char s ++ [34%N].

(** The text of a dictionary key in [_iterencode_dict]. *)
Definition json_key (k : pyvalue) : result pystr :=
  match k with
  | VStr s => Ok s
  | VFloat lit => Ok lit
  | VBool true => Ok (str "true")
  | VBool false => Ok (str "false")
  | VNone => Ok (str "null")
  | VInt z => Ok (int_repr z)
  | _ => Raise TypeError
  end.

Fixpoint json_dumps (o : pyvalue) : result pystr :=
  match o with
  | VStr s => Ok (encode_basestring_ascii s)
  | VNone => Ok (str "null")
  | VBool true => Ok (str "true")
  | VBool false => Ok (str "false")
  | VInt z => Ok (int_repr z)
  | VFloat lit => Ok lit
  | VList l | VTuple l =>
      items <- mapM json_dumps l ;;
      Ok (str "[" ++ join (str ", ") items ++ str "]")
  | VDict d =>
      items <- mapM (fun kv =>
                       k <- json_key (fst kv) ;;
                       v <- json_dumps (snd kv) ;;
                       Ok (encode_basestring_ascii k ++ str ": " ++ v)) d ;;
      Ok (str "{" ++ join (str ", ") items ++ str "}")
  | VEllipsis | VBytes _ | VSet _ => Raise TypeError
  end.

(** ** [json.loads]

    The scanner of [json.scanner] and the routines of [json.decoder];
    the positions [end] of the source are the remaining text here. *)

(** [WHITESPACE.match]. *)
Fixpoint skip_ws (s : pystr) : pystr :=
  match s with
  | c :: r =>
      if ((c =? 32) || (c =? 9) || (c =? 10) || (c =? 13))%N then skip_ws r else s
  | [] => []
  end.

(** The table [BACKSLASH]. *)
Definition BACKSLASH (esc : N) : option N :=
  (if esc =? 34 then Some 34
   else if esc =? 92 then Some 92
   else if esc =? 47 then Some 47
   else if esc =? 98 then Some 8
   else if esc =? 102 then Some 12
   else if esc =? 110 then Some 10
   else if esc =? 114 then Some 13
   else if esc =? 116 then Some 9
   else None)%N.

(** [_decode_uXXXX]: four hexadecimal digits. *)
Definition _decode_uXXXX (s : pystr) : option (N * pystr) := scan_hex 4 0 s.

Definition is_high_surrogate (c : N) : bool := ((55296 <=? c) && (c <=? 56319))%N.
Definition is_low_surrogate (c : N) : bool := ((56320 <=? c) && (c <=? 57343))%N.

(** The text after a backslash and a [u], when [s] starts with them. *)
Definition after_backslash_u (s : pystr) : option pystr :=
  match s with
  | b :: u :: r => if ((b =? 92) && (u =? 117))%N then Some r else None
  | _ => None
  end.

(** The code point of a surrogate pair. *)
Definition join_surrogates (uni uni2 : N) : N :=
  (65536 + N.lor (N.shiftl (uni - 55296) 10) (uni2 - 56320))%N.

(** [py_scanstring] with [strict=True]; [s] starts after the opening quote
    and [chunks] is the text read so far. *)
Fixpoint scanstring (fuel : nat) (s chunks : pystr) : result (pystr * pystr) :=
  match fuel with
  | O => Raise JSONDecodeError
  | S fuel' =>
      match s with
      | [] => Raise JSONDecodeError
      | c :: r =>
          if (c =? 34)%N then Ok (chunks, r)
          else if (c =? 92)%N then
            match r with
            | [] => Raise JSONDecodeError
            | esc :: r1 =>
                if negb (esc =? 117)%N then
                  match BACKSLASH esc with
                  | Some char => scanstring fuel' r1 (chunks ++ [char])
                  | None => Raise JSONDecodeError
                  end
                else
                  match _decode_uXXXX r1 with
                  | None => Raise JSONDecodeError
                  | Some (uni, r2) =>
                      match (if is_high_surrogate uni then after_backslash_u r2
                             else None) with
                      | Some r3 =>
                          match _decode_uXXXX r3 with
                          | None => Raise JSONDecodeError
                          | Some (uni2, r4) =>
                              if is_low_surrogate uni2
                              then scanstring fuel' r4 (chunks ++ [join_surrogates uni uni2])
                              else scanstring fuel' r2 (chunks ++ [uni])
                          end
                      | None => scanstring fuel' r2 (chunks ++ [uni])
                      end
                  end
            end
          else if (c <? 32)%N then Raise JSONDecodeError
          else scanstring fuel' r (chunks ++ [c])
      end
  end.

(** A match of [NUMBER_RE]: the sign, the digits of the integer part, the
    fraction and the exponent (each empty when absent), and the rest. *)
Record number_match : Type := {
  nm_negative : bool;
  nm_digits : Decimal.uint;
  nm_frac : pystr;
  nm_exp : pystr;
  nm_rest : pystr
}.

Definition is_nil (d : Decimal.uint) : bool :=
  match d with Decimal.Nil => true | _ => false end.

(** The optional fraction: a dot and at least one digit. *)
Definition match_frac (s : pystr) : pystr * pystr :=
  match s with
  | c :: r =>
      if (c =? 46)%N then
        let (d, rest) := scan_digits r in
        if is_nil d then ([], s) else (c :: uint_chars d, rest)
      else ([], s)
  | [] => ([], s)
  end.

(** The optional exponent: [e] or [E], an optional sign, at least one digit. *)
Definition match_exp (s : pystr) : pystr * pystr :=
  match s with
  | c :: r =>
      if ((c =? 101) || (c =? 69))%N then
        let (sign, r') :=
          match r with
          | x :: r'' => if ((x =? 45) || (x =? 43))%N then ([x], r'') else ([], r)
          | [] => ([], r)
          end in
        let (d, rest) := scan_digits r' in
        if is_nil d then ([], s) else (c :: sign ++ uint_chars d, rest)
      else ([], s)
  | [] => ([], s)
  end.

(** The integer part, an optional minus sign before either a lone zero or a
    run of digits that starts with a digit from one to nine, followed by the
    optional parts. *)
Definition match_number (s : pystr) : option number_match :=
  let (neg, s1) :=
    match s with
    | c :: r => if (c =? 45)%N then (true, r) else (false, s)
    | [] => (false, s)
    end in
  let integer :=
    match s1 with
    | c :: r =>
        if (c =? 48)%N then Some (Decimal.D0 Decimal.Nil, r)
        else if is_digit c then Some (scan_digits s1)
        else None
    | [] => None
    end in
  match integer with
  | None => None
  | Some (d, r1) =>
      let (frac, r2) := match_frac r1 in
      let (exp, r3) := match_exp r2 in
      Some {| nm_negative := neg; nm_digits := d;
              nm_frac := frac; nm_exp := exp; nm_rest := r3 |}
  end.

Definition sign_text (neg : bool) : pystr := if neg then [45%N] else [].

(** The value of a match: [int(integer)] or [float(integer + frac + exp)]. *)
Definition number_value (m : number_match) : pyvalue :=
  match nm_frac m, nm_exp m with
  | [], [] =>
      let n := Z.of_N (N.of_uint (nm_digits m)) in
      VInt (if nm_negative m then - n else n)
  | frac, exp =>
      VFloat (sign_text (nm_negative m) ++ uint_chars (nm_digits m) ++ frac ++ exp)
  end.

(** [dict(pairs)]. *)
Definition dict_of_pairs (pairs : list (pystr * pyvalue)) : dict :=
  fold_left (fun d kv => dict_store d (VStr (fst kv)) (snd kv)) pairs [].

(** The constants and numbers of [_scan_once]. *)
Definition scan_atom (s : pystr) : result (pyvalue * pystr) :=
  let word (w : pystr) (v : pyvalue) (otherwise : result (pyvalue * pystr)) :=
    match strip_prefix w s with
    | Some rest => Ok (v, rest)
    | None => otherwise
    end in
  word (str "null") VNone
    (word (str "true") (VBool true)
       (word (str "false") (VBool false)
          match match_number s with
          | Some m => Ok (number_value m, nm_rest m)
          | None =>
              word (str "NaN") (VFloat (str "nan"))
                (word (str "Infinity") (VFloat (str "inf"))
                   (word (str "-Infinity") (VFloat (str "-inf"))
                      (Raise JSONDecodeError)))
          end)).

Fixpoint scan_once (fuel : nat) (s : pystr) {struct fuel} : result (pyvalue * pystr) :=
  match fuel with
  | O => Raise JSONDecodeError
  | S fuel' =>
      match s with
      | [] => Raise JSONDecodeError
      | nextchar :: r =>
          if (nextchar =? 34)%N then
            '(text, rest) <- scanstring (length r) r [] ;;
            Ok (VStr text, rest)
          else if (nextchar =? 123)%N then
            (* JSONObject *)
            match skip_ws r with
            | c :: r1 =>
                if (c =? 125)%N then Ok (VDict [], r1)
                else if (c =? 34)%N then JSONObject_loop fuel' r1 []
                else Raise JSONDecodeError
            | [] => Raise JSONDecodeError
            end
          else if (nextchar =? 91)%N then
            (* JSONArray *)
            match skip_ws r with
            | c :: r1 =>
                if (c =? 93)%N then Ok (VList [], r1)
                else JSONArray_loop fuel' (c :: r1) []
            | [] => Raise JSONDecodeError
            end
          else scan_atom s
      end
  end

(** The [while True] of [JSONObject]; [s] starts after the opening quote of
    a key. *)
with JSONObject_loop (fuel : nat) (s : pystr) (pairs : list (pystr * pyvalue))
       {struct fuel} : result (pyvalue * pystr) :=
  match fuel with
  | O => Raise JSONDecodeError
  | S fuel' =>
      '(key, r1) <- scanstring (length s) s [] ;;
      match skip_ws r1 with
      | c :: r2 =>
          if (c =? 58)%N then
            '(value, r3) <- scan_once fuel' (skip_ws r2) ;;
            let pairs := pairs ++ [(key, value)] in
            match skip_ws r3 with
            | nextchar :: r4 =>
                if (nextchar =? 125)%N then Ok (VDict (dict_of_pairs pairs), r4)
                else if (nextchar =? 44)%N then
                  match skip_ws r4 with
                  | q :: r5 =>
                      if (q =? 34)%N then JSONObject_loop fuel' r5 pairs
                      else Raise JSONDecodeError
                  | [] => Raise JSONDecodeError
                  end
                else Raise JSONDecodeError
            | [] => Raise JSONDecodeError
            end
          else Raise JSONDecodeError
      | [] => Raise JSONDecodeError
      end
  end

(** The [while True] of [JSONArray]; [s] starts at a value. *)
with JSONArray_loop (fuel : nat) (s : pystr) (values : list pyvalue)
       {struct fuel} : result (pyvalue * pystr) :=
  match fuel with
  | O => Raise JSONDecodeError
  | S fuel' =>
      '(value, r1) <- scan_once fuel' s ;;
      let values := values ++ [value] in
      match skip_ws r1 with
      | nextchar :: r2 =>
          if (nextchar =? 93)%N then Ok (VList values, r2)
          else if (nextchar =? 44)%N then JSONArray_loop fuel' (skip_ws r2) values
          else Raise JSONDecodeError
      | [] => Raise JSONDecodeError
      end
  end.

(** [s.startswith('\ufeff')]. *)
Definition starts_with_bom (s : pystr) : bool :=
  match s with
  | c :: _ => (c =? 65279)%N
  | [] => false
  end.

(** [json.loads(s)] for a text [s]. *)
Definition json_loads (s : pystr) : result pyvalue :=
  if starts_with_bom s then Raise JSONDecodeError
  else
    '(obj, rest) <- scan_once (2 * length s + 2) (skip_ws s) ;;
    match skip_ws rest with
    | [] => Ok obj
    | _ :: _ => Raise JSONDecodeError
    end.

(** ** [str.splitlines] *)

Definition is_linebreak (c : N) : bool :=
  ((c =? 10) || (c =? 13) || (c =? 11) || (c =? 12) || (c =? 28) || (c =? 29)
   || (c =? 30) || (c =? 133) || (c =? 8232) || (c =? 8233))%N.

(** [line] is the line being read; a carriage return followed by a line feed
    is one boundary. *)
Fixpoint splitlines_from (s line : pystr) : list pystr :=
  match s with
  | [] => match line with [] => [] | _ :: _ => [line] end
  | c :: r =>
      if (c =? 13)%N then
        match r with
        | c' :: r' =>
            if (c' =? 10)%N then line :: splitlines_from r' []
            else line :: splitlines_from r []
        | [] => line :: splitlines_from r []
        end
      else if is_linebreak c then line :: splitlines_from r []
      else splitlines_from r (line ++ [c])
  end.

Definition splitlines (s : pystr) : list pystr := splitlines_from s [].

(** ** The reader of the [csv] module

    [Modules/_csv.c] with the [excel] dialect, the one [DictReader] and
    [DictWriter] use by default: the comma as delimiter, the double quote as quote character,
    [doublequote], no escape character, no [skipinitialspace], not [strict],
    [QUOTE_MINIMAL], line terminator [\r\n].  The states that only an escape
    character reaches are left out. *)

Definition delimiter : N := 44.
Definition quotechar : N := 34.
Definition lineterminator : pystr := [13; 10]%N.
Definition field_limit : N := 131072.

Inductive ParserState : Type :=
| START_RECORD
| START_FIELD
| IN_FIELD
| IN_QUOTED_FIELD
| QUOTE_IN_QUOTED_FIELD
| EAT_CRNL.

Record ReaderObj : Type := {
  fields : list pystr;
  field : pystr;
  state : ParserState
}.

Definition parse_reset : ReaderObj :=
  {| fields := []; field := []; state := START_RECORD |}.

Definition set_state (self : ReaderObj) (st : ParserState) : ReaderObj :=
  {| fields := fields self; field := field self; state := st |}.

Definition parse_save_field (self : ReaderObj) : ReaderObj :=
  {| fields := fields self ++ [field self]; field := []; state := state self |}.

Definition parse_add_char (self : ReaderObj) (c : N) : result ReaderObj :=
  if (field_limit <=? N.of_nat (length (field self)))%N then Raise CsvError
  else Ok {| fields := fields self; field := field self ++ [c];
             state := state self |}.

Definition is_newline (c : N) : bool := ((c =? 10) || (c =? 13))%N.

(** [parse_process_char]; the character [None] is [EOL], the end of a line. *)
Definition parse_process_char (self : ReaderObj) (c : option N) : result ReaderObj :=
  let start_field (self : ReaderObj) : result ReaderObj :=
    match c with
    | None => Ok (set_state (parse_save_field self) START_RECORD)
    | Some x =>
        if is_newline x then Ok (set_state (parse_save_field self) EAT_CRNL)
        else if (x =? quotechar)%N then Ok (set_state self IN_QUOTED_FIELD)
        else if (x =? delimiter)%N then Ok (parse_save_field self)
        else self' <- parse_add_char self x ;; Ok (set_state self' IN_FIELD)
    end in
  match state self with
  | START_RECORD =>
      match c with
      | None => Ok self
      | Some x =>
          if is_newline x then Ok (set_state self EAT_CRNL)
          else start_field (set_state self START_FIELD)
      end
  | START_FIELD => start_field self
  | IN_FIELD =>
      match c with
      | None => Ok (set_state (parse_save_field self) START_RECORD)
      | Some x =>
          if is_newline x then Ok (set_state (parse_save_field self) EAT_CRNL)
          else if (x =? delimiter)%N
          then Ok (set_state (parse_save_field self) START_FIELD)
          else parse_add_char self x
      end
  | IN_QUOTED_FIELD =>
      match c with
      | None => Ok self
      | Some x =>
          if (x =? quotechar)%N then Ok (set_state self QUOTE_IN_QUOTED_FIELD)
          else parse_add_char self x
      end
  | QUOTE_IN_QUOTED_FIELD =>
      match c with
      | None => Ok (set_state (parse_save_field self) START_RECORD)
      | Some x =>
          if (x =? quotechar)%N
          then self' <- parse_add_char self x ;; Ok (set_state self' IN_QUOTED_FIELD)
          else if (x =? delimiter)%N
          then Ok (set_state (parse_save_field self) START_FIELD)
          else if is_newline x
          then Ok (set_state (parse_save_field self) EAT_CRNL)
          else self' <- parse_add_char self x ;; Ok (set_state self' IN_FIELD)
      end
  | EAT_CRNL =>
      match c with
      | None => Ok (set_state self START_RECORD)
      | Some x => if is_newline x then Ok self else Raise CsvError
      end
  end.

Definition is_START_RECORD (st : ParserState) : bool :=
  match st with START_RECORD => true | _ => false end.

Definition is_IN_QUOTED_FIELD (st : ParserState) : bool :=
  match st with IN_QUOTED_FIELD => true | _ => false end.

(** The rows that successive calls of [Reader_iternext] return on the lines
    [lines]: a call feeds lines to the parser, each followed by [EOL], until
    the state is [START_RECORD] again, and the next call starts from
    [parse_reset]. *)
Fixpoint reader_rows (lines : list pystr) (self : ReaderObj)
  : result (list (list pystr)) :=
  match lines with
  | [] =>
      if negb (length (field self) =? 0)%nat || is_IN_QUOTED_FIELD (state self)
      then Ok [fields (parse_save_field self)]
      else Ok []
  | lineobj :: lines' =>
      self1 <- foldM (fun self c => parse_process_char self (Some c)) lineobj self ;;
      self2 <- parse_process_char self1 None ;;
      if is_START_RECORD (state self2)
      then rows <- reader_rows lines' parse_reset ;; Ok (fields self2 :: rows)
      else reader_rows lines' self2
  end.

(** ** [csv.DictReader] with [restkey=None] and [restval=None] *)

(** The dictionary [__next__] builds from a row that is not empty. *)
Definition DictReader_row (fieldnames row : list pystr) : dict :=
  let d := fold_left (fun d kv => dict_store d (VStr (fst kv)) (VStr (snd kv)))
                     (combine fieldnames row) [] in
  let lf := length fieldnames in
  let lr := length row in
  if (lf <? lr)%nat then dict_store d VNone (VList (map VStr (skipn lf row)))
  else if (lr <? lf)%nat
  then fold_left (fun d key => dict_store d (VStr key) VNone) (skipn lr fieldnames) d
  else d.

Definition is_empty_row (row : list pystr) : bool :=
  match row with [] => true | _ :: _ => false end.

(** [list(DictReader(lines))] from the rows of the underlying reader: the
    first row names the fields, empty rows are skipped. *)
Definition DictReader_list (rows : list (list pystr)) : list pyvalue :=
  match rows with
  | [] => []
  | fieldnames :: rows' =>
      map (fun row => VDict (DictReader_row fieldnames row))
          (filter (fun row => negb (is_empty_row row)) rows')
  end.

(** ** The writer of the [csv] module and [csv.DictWriter] *)

Definition needs_quoting (c : N) : bool :=
  ((c =? delimiter) || (c =? quotechar) || existsb (N.eqb c) lineterminator)%N.

(** The copy of a field that [join_append_data] makes, quotes doubled. *)
Definition copy_field (text : pystr) : pystr :=
  flat_map (fun c => if (c =? quotechar)%N then [quotechar; c] else [c]) text.

(** [join_append]: [rec] is the record so far, of [num_fields] fields. *)
Definition join_append (rec : pystr) (num_fields : nat) (text : pystr) (quoted : bool)
  : pystr :=
  let quoted := quoted || existsb needs_quoting text in
  rec ++ (if (0 <? num_fields)%nat then [delimiter] else [])
      ++ (if quoted then [quotechar] ++ copy_field text ++ [quotechar]
          else copy_field text).

Section Writer.
Variable isprintable : N -> bool.

(** The text of a field in [csv_writerow]: [None] is the empty text and
    what is not text goes through [str]. *)
Definition field_text (v : pyvalue) : pystr :=
  match v with
  | VStr s => s
  | VNone => []
  | _ => py_str isprintable v
  end.

(** The line [csv_writerow] hands to [write]. *)
Definition csv_writerow (row : list pyvalue) : pystr :=
  let '(rec, num_fields) :=
    fold_left (fun '(rec, n) v => (join_append rec n (field_text v) false, S n))
              row ([], O) in
  let rec :=
    if (0 <? num_fields)%nat && (length rec =? 0)%nat
    then join_append rec (num_fields - 1) [] true
    else rec in
  rec ++ lineterminator.

(** [DictWriter._dict_to_list] with the default [extrasaction], which
    raises, and the default [restval], the empty text. *)
Definition _dict_to_list (fieldnames : list pyvalue) (rowdict : pyvalue)
  : result (list pyvalue) :=
  match rowdict with
  | VDict d =>
    let wrong_fields :=
      filter (fun k => negb (existsb (key_eqb k) fieldnames)) (dict_keys d) in
    match wrong_fields with
    | _ :: _ => Raise ValueError
    | [] =>
        Ok (map (fun key => match dict_get d key with
                            | Some v => v
                            | None => VStr []
                            end) fieldnames)
    end
  | _ => Raise AttributeError
  end.

Definition writerow (fieldnames : list pyvalue) (rowdict : pyvalue) : result pystr :=
  row <- _dict_to_list fieldnames rowdict ;;
  Ok (csv_writerow row).

Definition writeheader (fieldnames : list pyvalue) : result pystr :=
  let header := fold_left (fun d k => dict_store d k k) fieldnames [] in
  writerow fieldnames (VDict header).

(** [writerows]: the lines of the rows in order, up to the first failure. *)
Definition writerows (fieldnames rowdicts : list pyvalue) : result pystr :=
  lines <- mapM (writerow fieldnames) rowdicts ;;
  Ok (concat lines).
End Writer.

(** ** Subscripting, keys and iteration, as [CsvConverter.serialise] uses them *)

(** [d[0]]. *)
Definition getitem_0 (d : pyvalue) : result pyvalue :=
  match d with
  | VList (x :: _) | VTuple (x :: _) => Ok x
  | VStr (c :: _) => Ok (VStr [c])
  | VBytes (c :: _) => Ok (VInt (Z.of_N c))
  | VList [] | VTuple [] | VStr [] | VBytes [] => Raise IndexError
  | VDict items =>
      match dict_get items (VInt 0) with
      | Some v => Ok v
      | None => Raise KeyError
      end
  | VNone | VEllipsis | VBool _ | VInt _ | VFloat _ | VSet _ => Raise TypeError
  end.

(** [v.keys()]. *)
Definition keys (v : pyvalue) : result (list pyvalue) :=
  match v with
  | VDict d => Ok (dict_keys d)
  | _ => Raise AttributeError
  end.

(** [iter(d)], all at once. *)
Definition iterate (d : pyvalue) : result (list pyvalue) :=
  match d with
  | VList l | VTuple l | VSet l => Ok l
  | VDict items => Ok (dict_keys items)
  | VStr s => Ok (map (fun c => VStr [c]) s)
  | VBytes b => Ok (map (fun c => VInt (Z.of_N c)) b)
  | VNone | VEllipsis | VBool _ | VInt _ | VFloat _ => Raise TypeError
  end.

(** ** [os.path.splitext] (posixpath) *)

Definition sep : N := Eval cbv in ch "/".
Definition extsep : N := Eval cbv in ch ".".

(** The [while filenameIndex < dotIndex] loop of [genericpath._splitext];
    [n] is the number of iterations left, [dotIndex - filenameIndex]. *)
Fixpoint _splitext_loop (p : pystr) (filenameIndex dotIndex : Z) (n : nat)
  : pystr * pystr :=
  match n with
  | O => (p, [])
  | S n' =>
      if negb (str_eqb (slice p filenameIndex (filenameIndex + 1)) [extsep])
      then (slice p 0 dotIndex, skipn (Z.to_nat dotIndex) p)
      else _splitext_loop p (filenameIndex + 1) dotIndex n'
  end.

Definition _splitext (p : pystr) : pystr * pystr :=
  let sepIndex := rfind sep p in
  let dotIndex := rfind extsep p in
  if (sepIndex <? dotIndex)%Z
  then let filenameIndex := (sepIndex + 1)%Z in
       _splitext_loop p filenameIndex dotIndex (Z.to_nat (dotIndex - filenameIndex))
  else (p, []).

Definition splitext (p : pystr) : pystr * pystr := _splitext p.

(** ** The registry of [ConvertInput] *)

Inductive converter_class : Type :=
| cls_BaseConverter
| cls_PyConverter
| cls_CsvConverter
| cls_JsonConverter
| cls_YamlConverter.

Definition converter_type_map : list (pystr * converter_class) :=
  [ (str ".py", cls_PyConverter);
    (str ".csv", cls_CsvConverter);
    (str ".json", cls_JsonConverter) ].

(** [m[k]] on a dictionary with text keys; [None] stands for [KeyError]. *)
Fixpoint map_get {V : Type} (m : list (pystr * V)) (k : pystr) : option V :=
  match m with
  | [] => None
  | (k', v) :: m' => if str_eqb k' k then Some v else map_get m' k
  end.

Definition get_supported_extensions : list pystr := map fst converter_type_map.

Definition unrecognised (filename : pystr) : pystr :=
  str "Unrecognised file type: " ++ filename.

Definition get_converter (filename : pystr) : result converter_class :=
  let file_ext := snd (splitext filename) in
  match map_get converter_type_map file_ext with
  | Some c => Ok c
  | None => Raise (Exception (unrecognised filename))
  end.

(** ** The converter classes *)

Module BaseConverter.
Definition deserialise (s : pystr) : result pyvalue := Ok (VDict []).
Definition serialise (d : pyvalue) : result pystr := Ok [].
End BaseConverter.

Module PyConverter.
Definition deserialise (py : python) (s : pystr) : result pyvalue :=
  literal_eval (ast_parse py) s.

Definition serialise (py : python) (d : pyvalue) : result pystr :=
  Ok (repr (Py_UNICODE_ISPRINTABLE py) d).
End PyConverter.

Module CsvConverter.
Definition deserialise (s : pystr) : result pyvalue :=
  rows <- reader_rows (splitlines s) parse_reset ;;
  Ok (VList (DictReader_list rows)).

Definition serialise (py : python) (d : pyvalue) : result pystr :=
  first <- getitem_0 d ;;
  fieldnames <- keys first ;;
  header <- writeheader (Py_UNICODE_ISPRINTABLE py) fieldnames ;;
  rowdicts <- iterate d ;;
  rows <- writerows (Py_UNICODE_ISPRINTABLE py) fieldnames rowdicts ;;
  Ok (header ++ rows).
End CsvConverter.

Module JsonConverter.
Definition deserialise (s : pystr) : result pyvalue := json_loads s.
Definition serialise (d : pyvalue) : result pystr := json_dumps d.
End JsonConverter.

(** [raise NotImplemented]: [NotImplemented] is not an exception, and
    raising it is a [TypeError]. *)
Module YamlConverter.
Definition deserialise (s : pystr) : result pyvalue := Raise TypeError.
Definition serialise (d : pyvalue) : result pystr := Raise TypeError.
End YamlConverter.

(** The attributes [deserialise] and [serialise] of a class. *)
Definition deserialise_of (py : python) (c : converter_class)
  : pystr -> result pyvalue :=
  match c with
  | cls_BaseConverter => BaseConverter.deserialise
  | cls_PyConverter => PyConverter.deserialise py
  | cls_CsvConverter => CsvConverter.deserialise
  | cls_JsonConverter => JsonConverter.deserialise
  | cls_YamlConverter => YamlConverter.deserialise
  end.

Definition serialise_of (py : python) (c : converter_class)
  : pyvalue -> result pystr :=
  match c with
  | cls_BaseConverter => BaseConverter.serialise
  | cls_PyConverter => PyConverter.serialise py
  | cls_CsvConverter => CsvConverter.serialise py
  | cls_JsonConverter => JsonConverter.serialise
  | cls_YamlConverter => YamlConverter.serialise
  end.

(** ** Files

    A file system maps a path to what is there.  Files hold text: the
    encoding of text into bytes, permissions and missing parent directories
    are not modelled. *)

Inductive entry : Type :=
| File (content : pystr)
| Directory.

Definition filesystem := pystr -> option entry.

(** The newline translation of a file opened for reading in text mode. *)
Fixpoint universal_newlines (s : pystr) : pystr :=
  match s with
  | [] => []
  | c :: r =>
      if (c =? 13)%N then
        match r with
        | c' :: r' =>
            if (c' =? 10)%N then 10%N :: universal_newlines r'
            else 10%N :: universal_newlines r
        | [] => [10%N]
        end
      else c :: universal_newlines r
  end.

(** [with open(path) as file: file.read()]. *)
Definition read_file (fs : filesystem) (path : pystr) : result pystr :=
  match fs path with
  | Some (File content) => Ok (universal_newlines content)
  | Some Directory => Raise IsADirectoryError
  | None => Raise FileNotFoundError
  end.

(** [with open(path, "w") as write_file: write_file.write(text)] on a system
    where the line separator is the line feed. *)
Definition write_file (fs : filesystem) (path text : pystr) : result filesystem :=
  match fs path with
  | Some Directory => Raise IsADirectoryError
  | _ => Ok (fun p => if str_eqb p path then Some (File text) else fs p)
  end.

(** ** [ConvertInput.do_conversion]

    The result and the file system the call leaves. *)
Definition do_conversion (py : python) (fs : filesystem)
    (input_file output_file : pystr) : result pyvalue * filesystem :=
  match get_converter input_file with
  | Raise e => (Raise e, fs)
  | Ok input_class =>
      let deserialise := deserialise_of py input_class in
      match get_converter output_file with
      | Raise e => (Raise e, fs)
      | Ok output_class =>
          let serialise := serialise_of py output_class in
          match read_file fs input_file with
          | Raise e => (Raise e, fs)
          | Ok input_string =>
              match deserialise input_string with
              | Raise e => (Raise e, fs)
              | Ok data =>
                  match serialise data with
                  | Raise e => (Raise e, fs)
                  | Ok output_string =>
                      match write_file fs output_file output_string with
                      | Raise e => (Raise e, fs)
                      | Ok fs' => (Ok data, fs')
                      end
                  end
              end
          end
      end
  end.

(** ** The extension as the specification words it *)

(** The substring from the last ['.'] to the end, the dot included; the empty
    text when there is no ['.']. *)
Fixpoint spec_extension (f : pystr) : pystr :=
  match f with
  | [] => []
  | c :: r =>
      if existsb (N.eqb extsep) r then spec_extension r
      else if N.eqb c extsep then c :: r else []
  end.

(** The final path component: what follows the last ['/']. *)
Fixpoint basename (f : pystr) : pystr :=
  match f with
  | [] => []
  | c :: r => if existsb (N.eqb sep) (c :: r) then basename r else c :: r
  end.

Fixpoint lstrip_dots (f : pystr) : pystr :=
  match f with
  | c :: r => if N.eqb c extsep then lstrip_dots r else f
  | [] => []
  end.

(** A step of [do_conversion] before the final write fails: the resolution
    of either path, the read, the decoding or the encoding. *)
Definition fails_before_write (py : python) (fs : filesystem)
    (input_file output_file : pystr) : Prop :=
  raises (get_converter input_file)
  \/ raises (get_converter output_file)
  \/ raises (read_file fs input_file)
  \/ (exists input_class input_string,
        get_converter input_file = Ok input_class
        /\ read_file fs input_file = Ok input_string
        /\ raises (deserialise_of py input_class input_string))
  \/ (exists input_class output_class input_string data,
        get_converter input_file = Ok input_class
        /\ get_converter output_file = Ok output_class
        /\ read_file fs input_file = Ok input_string
        /\ deserialise_of py input_class input_string = Ok data
        /\ raises (serialise_of py output_class data)).

(** An instance of the given parts, for examples whose text is ASCII: the
    parser is the fragment parser and no code point is printable. *)
Definition display_python : python :=
  {| Py_UNICODE_ISPRINTABLE := fun _ => false;
     ast_parse := literal_display |}.

(** A file system that holds one file. *)
Definition single_file (path content : pystr) : filesystem :=
  fun p => if str_eqb p path then Some (File content) else None.

(** ** Examples of CSV text and records *)

Definition CRLF : pystr := [13; 10]%N.

Definition row (items : list (string * string)) : pyvalue :=
  VDict (map (fun kv => (VStr (str (fst kv)), VStr (str (snd kv)))) items).

(** The text [name,age\r\nJoe,21\r\n] and the record it denotes. *)
Definition joe_text : pystr := str "name,age" ++ CRLF ++ str "Joe,21" ++ CRLF.
Definition joe_record : pyvalue := VList [row [("name", "Joe"); ("age", "21")]]%string.

(** A header [a] and one row whose only field, in quotes, holds [x], a line
    feed and [y]. *)
Definition two_line_field_text : pystr :=
  str "a" ++ CRLF ++ [34%N] ++ str "x" ++ [10%N] ++ str "y" ++ [34%N] ++ CRLF.
Definition two_line_field : pystr := str "x" ++ [10%N] ++ str "y".

(** A header [a,b] and one row whose first field, in quotes, holds a comma. *)
Definition comma_field_text : pystr :=
  str "a,b" ++ CRLF ++ [34%N] ++ str "x,y" ++ [34%N] ++ str ",z" ++ CRLF.

(** A record that CSV cannot take, as [CsvConverter.serialise] has it: the
    empty record, or a record with a row that has a key the first row
    lacks. *)
Definition csv_unencodable (d : pyvalue) : Prop :=
  d = VList []
  \/ exists first rows r k,
       d = VList (VDict first :: rows)
       /\ In (VDict r) rows
       /\ In k (dict_keys r)
       /\ existsb (key_eqb k) (dict_keys first) = false.



(** ** The values a format can express *)

(** Text that JSON text can carry: code points up to [U+10FFFF] in which no
    high surrogate is followed by a low surrogate (in JSON text such a pair
    of escapes denotes one character beyond [U+FFFF]). *)
Fixpoint json_text (s : pystr) : bool :=
  match s with
  | [] => true
  | c :: r =>
      (c <? 1114112)%N
      && negb (is_high_surrogate c
               && match r with c' :: _ => is_low_surrogate c' | [] => false end)
      && json_text r
  end.

(** Text of code points up to [U+10FFFF]. *)
Definition valid_text (s : pystr) : bool := forallb (fun c => (c <? 1114112)%N) s.

(** No two of the keys are equal. *)
Fixpoint distinct_keys (ks : list pyvalue) : bool :=
  match ks with
  | [] => true
  | k :: r => negb (existsb (key_eqb k) r) && distinct_keys r
  end.

(** The values built from [None], booleans, integers, text, lists and
    dictionaries with text keys, all text satisfying [text_ok].  A record, a
    list of rows that map field names to such scalars, is one of them. *)
Fixpoint plain (text_ok : pystr -> bool) (v : pyvalue) : bool :=
  match v with
  | VNone | VBool _ | VInt _ => true
  | VStr s => text_ok s
  | VList l => forallb (plain text_ok) l
  | VDict d =>
      forallb (fun kv =>
                 match fst kv with VStr k => text_ok k | _ => false end
                 && plain text_ok (snd kv)) d
      && distinct_keys (dict_keys d)
  | VEllipsis | VFloat _ | VBytes _ | VTuple _ | VSet _ => false
  end.

(** The JSON text of a plain value, as [json.dumps] writes it. *)
Fixpoint json_form (v : pyvalue) : pystr :=
  match v with
  | VNone => str "null"
  | VBool true => str "true"
  | VBool false => str "false"
  | VInt z => int_repr z
  | VStr s => encode_basestring_ascii s
  | VList l => str "[" ++ join (str ", ") (map json_form l) ++ str "]"
  | VDict d =>
      str "{"
      ++ join (str ", ")
           (map (fun kv => json_form (fst kv) ++ str ": " ++ json_form (snd kv)) d)
      ++ str "}"
  | VEllipsis | VFloat _ | VBytes _ | VTuple _ | VSet _ => []
  end.


(** * Further definitions

    What the statements about the rest of the program need: the script
    around [do_conversion], and the values and texts each handler takes. *)

(** [str.upper] on the letters of ASCII. *)
Definition upper (c : N) : N :=
  if ((97 <=? c) && (c <=? 122))%N then (c - 32)%N else c.


(** ** The script

    [main] and the block that runs when the file is executed, from the
    parsed arguments on: [args.input_file] and [args.output_file]. *)

(** [main(args)], which returns nothing. *)
Definition main (py : python) (fs : filesystem) (input_file output_file : pystr)
  : result unit * filesystem :=
  match do_conversion py fs input_file output_file with
  | (Ok outputData, fs') => (Ok tt, fs')
  | (Raise e, fs') => (Raise e, fs')
  end.

Section Script.
(** [str(e)] for the exceptions that the library raises; their texts are
    outside the model.  The text of [Exception(msg)] is [msg]. *)
Variable library_text : exn -> pystr.

Definition exception_str (e : exn) : pystr :=
  match e with
  | Exception msg => msg
  | _ => library_text e
  end.

(** The [try] block: what is printed, and the file system left.  Every
    exception of the model is an [Exception], so the handler catches it and
    the script ends normally either way. *)
Definition script (py : python) (fs : filesystem) (input_file output_file : pystr)
  : pystr * filesystem :=
  match main py fs input_file output_file with
  | (Ok _, fs') =>
      (str "Converted " ++ input_file ++ str " to " ++ output_file ++ [10%N], fs')
  | (Raise e, fs') =>
      (str "Failed to convert " ++ input_file ++ str " to " ++ output_file
         ++ str ": " ++ exception_str e ++ [10%N], fs')
  end.
End Script.

(** ** What the JSON handler takes and returns *)

(** The keys [json.dumps] accepts in a dictionary. *)
Definition json_key_ok (k : pyvalue) : bool :=
  match k with
  | VStr _ | VFloat _ | VBool _ | VNone | VInt _ => true
  | _ => false
  end.

(** The values [json.dumps] encodes. *)
Fixpoint jsonable (v : pyvalue) : bool :=
  match v with
  | VNone | VBool _ | VInt _ | VFloat _ | VStr _ => true
  | VList l | VTuple l => forallb jsonable l
  | VDict d => forallb (fun kv => json_key_ok (fst kv) && jsonable (snd kv)) d
  | VEllipsis | VBytes _ | VSet _ => false
  end.

(** No float is printed when the value is encoded: none among the items of
    its lists and tuples and the values of its dictionaries. *)
Fixpoint float_free (v : pyvalue) : bool :=
  match v with
  | VFloat _ => false
  | VList l | VTuple l | VSet l => forallb float_free l
  | VDict d => forallb (fun kv => float_free (snd kv)) d
  | _ => true
  end.

(** The values [json.loads] builds: [None], booleans, numbers, text, lists,
    and dictionaries whose keys are text, no two of them equal. *)
Fixpoint json_value (v : pyvalue) : bool :=
  match v with
  | VNone | VBool _ | VInt _ | VFloat _ | VStr _ => true
  | VList l => forallb json_value l
  | VDict d =>
      forallb (fun kv => match fst kv with VStr _ => true | _ => false end
                         && json_value (snd kv)) d
      && distinct_keys (dict_keys d)
  | VEllipsis | VBytes _ | VTuple _ | VSet _ => false
  end.

(** The value with a list in the place of every tuple. *)
Fixpoint listify (v : pyvalue) : pyvalue :=
  match v with
  | VTuple l | VList l => VList (map listify l)
  | VDict d => VDict (map (fun kv => (fst kv, listify (snd kv))) d)
  | _ => v
  end.

(** The plain values and the tuples of them: as [plain], with tuples where
    [plain] has lists only. *)
Fixpoint plain_or_tuple (text_ok : pystr -> bool) (v : pyvalue) : bool :=
  match v with
  | VNone | VBool _ | VInt _ => true
  | VStr s => text_ok s
  | VList l | VTuple l => forallb (plain_or_tuple text_ok) l
  | VDict d =>
      forallb (fun kv =>
                 match fst kv with VStr k => text_ok k | _ => false end
                 && plain_or_tuple text_ok (snd kv)) d
      && distinct_keys (dict_keys d)
  | VEllipsis | VFloat _ | VBytes _ | VSet _ => false
  end.

(** The characters of ASCII from the space to the tilde. *)
Definition printable_ascii (c : N) : bool := ((32 <=? c) && (c <=? 126))%N.

(** Spaces and tabs, what [literal_eval] strips from the left of its text. *)
Definition blank (s : pystr) : bool := forallb (fun c => (c =? 32)%N || (c =? 9)%N) s.

(** ** Tables: the records CSV text carries *)

(** Text that a field of CSV text carries unchanged through
    [CsvConverter]: it holds no line boundary of [str.splitlines] and is no
    longer than the field limit of the reader. *)
Definition cell_text (t : pystr) : bool :=
  negb (existsb is_linebreak t) && (N.of_nat (length t) <=? field_limit)%N.

(** The record of a table: one row for each list of cells, which maps the
    names of the header, in order, to the cells. *)
Definition table_row (names cells : list pystr) : pyvalue :=
  VDict (combine (map VStr names) (map VStr cells)).

Definition table (names : list pystr) (rows : list (list pystr)) : pyvalue :=
  VList (map (table_row names) rows).

(** A row of a table: as many cells as the header has names, and cells that
    CSV carries. *)
Definition row_ok (width : nat) (cells : list pystr) : Prop :=
  length cells = width /\ forallb cell_text cells = true.

(** The names of the fields of a CSV text: the first row of the reader. *)
Definition csv_header (s : pystr) : list pystr :=
  match reader_rows (splitlines s) parse_reset with
  | Ok (names :: _) => names
  | _ => []
  end.

Section Cells.
Variable isprintable : N -> bool.

(** The text [DictWriter] writes for the field [name] of the row [d]. *)
Definition cell_of (d : dict) (name : pystr) : pystr :=
  match dict_get d (VStr name) with
  | Some v => field_text isprintable v
  | None => []
  end.

(** The cells of a row, by the names of the header. *)
Definition cells_of (names : list pystr) (r : pyvalue) : list pystr :=
  match r with
  | VDict d => map (cell_of d) names
  | _ => []
  end.

(** A row [DictWriter] accepts under the header [names], all of whose
    fields are written as text that CSV carries. *)
Definition writable_row (names : list pystr) (r : pyvalue) : bool :=
  match r with
  | VDict d =>
      forallb (fun k => existsb (key_eqb k) (map VStr names)) (dict_keys d)
      && forallb (fun name => cell_text (cell_of d name)) names
  | _ => false
  end.
End Cells.

(** ** The literals with tuples *)

(** The values built from [None], booleans, integers, text, tuples, lists
    and dictionaries whose keys can be hashed, no two keys of a dictionary
    equal. *)
Fixpoint literal_value (v : pyvalue) : bool :=
  match v with
  | VNone | VBool _ | VInt _ => true
  | VStr s => valid_text s
  | VTuple l | VList l => forallb literal_value l
  | VDict d =>
      forallb (fun kv => literal_value (fst kv) && hashable (fst kv)
                         && literal_value (snd kv)) d
      && distinct_keys (dict_keys d)
  | VEllipsis | VFloat _ | VBytes _ | VSet _ => false
  end.

(** The expression that the display of such a value denotes. *)
Fixpoint display_expr (v : pyvalue) : expr :=
  match v with
  | VInt (Zneg p) => EUnaryOp USub (EConstant (VInt (Zpos p)))
  | VTuple l => ETuple (map display_expr l)
  | VList l => EList (map display_expr l)
  | VDict d =>
      EDict (map (fun kv => (Some (display_expr (fst kv)), display_expr (snd kv))) d)
  | _ => EConstant v
  end.

(** * Properties *)

Example splitext_csv : splitext (str "dir.d/data.csv") = (str "dir.d/data", str ".csv").
Proof. reflexivity. Qed.

Example splitext_hidden : splitext (str ".csv") = (str ".csv", []).
Proof. reflexivity. Qed.

(** ** Splitting a file name *)

#[local] Arguments N.eqb : simpl never.

Section Scan.
Variable c : N.

Definition lacks (p : pystr) : Prop := existsb (N.eqb c) p = false.

Lemma existsb_eqb_app (a b : pystr) :
  existsb (N.eqb c) (a ++ c :: b) = true.
Proof.
  rewrite existsb_app. simpl. rewrite N.eqb_refl. apply orb_true_r.
Qed.

Lemma split_last (p : pystr) :
  existsb (N.eqb c) p = true ->
  exists a b, p = a ++ c :: b /\ lacks b.
Proof.
  induction p as [|x p IH]; simpl; [discriminate|].
  destruct (existsb (N.eqb c) p) eqn:E.
  - intros _. destruct (IH eq_refl) as (a & b & -> & Hb).
  exists (x :: a), b. split; [reflexivity|assumption].
  - rewrite orb_false_r. intros Hx. apply N.eqb_eq in Hx. subst x.
  exists [], p. split; [reflexivity|assumption].
Qed.

Lemma rfind_from_lacks (p : pystr) (i last : Z) :
  lacks p -> rfind_from c p i last = last.
Proof.
  revert i last. induction p as [|x p IH]; intros i last H; simpl; [reflexivity|].
  unfold lacks in H. simpl in H. apply orb_false_elim in H as [Hx Hp].
  rewrite N.eqb_sym in Hx. rewrite Hx. apply IH, Hp.
Qed.

Lemma rfind_from_app (a b : pystr) (i last : Z) :
  lacks b ->
  rfind_from c (a ++ c :: b) i last = (i + Z.of_nat (length a))%Z.
Proof.
  intros Hb. revert i last.
  induction a as [|x a IH]; intros i last; simpl.
  - rewrite N.eqb_refl, rfind_from_lacks by assumption. lia.
  - rewrite IH. lia.
Qed.

Lemma rfind_app (a b : pystr) :
  lacks b -> rfind c (a ++ c :: b) = Z.of_nat (length a).
  Proof. intros Hb. unfold rfind. rewrite rfind_from_app by assumption. lia. Qed.

Lemma rfind_lacks (p : pystr) : lacks p -> rfind c p = (-1)%Z.
  Proof. apply rfind_from_lacks. Qed.

Lemma lacks_app_r (a b : pystr) : lacks (a ++ b) -> lacks b.
Proof.
  unfold lacks. rewrite existsb_app. intros H.
  apply orb_false_elim in H. apply H.
Qed.
End Scan.

Lemma slice_one (pre : pystr) (x : N) (rest : pystr) :
  slice (pre ++ x :: rest) (Z.of_nat (length pre)) (Z.of_nat (length pre) + 1) = [x].
Proof.
  unfold slice.
  replace (Z.to_nat (Z.of_nat (length pre) + 1 - Z.of_nat (length pre))) with 1%nat by lia.
  rewrite Nat2Z.id, skipn_app, skipn_all, Nat.sub_diag. reflexivity.
Qed.

Lemma slice_prefix (a b : pystr) :
  slice (a ++ b) 0 (Z.of_nat (length a)) = a.
Proof.
  unfold slice. simpl. rewrite Z.sub_0_r, Nat2Z.id.
  rewrite firstn_app, firstn_all, Nat.sub_diag. simpl. apply app_nil_r.
Qed.

Lemma skipn_prefix (a b : pystr) :
  skipn (Z.to_nat (Z.of_nat (length a))) (a ++ b) = b.
Proof.
  rewrite Nat2Z.id, skipn_app, skipn_all, Nat.sub_diag. reflexivity.
Qed.

Lemma spec_extension_lacks (v : pystr) : lacks extsep v -> spec_extension v = [].
Proof.
  induction v as [|x v IH]; [reflexivity|].
  unfold lacks. simpl. intros H. apply orb_false_elim in H as [Hx Hv].
  rewrite Hv. rewrite N.eqb_sym, Hx. reflexivity.
Qed.

Lemma spec_extension_app (a v : pystr) :
  lacks extsep v -> spec_extension (a ++ extsep :: v) = extsep :: v.
Proof.
  intros Hv. induction a as [|x a IH]; simpl.
  - unfold lacks in Hv. rewrite Hv. reflexivity.
  - rewrite existsb_eqb_app. apply IH.
Qed.

Lemma basename_lacks (b : pystr) : lacks sep b -> basename b = b.
Proof.
  destruct b as [|x b]; [reflexivity|]. unfold lacks. intros H.
  unfold basename. rewrite H. reflexivity.
Qed.

Lemma basename_app (a b : pystr) :
  lacks sep b -> basename (a ++ sep :: b) = b.
Proof.
  intros Hb. induction a as [|x a IH].
  - cbn [app basename existsb]. rewrite ?N.eqb_refl. cbn [orb].
    apply basename_lacks, Hb.
  - change ((x :: a) ++ sep :: b) with (x :: (a ++ sep :: b)).
    unfold basename; fold basename.
    change (existsb (N.eqb sep) (x :: a ++ sep :: b))
      with (N.eqb sep x || existsb (N.eqb sep) (a ++ sep :: b)).
    rewrite existsb_eqb_app, orb_true_r. apply IH.
Qed.

(** The loop over the characters [w] between the separator and the last dot. *)
Lemma _splitext_loop_spec (pre w v : pystr) :
  lacks extsep v ->
  snd (_splitext_loop (pre ++ w ++ extsep :: v) (Z.of_nat (length pre))
         (Z.of_nat (length (pre ++ w))) (length w))
  = spec_extension (lstrip_dots (w ++ extsep :: v)).
Proof.
  intros Hv. revert pre.
  induction w as [|x w IH]; intros pre.
  - simpl. clear pre. symmetry. induction v as [|y v IHv]; [reflexivity|].
    assert (Hv' := Hv). unfold lacks in Hv'. simpl in Hv'.
    apply orb_false_elim in Hv' as [Hy Hv'].
    simpl. rewrite N.eqb_sym, Hy. apply spec_extension_lacks, Hv.
  - cbn [length _splitext_loop].
    change (pre ++ (x :: w) ++ extsep :: v) with (pre ++ x :: (w ++ extsep :: v)).
    rewrite slice_one. cbn [str_eqb]. rewrite andb_true_r.
    cbn [lstrip_dots app].
    destruct (N.eqb x extsep) eqn:Hx; cbn [negb].
    + specialize (IH (pre ++ [x])).
      rewrite <- !app_assoc in IH. cbn [app] in IH.
      rewrite length_app in IH. cbn [length] in IH.
      replace (Z.of_nat (length pre) + 1)%Z with (Z.of_nat (length pre + 1)) by lia.
      rewrite <- IH. rewrite !length_app. cbn [length].
      repeat f_equal; lia.
    + cbn [snd].
      replace (pre ++ x :: w ++ extsep :: v) with ((pre ++ x :: w) ++ extsep :: v)
        by (rewrite <- app_assoc; reflexivity).
      replace (pre ++ x :: w) with (pre ++ x :: w) by reflexivity.
      rewrite skipn_prefix.
      change (x :: w ++ extsep :: v) with ((x :: w) ++ extsep :: v).
      rewrite spec_extension_app by assumption. reflexivity.
Qed.

Lemma lstrip_dots_lacks (b : pystr) :
  lacks extsep b -> spec_extension (lstrip_dots b) = [].
Proof.
  intros Hb. induction b as [|x b IH]; [reflexivity|].
  assert (Hb' := Hb). unfold lacks in Hb'. cbn [existsb] in Hb'.
  apply orb_false_elim in Hb' as [Hx Hb'].
  cbn [lstrip_dots]. rewrite N.eqb_sym, Hx.
  apply spec_extension_lacks, Hb.
Qed.

(** [os.path.splitext] on a name without separator. *)
Lemma splitext_ext_component (b : pystr) :
  lacks sep b -> snd (splitext b) = spec_extension (lstrip_dots b).
Proof.
  intros Hs. unfold splitext, _splitext.
  rewrite (rfind_lacks _ _ Hs).
  destruct (existsb (N.eqb extsep) b) eqn:Hd.
  - destruct (split_last _ _ Hd) as (w & v & -> & Hv).
    rewrite (rfind_app _ w _ Hv).
    replace (-1 <? Z.of_nat (length w))%Z with true by (symmetry; apply Z.ltb_lt; lia).
    cbv zeta.
    replace (Z.to_nat (Z.of_nat (length w) - (-1 + 1))) with (length w) by lia.
    apply (_splitext_loop_spec [] w v Hv).
  - rewrite (rfind_lacks _ _ Hd). cbn. symmetry. apply lstrip_dots_lacks, Hd.
Qed.

Lemma splitext_ext_spec (f : pystr) :
  snd (splitext f) = spec_extension (lstrip_dots (basename f)).
Proof.
  destruct (existsb (N.eqb sep) f) eqn:Hs.
  2:{ rewrite basename_lacks by exact Hs. apply splitext_ext_component, Hs. }
  destruct (split_last _ _ Hs) as (a & b & -> & Hb).
  rewrite basename_app by assumption.
  unfold splitext, _splitext. rewrite (rfind_app _ a _ Hb).
  destruct (existsb (N.eqb extsep) b) eqn:Hd.
  - destruct (split_last _ _ Hd) as (w & v & -> & Hv).
    replace (a ++ sep :: w ++ extsep :: v) with ((a ++ sep :: w) ++ extsep :: v)
      by (rewrite <- app_assoc; reflexivity).
    rewrite (rfind_app _ (a ++ sep :: w) _ Hv).
    rewrite length_app. cbn [length].
    replace (Z.of_nat (length a) <? Z.of_nat (length a + S (length w)))%Z with true
      by (symmetry; apply Z.ltb_lt; lia).
    cbv zeta.
    replace (Z.to_nat (Z.of_nat (length a + S (length w)) - (Z.of_nat (length a) + 1)))
      with (length w) by lia.
    pose proof (_splitext_loop_spec (a ++ [sep]) w v Hv) as L.
    rewrite <- !app_assoc in L. cbn [app] in L.
    rewrite !length_app in L. cbn [length] in L.
    rewrite <- L. rewrite <- app_assoc. cbn [app].
    repeat f_equal; lia.
  - destruct (existsb (N.eqb extsep) a) eqn:Ha.
    + destruct (split_last _ _ Ha) as (u & v & -> & Hv).
      rewrite <- app_assoc. cbn [app].
      assert (Hv' : lacks extsep (v ++ sep :: b)).
      { unfold lacks. rewrite existsb_app. unfold lacks in Hv. rewrite Hv.
        cbn [existsb orb]. rewrite Hd. reflexivity. }
      rewrite (rfind_app _ u _ Hv').
      rewrite !length_app. cbn [length].
      replace (Z.of_nat (length u + S (length v)) <? Z.of_nat (length u))%Z with false
        by (symmetry; apply Z.ltb_ge; lia).
      cbn [snd]. symmetry. apply lstrip_dots_lacks, Hd.
    + assert (Hf : lacks extsep (a ++ sep :: b)).
      { unfold lacks. rewrite existsb_app, Ha. cbn [existsb orb]. rewrite Hd.
        reflexivity. }
      rewrite (rfind_lacks _ _ Hf).
      replace (Z.of_nat (length a) <? -1)%Z with false
        by (symmetry; apply Z.ltb_ge; lia).
      cbn [snd]. symmetry. apply lstrip_dots_lacks, Hd.
Qed.

(** [root + ext == p], as the documentation of [splitext] promises. *)
Lemma _splitext_loop_join (p : pystr) (i d : Z) (n : nat) :
  fst (_splitext_loop p i d n) ++ snd (_splitext_loop p i d n) = p.
Proof.
  revert i. induction n as [|n IH]; intros i; cbn [_splitext_loop].
  - apply app_nil_r.
  - destruct (negb _); [|apply IH].
    cbn [fst snd]. unfold slice. cbn [Z.to_nat skipn]. rewrite Z.sub_0_r.
    apply firstn_skipn.
Qed.

Lemma splitext_join (p : pystr) : fst (splitext p) ++ snd (splitext p) = p.
Proof.
  unfold splitext, _splitext. destruct (_ <? _)%Z.
  - apply _splitext_loop_join.
  - apply app_nil_r.
Qed.

(** ** Resolution of a file name *)

(** C8, as amended.  For every file name the extension that resolution
    extracts is taken from the final path component (what follows the last
    ['/']) with its leading dots dropped: it is the substring from the last
    ['.'] of that remainder to the end, the dot included, and the empty text
    when the remainder has no ['.']; that text is looked up in the
    registry. *)
Theorem get_converter_extension (filename : pystr) :
  let ext := spec_extension (lstrip_dots (basename filename)) in
  snd (splitext filename) = ext
  /\ get_converter filename
     = match map_get converter_type_map ext with
       | Some c => Ok c
       | None => Raise (Exception (unrecognised filename))
       end.
Proof.
  cbv zeta. split.
  - apply splitext_ext_spec.
  - unfold get_converter. cbv zeta. rewrite splitext_ext_spec. reflexivity.
Qed.

(** C8, as stated, fails on a name that starts with its only dot: the
    substring from the last ['.'] of [".csv"] is [".csv"], which the registry
    knows, while resolution extracts the empty text and fails. *)
Lemma extension_of_hidden_file :
  spec_extension (str ".csv") = str ".csv"
  /\ map_get converter_type_map (spec_extension (str ".csv")) = Some cls_CsvConverter
  /\ snd (splitext (str ".csv")) = []
  /\ get_converter (str ".csv") = Raise (Exception (unrecognised (str ".csv"))).
Proof. repeat split. Qed.

(** C4.  For every file name whose extension is not in the registry,
    resolution fails with an exception whose message ends with the file
    name, and so with its extension. *)
Theorem get_converter_unsupported (filename : pystr) :
  map_get converter_type_map (snd (splitext filename)) = None ->
  exists msg,
    get_converter filename = Raise (Exception msg)
    /\ (exists pre, msg = pre ++ filename)
    /\ (exists pre, msg = pre ++ snd (splitext filename)).
Proof.
  intros H. exists (unrecognised filename). split; [|split].
  - unfold get_converter. cbv zeta. rewrite H. reflexivity.
  - exists (str "Unrecognised file type: "). reflexivity.
  - exists (str "Unrecognised file type: " ++ fst (splitext filename)).
    unfold unrecognised. rewrite <- app_assoc, splitext_join. reflexivity.
Qed.

Lemma get_converter_unsupported_witness :
  map_get converter_type_map (snd (splitext (str "data.xyz"))) = None
  /\ exists msg,
       get_converter (str "data.xyz") = Raise (Exception msg)
       /\ (exists pre, msg = pre ++ str "data.xyz")
       /\ (exists pre, msg = pre ++ snd (splitext (str "data.xyz"))).
Proof.
  split; [reflexivity|].
  apply (get_converter_unsupported (str "data.xyz")). reflexivity.
Defined.

(** C9, as amended.  A file name with the extension [.yaml] or [.yml] does
    not resolve: the registry holds no entry for it and resolution fails as
    for any unrecognised file type.  The methods of [YamlConverter] fail on
    every input. *)
Theorem yaml_not_registered (filename : pystr) :
  snd (splitext filename) = str ".yaml" \/ snd (splitext filename) = str ".yml" ->
  get_converter filename = Raise (Exception (unrecognised filename))
  /\ (forall s, raises (YamlConverter.deserialise s))
  /\ (forall d, raises (YamlConverter.serialise d)).
Proof.
  intros H. split; [|split].
  - unfold get_converter. cbv zeta. destruct H as [-> | ->]; reflexivity.
  - intros s. exists TypeError. reflexivity.
  - intros d. exists TypeError. reflexivity.
Qed.

Lemma yaml_not_registered_witness :
  (snd (splitext (str "data.yaml")) = str ".yaml"
   \/ snd (splitext (str "data.yaml")) = str ".yml")
  /\ get_converter (str "data.yaml") = Raise (Exception (unrecognised (str "data.yaml")))
  /\ (forall s, raises (YamlConverter.deserialise s))
  /\ (forall d, raises (YamlConverter.serialise d)).
Proof.
  split; [left; reflexivity|].
  apply (yaml_not_registered (str "data.yaml")). left. reflexivity.
Defined.

(** C9, as stated, fails: resolution of [data.yaml] and of [data.yml] does
    fail. *)
Lemma yaml_resolution_fails :
  get_converter (str "data.yaml") = Raise (Exception (unrecognised (str "data.yaml")))
  /\ get_converter (str "data.yml") = Raise (Exception (unrecognised (str "data.yml"))).
Proof. split; reflexivity. Qed.

(** ** The conversion pipeline *)

Lemma raises_Ok {A : Type} (a : A) : ~ raises (Ok a).
Proof. intros [e H]. discriminate H. Qed.

Lemma raises_Raise {A : Type} (e : exn) : raises (@Raise A e).
Proof. exists e. reflexivity. Qed.

(** Whenever [do_conversion] raises, it returns the file system it was
    given. *)
Lemma do_conversion_raise_keeps_files (py : python) (fs : filesystem)
    (input_file output_file : pystr) :
  raises (fst (do_conversion py fs input_file output_file)) ->
  snd (do_conversion py fs input_file output_file) = fs.
Proof.
  unfold do_conversion.
  destruct (get_converter input_file) as [cin|]; [|reflexivity].
  destruct (get_converter output_file) as [cout|]; [|reflexivity].
  destruct (read_file fs input_file) as [text|]; [|reflexivity].
  cbv zeta.
  destruct (deserialise_of py cin text) as [data|]; [|reflexivity].
  destruct (serialise_of py cout data) as [out|]; [|reflexivity].
  destruct (write_file fs output_file out) as [fs'|]; [|reflexivity].
  cbn [fst]. intros H. destruct (raises_Ok _ H).
Qed.

(** C2.  If a step of the pipeline before the final write fails (the
    resolution of either path, the read of the input, the decoding or the
    encoding), [do_conversion] fails and leaves every file, the output path
    among them, as it was: nothing is created, truncated or modified. *)
Theorem do_conversion_no_partial_output (py : python) (fs : filesystem)
    (input_file output_file : pystr) :
  fails_before_write py fs input_file output_file ->
  raises (fst (do_conversion py fs input_file output_file))
  /\ snd (do_conversion py fs input_file output_file) = fs.
Proof.
  intros H.
  assert (R : raises (fst (do_conversion py fs input_file output_file))).
  { unfold do_conversion.
    destruct H as [H | [H | [H | [H | H]]]].
    - destruct H as [e ->]. apply raises_Raise.
    - destruct (get_converter input_file); [|apply raises_Raise].
      destruct H as [e ->]. apply raises_Raise.
    - destruct (get_converter input_file); [|apply raises_Raise].
      destruct (get_converter output_file); [|apply raises_Raise].
      destruct H as [e ->]. apply raises_Raise.
    - destruct H as (cin & text & -> & -> & [e He]).
      destruct (get_converter output_file); [|apply raises_Raise].
      cbv zeta. rewrite He. apply raises_Raise.
    - destruct H as (cin & cout & text & data & -> & -> & -> & Hd & [e He]).
      cbv zeta. rewrite Hd, He. apply raises_Raise. }
  split; [exact R|].
  apply do_conversion_raise_keeps_files, R.
Qed.

(** Malformed JSON on the way to CSV: the decoding fails and no file is
    written. *)
Lemma do_conversion_no_partial_output_witness :
  let fs := single_file (str "in.json") (str "[{") in
  fails_before_write display_python fs (str "in.json") (str "out.csv")
  /\ raises (fst (do_conversion display_python fs (str "in.json") (str "out.csv")))
  /\ snd (do_conversion display_python fs (str "in.json") (str "out.csv")) = fs.
Proof.
  cbv zeta.
  assert (H : fails_before_write display_python
                (single_file (str "in.json") (str "[{"))
                (str "in.json") (str "out.csv")).
  { right. right. right. left.
    exists cls_JsonConverter, (str "[{").
    split; [reflexivity|]. split; [reflexivity|].
    exists JSONDecodeError. reflexivity. }
  split; [exact H|].
  exact (do_conversion_no_partial_output display_python
           (single_file (str "in.json") (str "[{"))
           (str "in.json") (str "out.csv") H).
Defined.

(** ** The CSV handler *)

(** C6.  The text [name,age\r\nJoe,21\r\n] deserialises to the record of one
    row with [name] Joe and [age] 21, both text, and that record serialises
    to the same text, line terminators included. *)
Theorem csv_literal_example :
  CsvConverter.deserialise joe_text = Ok joe_record
  /\ forall py, CsvConverter.serialise py joe_record = Ok joe_text.
Proof.
  split.
  - vm_compute. reflexivity.
  - intros py. vm_compute. reflexivity.
Qed.

(** C7, where the code departs from it.  The quoted field of
    [two_line_field_text] holds a line feed; [deserialise] returns the field
    without it, because [splitlines] removes the line boundaries before the
    reader sees them.  [serialise] does write such a field in quotes with
    its line feed. *)
Theorem csv_embedded_newline_lost :
  CsvConverter.deserialise two_line_field_text = Ok (VList [row [("a", "xy")]%string])
  /\ forall py,
       CsvConverter.serialise py (VList [VDict [(VStr (str "a"), VStr two_line_field)]])
       = Ok two_line_field_text.
Proof.
  split.
  - vm_compute. reflexivity.
  - intros py. vm_compute. reflexivity.
Qed.

(** A delimiter inside a quoted field stays in the field. *)
Example csv_quoted_delimiter :
  CsvConverter.deserialise comma_field_text
  = Ok (VList [row [("a", "x,y"); ("b", "z")]%string]).
Proof. vm_compute. reflexivity. Qed.

Lemma mapM_raises {A B : Type} (f : A -> result B) (l : list A) (x : A) :
  In x l -> raises (f x) -> raises (mapM f l).
Proof.
  intros Hin [e He]. induction l as [|a l IH]; [destruct Hin|].
  cbn [mapM]. destruct Hin as [-> | Hin].
  - rewrite He. apply raises_Raise.
  - destruct (f a); [|apply raises_Raise]. cbn [bind].
    destruct (IH Hin) as [e' ->]. apply raises_Raise.
Qed.

Lemma filter_not_nil {A : Type} (p : A -> bool) (l : list A) (x : A) :
  In x l -> p x = true -> filter p l <> [].
Proof.
  intros Hin Hp E.
  assert (H : In x (filter p l)) by (apply filter_In; split; assumption).
  rewrite E in H. destruct H.
Qed.

(** A row with a key that is not a field name makes [writerow] raise. *)
Lemma writerow_extra_key (isprintable : N -> bool) (fieldnames : list pyvalue)
    (r : dict) (k : pyvalue) :
  In k (dict_keys r) -> existsb (key_eqb k) fieldnames = false ->
  writerow isprintable fieldnames (VDict r) = Raise ValueError.
Proof.
  intros Hin Hk. unfold writerow, _dict_to_list.
  pose proof (filter_not_nil
                (fun k => negb (existsb (key_eqb k) fieldnames)) (dict_keys r) k Hin) as F.
  cbv beta in F. rewrite Hk in F. specialize (F eq_refl).
  destruct (filter _ (dict_keys r)); [destruct F; reflexivity|reflexivity].
Qed.

(** C3, as amended.  CSV serialise fails whenever the record is empty and
    whenever a row has a key that is not among the keys of the first row; a
    failure returns no text. *)
Theorem csv_serialise_fails (py : python) (d : pyvalue) :
  csv_unencodable d -> raises (CsvConverter.serialise py d).
Proof.
  intros [-> | (first & rows & r & k & -> & Hin & Hk & Hnot)].
  - exists IndexError. reflexivity.
  - unfold CsvConverter.serialise. cbn [getitem_0 keys bind iterate].
    destruct (writeheader _ _) as [header|]; [|apply raises_Raise].
    cbn [bind]. unfold writerows.
    assert (R : raises (mapM (writerow (Py_UNICODE_ISPRINTABLE py) (dict_keys first))
                          (VDict first :: rows))).
    { apply mapM_raises with (x := VDict r).
      - right. exact Hin.
      - rewrite (writerow_extra_key _ _ r k Hk Hnot). apply raises_Raise. }
    destruct R as [e ->]. apply raises_Raise.
Qed.

Lemma csv_serialise_fails_witness :
  let d := VList [row [("a", "1")]; row [("a", "2"); ("b", "3")]]%string in
  csv_unencodable d /\ raises (CsvConverter.serialise display_python d).
Proof.
  cbv zeta.
  assert (H : csv_unencodable
                (VList [row [("a", "1")]; row [("a", "2"); ("b", "3")]]%string)).
  { right.
    exists [(VStr (str "a"), VStr (str "1"))],
           [row [("a", "2"); ("b", "3")]%string],
           [(VStr (str "a"), VStr (str "2")); (VStr (str "b"), VStr (str "3"))],
           (VStr (str "b")).
    split; [reflexivity|]. split; [left; reflexivity|].
    split; [right; left; reflexivity|reflexivity]. }
  split; [exact H|].
  exact (csv_serialise_fails display_python _ H).
Defined.

(** C3, as stated, fails: the second row of this record has not the keys of
    the first, it lacks [b], and serialise returns the text of a table in
    which the missing field is empty. *)
Lemma csv_serialise_short_row :
  CsvConverter.serialise display_python
    (VList [row [("a", "1"); ("b", "2")]; row [("a", "3")]]%string)
  = Ok (str "a,b" ++ CRLF ++ str "1,2" ++ CRLF ++ str "3," ++ CRLF).
Proof. vm_compute. reflexivity. Qed.

(** ** Numbers as text *)

(** The text [rest] does not start with a digit. *)
Definition no_digit_ahead (rest : pystr) : Prop :=
  match rest with
  | [] => True
  | c :: _ => is_digit c = false
  end.

Lemma scan_digits_stop (rest : pystr) :
  no_digit_ahead rest -> scan_digits rest = (Decimal.Nil, rest).
Proof.
  destruct rest as [|c r]; [reflexivity|]. cbn. intros ->. reflexivity.
Qed.

Lemma scan_digits_uint (d : Decimal.uint) (rest : pystr) :
  no_digit_ahead rest -> scan_digits (uint_chars d ++ rest) = (d, rest).
Proof.
  intros H. induction d; cbn [uint_chars app];
    [apply scan_digits_stop, H| ..];
    cbn [scan_digits]; rewrite IHd; reflexivity.
Qed.

Lemma nzhead_not_D0 (d x : Decimal.uint) : Decimal.nzhead d <> Decimal.D0 x.
Proof. induction d; cbn; try discriminate. exact IHd. Qed.

(** The decimal digits of a positive number do not start with a zero. *)
Lemma to_uint_head (p : positive) :
  match Pos.to_uint p with
  | Decimal.Nil | Decimal.D0 _ => False
  | _ => True
  end.
Proof.
  pose proof (DecimalPos.Unsigned.to_of (Pos.to_uint p)) as E.
  rewrite DecimalPos.Unsigned.of_to in E. cbn [N.to_uint] in E.
  pose proof (DecimalPos.Unsigned.to_uint_nonzero p) as Z.
  pose proof (DecimalPos.Unsigned.to_uint_nonnil p) as NN.
  destruct (Pos.to_uint p) as [|d| | | | | | | | |] eqn:Ed; try exact I.
  - apply NN. reflexivity.
  - unfold Decimal.unorm in E. cbn [Decimal.nzhead] in E.
    destruct (Decimal.nzhead d) eqn:En.
    + injection E as E. subst d. apply Z. reflexivity.
    + apply (nzhead_not_D0 d u). exact En.
    + discriminate E. + discriminate E. + discriminate E. + discriminate E.
    + discriminate E. + discriminate E. + discriminate E. + discriminate E.
    + discriminate E.
Qed.

Lemma uint_chars_head (d : Decimal.uint) :
  match d with
  | Decimal.Nil | Decimal.D0 _ => False
  | _ => True
  end ->
  exists c r, uint_chars d = c :: r /\ is_digit c = true /\ (c =? 48)%N = false
              /\ (c =? 45)%N = false.
Proof.
  destruct d; intros H; try destruct H;
    cbn [uint_chars]; do 2 eexists; (split; [reflexivity | repeat split]).
Qed.

Lemma hex_value_char (d : N) : (d < 16)%N -> hex_value (hex_char d) = Some d.
Proof.
  intros H.
  assert (C : (d = 0 \/ d = 1 \/ d = 2 \/ d = 3 \/ d = 4 \/ d = 5 \/ d = 6 \/ d = 7
               \/ d = 8 \/ d = 9 \/ d = 10 \/ d = 11 \/ d = 12 \/ d = 13 \/ d = 14
               \/ d = 15)%N) by lia.
  repeat (destruct C as [-> | C]; [reflexivity|]). subst d. reflexivity.
Qed.

Lemma scan_hex_hexdigits (k j : nat) (m acc : N) (s : pystr) :
  (m < 16 ^ N.of_nat k)%N ->
  scan_hex (k + j) acc (hexdigits k m ++ s) = scan_hex j (acc * 16 ^ N.of_nat k + m) s.
Proof.
  revert j m s. induction k as [|k IH]; intros j m s H.
  - cbn [hexdigits app Nat.add]. f_equal. cbn in H. lia.
  - cbn [hexdigits]. rewrite <- app_assoc. cbn [app].
    replace (S k + j)%nat with (k + S j)%nat by lia.
    rewrite Nat2N.inj_succ, N.pow_succ_r' in H.
    rewrite IH.
    2:{ apply N.Div0.div_lt_upper_bound. exact H. }
    cbn [scan_hex]. rewrite hex_value_char by (apply N.mod_lt; lia).
    f_equal. rewrite Nat2N.inj_succ, N.pow_succ_r'.
    pose proof (N.div_mod m 16). lia.
Qed.

(** Reading back [k] hexadecimal digits. *)
Lemma scan_hex_roundtrip (k : nat) (m : N) (s : pystr) :
  (m < 16 ^ N.of_nat k)%N -> scan_hex k 0 (hexdigits k m ++ s) = Some (m, s).
Proof.
  intros H. pose proof (scan_hex_hexdigits k 0 m 0 s H) as E.
  rewrite Nat.add_0_r in E. rewrite E. reflexivity.
Qed.

Lemma hexdigits_length (k : nat) (m : N) : length (hexdigits k m) = k.
Proof.
  revert m. induction k as [|k IH]; intros m; [reflexivity|].
  cbn [hexdigits]. rewrite length_app, IH. cbn. lia.
Qed.

(** ** Values *)

(** Induction on a value, through the lists and the items it holds. *)
Section PyvalueInduction.
Variable P : pyvalue -> Prop.
Hypothesis HNone : P VNone.
Hypothesis HEllipsis : P VEllipsis.
Hypothesis HBool : forall b, P (VBool b).
Hypothesis HInt : forall z, P (VInt z).
Hypothesis HFloat : forall lit, P (VFloat lit).
Hypothesis HStr : forall s, P (VStr s).
Hypothesis HBytes : forall b, P (VBytes b).
Hypothesis HTuple : forall l, Forall P l -> P (VTuple l).
Hypothesis HList : forall l, Forall P l -> P (VList l).
Hypothesis HSet : forall l, Forall P l -> P (VSet l).
Hypothesis HDict :
  forall d, Forall (fun kv => P (fst kv) /\ P (snd kv)) d -> P (VDict d).

Fixpoint pyvalue_induction (v : pyvalue) : P v :=
  let all :=
  fix all (l : list pyvalue) : Forall P l :=
    match l with
    | [] => Forall_nil P
    | x :: l' => Forall_cons x (pyvalue_induction x) (all l')
    end in
  match v with
  | VNone => HNone
  | VEllipsis => HEllipsis
  | VBool b => HBool b
  | VInt z => HInt z
  | VFloat lit => HFloat lit
  | VStr s => HStr s
  | VBytes b => HBytes b
  | VTuple l => HTuple l (all l)
  | VList l => HList l (all l)
  | VSet l => HSet l (all l)
  | VDict d =>
    HDict d
      ((fix items (d : dict)
          : Forall (fun kv => P (fst kv) /\ P (snd kv)) d :=
          match d with
          | [] => Forall_nil _
          | (k, x) :: d' =>
              Forall_cons (k, x)
                (conj (pyvalue_induction k) (pyvalue_induction x))
                (items d')
          end) d)
  end.
End PyvalueInduction.

Lemma str_eqb_refl (s : pystr) : str_eqb s s = true.
Proof.
  induction s as [|c s IH]; [reflexivity|].
  cbn [str_eqb]. rewrite N.eqb_refl. exact IH.
Qed.

Lemma str_eqb_eq (a b : pystr) : str_eqb a b = true <-> a = b.
Proof.
  split; [|intros ->; apply str_eqb_refl].
  revert b. induction a as [|x a IH]; intros [|y b] H; try discriminate H.
  - reflexivity.
  - cbn [str_eqb] in H. apply andb_true_iff in H as [Hx Ha].
    apply N.eqb_eq in Hx. subst y. f_equal. apply IH, Ha.
Qed.

Lemma mapM_map {A B : Type} (f : A -> result B) (g : A -> B) (l : list A) :
  Forall (fun a => f a = Ok (g a)) l -> mapM f l = Ok (map g l).
Proof.
  induction 1 as [|a l Ha _ IH]; [reflexivity|].
  cbn [mapM map]. rewrite Ha. cbn [bind]. rewrite IH. reflexivity.
Qed.

Lemma join_cons (sep x : pystr) (l : list pystr) :
  join sep (x :: l)
  = x ++ match l with [] => [] | _ :: _ => sep ++ join sep l end.
Proof. destruct l; cbn [join]; [rewrite app_nil_r|]; reflexivity. Qed.

(** Storing under a key that the dictionary does not hold adds an item at
    the end. *)
Lemma dict_store_new (d : dict) (k v : pyvalue) :
  (forall k0, In k0 (dict_keys d) -> key_eqb k0 k = false) ->
  dict_store d k v = d ++ [(k, v)].
Proof.
  induction d as [|[k0 v0] d IH]; intros H; [reflexivity|].
  cbn [dict_store app]. rewrite (H k0) by (left; reflexivity).
  f_equal. apply IH. intros k1 H1. apply H. right. exact H1.
Qed.

Lemma existsb_false_In {A : Type} (p : A -> bool) (l : list A) (x : A) :
  existsb p l = false -> In x l -> p x = false.
Proof.
  intros H Hin. destruct (p x) eqn:E; [|reflexivity].
  assert (T : existsb p l = true) by (apply existsb_exists; exists x; auto).
  rewrite H in T. discriminate T.
Qed.

(** Storing items of distinct keys one after the other keeps them as they
    are. *)
Lemma dict_store_all (l acc : dict) :
  (forall k0 k, In k0 (dict_keys acc) -> In k (dict_keys l) -> key_eqb k0 k = false) ->
  distinct_keys (dict_keys l) = true ->
  fold_left (fun a kv => dict_store a (fst kv) (snd kv)) l acc = acc ++ l.
Proof.
  revert acc. induction l as [|[k v] l IH]; intros acc Hacc Hd.
  - cbn. rewrite app_nil_r. reflexivity.
  - cbn [dict_keys map fst distinct_keys] in Hd.
    apply andb_true_iff in Hd as [Hk Hd]. apply negb_true_iff in Hk.
    cbn [fold_left fst snd].
    rewrite dict_store_new.
    2:{ intros k0 H0. apply Hacc; [exact H0|left; reflexivity]. }
    rewrite IH.
    + rewrite <- app_assoc. reflexivity.
    + intros k0 k1 H0 H1. unfold dict_keys in H0. rewrite map_app in H0.
      apply in_app_or in H0 as [H0 | H0].
      * apply Hacc; [exact H0|right; exact H1].
      * cbn in H0. destruct H0 as [<- | []].
        apply (existsb_false_In _ _ k1 Hk). exact H1.
    + exact Hd.
Qed.

(** ** JSON text *)

#[local] Arguments N.leb : simpl never.
#[local] Arguments N.ltb : simpl never.

(** Evaluates a comparison of two constants in the goal. *)
Ltac fold_test :=
  match goal with
  | |- context [N.eqb ?x ?y] =>
      let r := eval vm_compute in (N.eqb x y) in
      match r with
      | true => change (N.eqb x y) with true
      | false => change (N.eqb x y) with false
      end
  | |- context [N.leb ?x ?y] =>
      let r := eval vm_compute in (N.leb x y) in
      match r with
      | true => change (N.leb x y) with true
      | false => change (N.leb x y) with false
      end
  | |- context [N.ltb ?x ?y] =>
      let r := eval vm_compute in (N.ltb x y) in
      match r with
      | true => change (N.ltb x y) with true
      | false => change (N.ltb x y) with false
      end
  end.

Ltac fold_tests :=
  cbn [andb orb negb]; repeat (fold_test; cbn [andb orb negb]).

(** Turns the boolean comparisons among the hypotheses into propositions. *)
Ltac tests_to_props :=
  repeat match goal with
    | H : (_ && _)%bool = true |- _ => apply andb_true_iff in H; destruct H
    | H : (_ || _)%bool = false |- _ => apply orb_false_iff in H; destruct H
    | H : negb _ = true |- _ => apply negb_true_iff in H
    | H : negb _ = false |- _ => apply negb_false_iff in H
    | H : N.eqb _ _ = true |- _ => apply N.eqb_eq in H
    | H : N.eqb _ _ = false |- _ => apply N.eqb_neq in H
    | H : N.leb _ _ = true |- _ => apply N.leb_le in H
    | H : N.leb _ _ = false |- _ => apply N.leb_gt in H
    | H : N.ltb _ _ = true |- _ => apply N.ltb_lt in H
    | H : N.ltb _ _ = false |- _ => apply N.ltb_ge in H
    end.

Lemma eqb_false (a b : N) : a <> b -> (a =? b)%N = false.
Proof. apply N.eqb_neq. Qed.

Lemma lor_above (a b k : N) :
  (b < 2 ^ k)%N -> N.lor (a * 2 ^ k) b = (a * 2 ^ k + b)%N.
Proof.
  intros H.
  assert (Z : N.land (a * 2 ^ k) b = 0%N).
  { apply N.bits_inj_0. intros n. rewrite N.land_spec.
    destruct (N.lt_ge_cases n k) as [L | G].
    - rewrite N.mul_pow2_bits_low by exact L. reflexivity.
    - rewrite <- (N.mod_small b (2 ^ k)) by exact H.
      rewrite N.mod_pow2_bits_high by exact G. apply andb_false_r. }
  rewrite <- N.lxor_lor by exact Z. symmetry. apply N.add_nocarry_lxor, Z.
Qed.

(** The two halves of the surrogate pair that [encode_char] writes for a
    code point beyond [U+FFFF]. *)
Definition high_half (c : N) : N :=
  N.lor 55296 (N.land (N.shiftr (c - 65536) 10) 1023).
Definition low_half (c : N) : N := N.lor 56320 (N.land (c - 65536) 1023).

Lemma high_half_eq (c : N) :
  (65536 <= c < 1114112)%N -> high_half c = (55296 + (c - 65536) / 1024)%N.
Proof.
  intros H. unfold high_half.
  change 1023%N with (N.ones 10). rewrite N.land_ones, N.shiftr_div_pow2.
  change (2 ^ 10)%N with 1024%N.
  rewrite N.mod_small by (apply N.Div0.div_lt_upper_bound; lia).
  change 55296%N with (54 * 2 ^ 10)%N. apply lor_above.
  change (2 ^ 10)%N with 1024%N. apply N.Div0.div_lt_upper_bound. lia.
Qed.

Lemma low_half_eq (c : N) : low_half c = (56320 + (c - 65536) mod 1024)%N.
Proof.
  unfold low_half. change 1023%N with (N.ones 10). rewrite N.land_ones.
  change 56320%N with (55 * 2 ^ 10)%N. apply lor_above.
  apply N.mod_lt. discriminate.
Qed.

Lemma join_surrogates_halves (c : N) :
  (65536 <= c < 1114112)%N -> join_surrogates (high_half c) (low_half c) = c.
Proof.
  intros H. unfold join_surrogates.
  rewrite high_half_eq, low_half_eq by exact H.
  pose proof (N.div_mod (c - 65536) 1024) as D.
  assert (M : ((c - 65536) mod 1024 < 2 ^ 10)%N) by (apply N.mod_lt; discriminate).
  set (q := ((c - 65536) / 1024)%N) in *.
  set (m := ((c - 65536) mod 1024)%N) in *.
  replace (55296 + q - 55296)%N with q by lia.
  replace (56320 + m - 56320)%N with m by lia.
  rewrite N.shiftl_mul_pow2, lor_above by exact M.
  change (2 ^ 10)%N with 1024%N. lia.
Qed.

Lemma high_half_range (c : N) :
  (65536 <= c < 1114112)%N -> (55296 <= high_half c <= 56319)%N.
Proof.
  intros H. rewrite high_half_eq by exact H.
  assert ((c - 65536) / 1024 < 1024)%N by (apply N.Div0.div_lt_upper_bound; lia).
  set (q := ((c - 65536) / 1024)%N) in *. lia.
Qed.

Lemma low_half_range (c : N) : (56320 <= low_half c <= 57343)%N.
Proof.
  rewrite low_half_eq.
  assert ((c - 65536) mod 1024 < 1024)%N by (apply N.mod_lt; discriminate).
  set (m := ((c - 65536) mod 1024)%N) in *. lia.
Qed.

(** What [encode_char] writes, case by case. *)
Inductive encoding (c : N) : pystr -> Prop :=
| enc_raw :
    (32 <= c <= 126)%N -> c <> 34%N -> c <> 92%N -> encoding c [c]
| enc_short e :
    e <> 117%N -> BACKSLASH e = Some c -> encoding c [92%N; e]
| enc_u :
    (c < 65536)%N -> encoding c ([92; 117]%N ++ hexdigits 4 c)
| enc_pair :
    (65536 <= c < 1114112)%N ->
    encoding c ([92; 117]%N ++ hexdigits 4 (high_half c)
                ++ [92; 117]%N ++ hexdigits 4 (low_half c)).

Lemma encode_char_encoding (c : N) : (c < 1114112)%N -> encoding c (encode_char c).
Proof.
  intros H. unfold encode_char.
  destruct (c =? 92)%N eqn:E1.
  { apply N.eqb_eq in E1. subst c. apply enc_short; [discriminate|reflexivity]. }
  destruct (c =? 34)%N eqn:E2.
  { apply N.eqb_eq in E2. subst c. apply enc_short; [discriminate|reflexivity]. }
  destruct ((32 <=? c)%N && (c <=? 126)%N) eqn:E3.
  { tests_to_props. apply enc_raw; [lia|assumption|assumption]. }
  destruct (c =? 8)%N eqn:E4.
  { apply N.eqb_eq in E4. subst c. apply enc_short; [discriminate|reflexivity]. }
  destruct (c =? 12)%N eqn:E5.
  { apply N.eqb_eq in E5. subst c. apply enc_short; [discriminate|reflexivity]. }
  destruct (c =? 10)%N eqn:E6.
  { apply N.eqb_eq in E6. subst c. apply enc_short; [discriminate|reflexivity]. }
  destruct (c =? 13)%N eqn:E7.
  { apply N.eqb_eq in E7. subst c. apply enc_short; [discriminate|reflexivity]. }
  destruct (c =? 9)%N eqn:E8.
  { apply N.eqb_eq in E8. subst c. apply enc_short; [discriminate|reflexivity]. }
  destruct (c <? 65536)%N eqn:E9.
  { apply N.ltb_lt in E9. apply enc_u. exact E9. }
  apply N.ltb_ge in E9. cbv zeta.
  apply enc_pair. lia.
Qed.

Lemma encoding_length (c : N) (t : pystr) : encoding c t -> (1 <= length t)%nat.
Proof. intros []; cbn; lia. Qed.

Lemma decode_hex4 (m : N) (s : pystr) :
  (m < 65536)%N -> _decode_uXXXX (hexdigits 4 m ++ s) = Some (m, s).
Proof. intros H. apply scan_hex_roundtrip. exact H. Qed.

(** No escape of a low surrogate starts the text [t]: [scanstring] does not
    join a high surrogate read just before with what follows. *)
Definition no_low_escape_ahead (t : pystr) : Prop :=
  match after_backslash_u t with
  | Some r3 =>
      exists uni2 r4, _decode_uXXXX r3 = Some (uni2, r4)
                      /\ is_low_surrogate uni2 = false
  | None => True
  end.

Lemma after_backslash_u_other (b : N) (t : pystr) :
  b <> 92%N -> after_backslash_u (b :: t) = None.
Proof.
  intros H. destruct t as [|u t]; [reflexivity|].
  cbn [after_backslash_u]. rewrite (eqb_false b 92 H). reflexivity.
Qed.

Lemma no_low_escape_encoding (c : N) (t rest : pystr) :
  encoding c t -> is_low_surrogate c = false -> no_low_escape_ahead (t ++ rest).
Proof.
  intros E L. unfold no_low_escape_ahead. destruct E.
  - cbn [app]. rewrite after_backslash_u_other by assumption. exact I.
  - cbn [app after_backslash_u]. fold_tests. rewrite (eqb_false e 117) by assumption.
    exact I.
  - cbn [app after_backslash_u]. fold_tests.
    exists c, rest. split; [apply decode_hex4; assumption|exact L].
  - cbn [app after_backslash_u]. fold_tests. rewrite <- app_assoc.
    pose proof (high_half_range c H) as R.
    eexists _, _. split; [apply decode_hex4; lia|].
    unfold is_low_surrogate. apply andb_false_iff. left. apply N.leb_gt. lia.
Qed.

(** One character read back. *)
Lemma scanstring_step (c : N) (t rest chunks : pystr) (fuel : nat) :
  encoding c t ->
  (is_high_surrogate c = true -> no_low_escape_ahead rest) ->
  scanstring (S fuel) (t ++ rest) chunks = scanstring fuel rest (chunks ++ [c]).
Proof.
  intros E Hh. destruct E.
  - cbn [app scanstring].
    rewrite (eqb_false c 34), (eqb_false c 92) by assumption.
    replace (c <? 32)%N with false by (symmetry; apply N.ltb_ge; lia).
    reflexivity.
  - cbn [app scanstring]. fold_tests.
    rewrite (eqb_false e 117) by assumption. cbn [negb]. rewrite H0. reflexivity.
  - cbn [app scanstring]. fold_tests.
    rewrite decode_hex4 by assumption.
    destruct (is_high_surrogate c) eqn:Hc; [|reflexivity].
    specialize (Hh eq_refl). unfold no_low_escape_ahead in Hh.
    destruct (after_backslash_u rest) as [r3|]; [|reflexivity].
    destruct Hh as (uni2 & r4 & -> & ->). reflexivity.
  - cbn [app scanstring]. fold_tests. rewrite <- !app_assoc.
    pose proof (high_half_range c H) as R1.
    pose proof (low_half_range c) as R2.
    rewrite decode_hex4 by lia.
    replace (is_high_surrogate (high_half c)) with true
      by (symmetry; unfold is_high_surrogate; apply andb_true_iff;
          split; apply N.leb_le; lia).
    cbn [app after_backslash_u]. fold_tests.
    rewrite decode_hex4 by lia.
    replace (is_low_surrogate (low_half c)) with true
      by (symmetry; unfold is_low_surrogate; apply andb_true_iff;
          split; apply N.leb_le; lia).
    rewrite join_surrogates_halves by exact H. reflexivity.
Qed.

Lemma high_low_disjoint (c : N) :
  is_high_surrogate c = true -> is_low_surrogate c = false.
Proof.
  unfold is_high_surrogate, is_low_surrogate. intros H. tests_to_props.
  apply andb_false_iff. left. apply N.leb_gt. lia.
Qed.

(** The body of a string that [encode_basestring_ascii] wrote reads back. *)
Lemma scanstring_encoded (s rest chunks : pystr) (fuel : nat) :
  json_text s = true ->
  (length (flat_map encode_char s) < fuel)%nat ->
  scanstring fuel (flat_map encode_char s ++ 34%N :: rest) chunks
  = Ok (chunks ++ s, rest).
Proof.
  revert chunks fuel. induction s as [|c s IH]; intros chunks fuel W F.
  - cbn [flat_map app]. destruct fuel as [|fuel]; [cbn in F; lia|].
    cbn [scanstring]. fold_tests. rewrite app_nil_r. reflexivity.
  - cbn [json_text] in W. apply andb_true_iff in W as [W Ws].
    apply andb_true_iff in W as [Wc Wp]. apply N.ltb_lt in Wc.
    pose proof (encode_char_encoding c Wc) as E.
    pose proof (encoding_length _ _ E) as L.
    cbn [flat_map] in F |- *. rewrite length_app in F.
    destruct fuel as [|fuel]; [lia|].
    rewrite <- app_assoc.
    rewrite (scanstring_step c).
    + rewrite IH by (assumption || lia). rewrite <- app_assoc. reflexivity.
    + exact E.
    + intros Hc. rewrite Hc in Wp. cbn [andb] in Wp. apply negb_true_iff in Wp.
      destruct s as [|c' s'].
      * cbn [flat_map app]. unfold no_low_escape_ahead.
        rewrite after_backslash_u_other by discriminate. exact I.
      * cbn [json_text] in Ws. apply andb_true_iff in Ws as [Ws _].
        apply andb_true_iff in Ws as [Wc' _]. apply N.ltb_lt in Wc'.
        cbn [flat_map]. rewrite <- app_assoc.
        apply (no_low_escape_encoding c').
        -- apply encode_char_encoding, Wc'.
        -- exact Wp.
Qed.

(** Decides a comparison of the goal that arithmetic settles. *)
Ltac decide_test :=
  match goal with
  | |- context [N.eqb ?a ?b] =>
      first [ replace (N.eqb a b) with false by (symmetry; apply N.eqb_neq; lia)
            | replace (N.eqb a b) with true by (symmetry; apply N.eqb_eq; lia) ]
  | |- context [N.leb ?a ?b] =>
      first [ replace (N.leb a b) with false by (symmetry; apply N.leb_gt; lia)
            | replace (N.leb a b) with true by (symmetry; apply N.leb_le; lia) ]
  | |- context [N.ltb ?a ?b] =>
      first [ replace (N.ltb a b) with false by (symmetry; apply N.ltb_ge; lia)
            | replace (N.ltb a b) with true by (symmetry; apply N.ltb_lt; lia) ]
  end.

Ltac decide_tests :=
  cbn [andb orb negb]; repeat (decide_test; cbn [andb orb negb]).

(** Writes the literals of the goal and of the hypotheses as lists of code
    points. *)
Ltac eval_strs :=
  repeat match goal with
    | |- context [str ?s] =>
        let r := eval vm_compute in (str s) in change (str s) with r
    | H : context [str ?s] |- _ =>
        let r := eval vm_compute in (str s) in change (str s) with r in H
    end.

(** What may follow a value in the text [json.dumps] writes. *)
Definition delimited (rest : pystr) : Prop :=
  match rest with
  | [] => True
  | c :: _ => c = 44%N \/ c = 93%N \/ c = 125%N
  end.

(** The text [t] starts with a visible ASCII character other than the
    closing bracket. *)
Definition value_start (t : pystr) : Prop :=
  exists c r, t = c :: r /\ (33 <= c <= 126)%N /\ c <> 93%N.

Lemma is_digit_range (c : N) : is_digit c = true -> (48 <= c <= 57)%N.
Proof. unfold is_digit. intros H. tests_to_props. lia. Qed.

(** The text of an integer starts with a digit or with the minus sign. *)
Lemma int_repr_head (z : Z) :
  exists c r, int_repr z = c :: r /\ (c = 45 \/ 48 <= c <= 57)%N.
Proof.
  destruct z as [|p|p]; cbn [int_repr].
  - exists 48%N, []. split; [reflexivity|lia].
  - destruct (uint_chars_head _ (to_uint_head p)) as (c & r & E & Hd & _).
    apply is_digit_range in Hd. exists c, r. split; [exact E|lia].
  - eexists _, _. split; [reflexivity|lia].
Qed.

Lemma int_repr_start (z : Z) : value_start (int_repr z).
Proof.
  destruct (int_repr_head z) as (c & r & E & H).
  exists c, r. repeat split; [exact E|lia..].
Qed.

Lemma json_form_start (v : pyvalue) :
  plain json_text v = true -> value_start (json_form v).
Proof.
  destruct v as [| |[|]|z|lit|s|b|l|l|l|d]; cbn [plain json_form];
    try discriminate; intros _;
    try apply int_repr_start;
    eval_strs; cbn [app]; eexists _, _; repeat split; try reflexivity; lia.
Qed.

Lemma skip_ws_start (t rest : pystr) :
  value_start t -> skip_ws (t ++ rest) = t ++ rest.
Proof.
  intros (c & r & -> & Hc & _). cbn [app skip_ws]. decide_tests. reflexivity.
Qed.

Lemma skip_ws_delimiter (c : N) (r : pystr) :
  (33 <= c)%N -> skip_ws (c :: r) = c :: r.
Proof. intros H. cbn [skip_ws]. decide_tests. reflexivity. Qed.

Lemma delimited_no_digit (rest : pystr) : delimited rest -> no_digit_ahead rest.
Proof.
  destruct rest as [|c r]; [trivial|]. cbn. unfold is_digit.
  intros [-> | [-> | ->]]; reflexivity.
Qed.

Lemma match_frac_delimited (rest : pystr) :
  delimited rest -> match_frac rest = ([], rest).
Proof.
  destruct rest as [|c r]; [reflexivity|]. cbn [delimited match_frac].
  intros [-> | [-> | ->]]; reflexivity.
Qed.

Lemma match_exp_delimited (rest : pystr) :
  delimited rest -> match_exp rest = ([], rest).
Proof.
  destruct rest as [|c r]; [reflexivity|]. cbn [delimited match_exp].
  intros [-> | [-> | ->]]; reflexivity.
Qed.

(** A sign and the digits of a positive number, read by [match_number]. *)
Lemma match_number_digits (neg : bool) (p : positive) (rest : pystr) :
  delimited rest ->
  match_number (sign_text neg ++ uint_chars (Pos.to_uint p) ++ rest)
  = Some {| nm_negative := neg; nm_digits := Pos.to_uint p;
            nm_frac := []; nm_exp := []; nm_rest := rest |}.
Proof.
  intros D.
  destruct (uint_chars_head _ (to_uint_head p)) as (c & r & E & Hd & H48 & H45).
  pose proof (scan_digits_uint (Pos.to_uint p) rest (delimited_no_digit rest D)) as S.
  rewrite E in S |- *. cbn [app] in S.
  unfold match_number. destruct neg; cbn [sign_text app]; fold_tests;
    rewrite ?H45, H48, Hd, S;
    rewrite (match_frac_delimited rest D), (match_exp_delimited rest D);
    reflexivity.
Qed.

Lemma scan_atom_int (z : Z) (rest : pystr) :
  delimited rest -> scan_atom (int_repr z ++ rest) = Ok (VInt z, rest).
Proof.
  intros D. destruct z as [|p|p]; cbn [int_repr].
  - unfold scan_atom, match_number. eval_strs. cbn [app strip_prefix]. fold_tests.
    rewrite (match_frac_delimited rest D), (match_exp_delimited rest D). reflexivity.
  - pose proof (match_number_digits false p rest D) as M. cbn [sign_text app] in M.
    destruct (uint_chars_head _ (to_uint_head p)) as (c & r & E & Hd & _).
    apply is_digit_range in Hd.
    unfold scan_atom. rewrite M. rewrite E. eval_strs. cbn [app strip_prefix].
    decide_tests.
    unfold number_value. cbn [nm_frac nm_exp nm_negative nm_digits nm_rest].
    unfold N.of_uint. rewrite DecimalPos.Unsigned.of_to. reflexivity.
  - pose proof (match_number_digits true p rest D) as M. cbn [sign_text app] in M.
    unfold scan_atom. cbn [app]. rewrite M. eval_strs. cbn [strip_prefix]. fold_tests.
    unfold number_value. cbn [nm_frac nm_exp nm_negative nm_digits nm_rest].
    unfold N.of_uint. rewrite DecimalPos.Unsigned.of_to. reflexivity.
Qed.

Lemma value_start_app (t x : pystr) : value_start t -> value_start (t ++ x).
Proof. intros (c & r & -> & H). exists c, (r ++ x). split; [reflexivity|exact H]. Qed.

Lemma value_start_length (t : pystr) : value_start t -> (1 <= length t)%nat.
Proof. intros (c & r & -> & _). cbn. lia. Qed.

(** Spreads [length] over the concatenations of a hypothesis. *)
Ltac lengths H :=
  repeat first [ rewrite length_app in H | progress (cbn [length app] in H) ].

(** ** Reading back what [json.dumps] writes *)

Lemma json_dumps_plain (v : pyvalue) :
  plain json_text v = true -> json_dumps v = Ok (json_form v).
Proof.
  induction v as [| |[|]|z|lit|s|b|l IH|l IH|l IH|d IH] using pyvalue_induction;
    cbn [plain json_dumps json_form]; try discriminate; try reflexivity.
  - intros Hp. rewrite (mapM_map json_dumps json_form); [reflexivity|].
    rewrite forallb_forall in Hp. rewrite Forall_forall in IH |- *.
    intros x Hx. apply IH; [exact Hx|apply Hp, Hx].
  - intros Hp. apply andb_true_iff in Hp as [Hp _].
    rewrite (mapM_map _ (fun kv => json_form (fst kv) ++ str ": " ++ json_form (snd kv)));
      [reflexivity|].
    rewrite forallb_forall in Hp. rewrite Forall_forall in IH |- *.
    intros [k x] Hx. specialize (Hp _ Hx). specialize (IH _ Hx).
    cbn [fst snd] in *. apply andb_true_iff in Hp as [Hk Hv].
    destruct k; try discriminate Hk. cbn [json_key bind json_form].
    rewrite (proj2 IH Hv). reflexivity.
Qed.

(** The scanner reads the text of the value [v] back, whatever follows it
    in the text of a larger value. *)
Definition reads_back (v : pyvalue) : Prop :=
  plain json_text v = true ->
  forall fuel rest,
    delimited rest -> (2 * length (json_form v) <= fuel)%nat ->
    scan_once fuel (json_form v ++ rest) = Ok (v, rest).

Lemma JSONArray_loop_forms (l : list pyvalue) :
  Forall reads_back l -> forallb (plain json_text) l = true -> l <> [] ->
  forall fuel rest values,
    (2 * length (join (str ", ") (map json_form l)) < fuel)%nat ->
    JSONArray_loop fuel (join (str ", ") (map json_form l) ++ 93%N :: rest) values
    = Ok (VList (values ++ l), rest).
Proof.
  induction 1 as [|v l Hv Hl IH]; intros Hp Hne fuel rest values F; [congruence|].
  cbn [forallb] in Hp. apply andb_true_iff in Hp as [Hpv Hpl].
  cbn [map] in F |- *. rewrite join_cons in F |- *.
  destruct fuel as [|fuel]; [lia|]. cbn [JSONArray_loop].
  rewrite length_app in F.
  destruct l as [|v' l'].
  - cbn [map]. rewrite app_nil_r.
    rewrite (Hv Hpv fuel (93%N :: rest)); [|right; left; reflexivity|lia].
    cbn [bind]. rewrite skip_ws_delimiter by lia. fold_tests. reflexivity.
  - assert (Hs : value_start (join (str ", ") (map json_form (v' :: l')))).
    { cbn [map]. rewrite join_cons. apply value_start_app, json_form_start.
      cbn [forallb] in Hpl. apply andb_true_iff in Hpl. apply Hpl. }
    cbn [map] in F, IH, Hs |- *.
    set (tail := join (str ", ") (json_form v' :: map json_form l')) in *.
    eval_strs. rewrite length_app in F. cbn [length] in F.
    rewrite <- !app_assoc. cbn [app].
    rewrite (Hv Hpv fuel); [|left; reflexivity|lia].
    cbn [bind]. rewrite skip_ws_delimiter by lia. fold_tests.
    cbn [skip_ws]. fold_tests. rewrite skip_ws_start by exact Hs.
    rewrite IH; [|exact Hpl|discriminate|lia].
    rewrite <- app_assoc. reflexivity.
Qed.

Definition item_form (kv : pyvalue * pyvalue) : pystr :=
  json_form (fst kv) ++ str ": " ++ json_form (snd kv).

Definition text_key (kv : pyvalue * pyvalue) : pystr :=
  match fst kv with VStr k => k | _ => [] end.

Definition text_item (kv : pyvalue * pyvalue) : bool :=
  match fst kv with VStr k => json_text k | _ => false end
  && plain json_text (snd kv).

Lemma JSONObject_loop_forms (d : dict) :
  Forall (fun kv => reads_back (fst kv) /\ reads_back (snd kv)) d ->
  forallb text_item d = true -> d <> [] ->
  forall fuel rest pairs,
    (2 * length (join (str ", ") (map item_form d)) < fuel)%nat ->
    JSONObject_loop fuel (tl (join (str ", ") (map item_form d)) ++ 125%N :: rest) pairs
    = Ok (VDict (dict_of_pairs (pairs ++ map (fun kv => (text_key kv, snd kv)) d)), rest).
Proof.
  induction 1 as [|[k v] d [_ Hv] Hd IH]; intros Hp Hne fuel rest pairs F; [congruence|].
  cbn [forallb] in Hp. apply andb_true_iff in Hp as [Hpv Hpd].
  unfold text_item in Hpv. cbn [fst snd] in Hpv, Hv.
  apply andb_true_iff in Hpv as [Hk Hpv].
  destruct k as [| | | | |k| | | | |]; try discriminate Hk.
  cbn [map] in F |- *. rewrite join_cons in F |- *.
  unfold item_form at 1 in F. unfold item_form at 1.
  unfold text_key at 1. cbn [fst snd json_form] in F |- *.
  unfold encode_basestring_ascii in F |- *. eval_strs.
  lengths F.
  rewrite <- !app_assoc. cbn [app tl]. rewrite <- !app_assoc. cbn [app].
  destruct fuel as [|fuel]; [lia|]. cbn [JSONObject_loop].
  rewrite scanstring_encoded; [|exact Hk|rewrite length_app; cbn [length]; lia].
  cbn [bind app]. rewrite skip_ws_delimiter by lia. fold_tests.
  cbn [skip_ws]. fold_tests. rewrite <- ?app_assoc.
  rewrite (skip_ws_start (json_form v)) by (apply json_form_start, Hpv).
  destruct d as [|kv' d'].
  - cbn [map app].
    rewrite (Hv Hpv fuel (125%N :: rest)); [|right; right; reflexivity|lia].
    cbn [bind]. rewrite skip_ws_delimiter by lia. fold_tests. reflexivity.
  - assert (Hs : exists X, join (str ", ") (map item_form (kv' :: d')) = 34%N :: X).
    { cbn [map]. rewrite join_cons. cbn [forallb] in Hpd.
      apply andb_true_iff in Hpd as [Hkv' _]. unfold text_item in Hkv'.
      apply andb_true_iff in Hkv' as [Hk' _]. unfold item_form at 1.
      destruct (fst kv'); try discriminate Hk'. cbn [json_form].
      unfold encode_basestring_ascii. cbn [app]. eexists. reflexivity. }
    destruct Hs as [X EX]. eval_strs.
    specialize (IH Hpd ltac:(discriminate) fuel rest (pairs ++ [(k, v)])).
    cbn [map] in F, IH, EX |- *. rewrite EX in F, IH |- *.
    cbn [tl app length] in F, IH |- *.
    rewrite (Hv Hpv fuel); [|left; reflexivity|lia].
    cbn [bind]. rewrite skip_ws_delimiter by lia. fold_tests.
    cbn [skip_ws]. fold_tests.
    rewrite IH by lia.
    rewrite <- app_assoc. reflexivity.
Qed.

(** [dict(pairs)] on the items of a dictionary of distinct text keys is that
    dictionary. *)
Lemma dict_of_pairs_fold (d acc : dict) :
  Forall (fun kv => fst kv = VStr (text_key kv)) d ->
  fold_left (fun a kv => dict_store a (VStr (fst kv)) (snd kv))
            (map (fun kv => (text_key kv, snd kv)) d) acc
  = fold_left (fun a kv => dict_store a (fst kv) (snd kv)) d acc.
Proof.
  intros H. revert acc. induction H as [|kv d Hk _ IH]; intros acc; [reflexivity|].
  cbn [map fold_left fst snd]. rewrite <- Hk. apply IH.
Qed.

Lemma text_item_key (d : dict) :
  forallb text_item d = true -> Forall (fun kv => fst kv = VStr (text_key kv)) d.
Proof.
  intros H. rewrite forallb_forall in H. rewrite Forall_forall.
  intros [k v] Hin. specialize (H _ Hin). unfold text_item, text_key in *.
  cbn [fst] in *. destruct k; try discriminate H. reflexivity.
Qed.

Lemma dict_of_pairs_items (d : dict) :
  forallb text_item d = true -> distinct_keys (dict_keys d) = true ->
  dict_of_pairs (map (fun kv => (text_key kv, snd kv)) d) = d.
Proof.
  intros Ht Hd. unfold dict_of_pairs.
  rewrite dict_of_pairs_fold by (apply text_item_key, Ht).
  rewrite dict_store_all; [reflexivity| |exact Hd].
  intros k0 k [].
Qed.

Theorem scan_once_json_form (v : pyvalue) : reads_back v.
Proof.
  induction v as [| |b|z|lit|s|b|l IH|l IH|l IH|d IH] using pyvalue_induction;
    unfold reads_back; cbn [plain]; try discriminate;
    intros Hp fuel rest D F.
  - destruct fuel as [|fuel]; [cbn in F; lia|]. reflexivity.
  - destruct fuel as [|fuel]; [destruct b; cbn in F; lia|]. destruct b; reflexivity.
  - cbn [json_form] in F |- *.
    destruct (int_repr_head z) as (c & r & E & Hc).
    destruct fuel as [|fuel]; [rewrite E in F; cbn in F; lia|].
    pose proof (scan_atom_int z rest D) as A.
    rewrite E in A |- *. cbn [app] in A |- *. cbn [scan_once].
    decide_tests. exact A.
  - cbn [json_form] in F |- *. unfold encode_basestring_ascii in F |- *.
    lengths F. destruct fuel as [|fuel]; [lia|].
    rewrite <- !app_assoc. cbn [app scan_once]. fold_tests.
    rewrite scanstring_encoded; [reflexivity|exact Hp|].
    rewrite length_app. cbn [length]. lia.
  - cbn [json_form] in F |- *. eval_strs. lengths F.
    destruct fuel as [|fuel]; [lia|].
    rewrite <- !app_assoc. cbn [app scan_once]. fold_tests.
    destruct l as [|v l].
    + cbn [map join app]. rewrite skip_ws_delimiter by lia. fold_tests. reflexivity.
    + assert (Hs : value_start (join [44; 32]%N (map json_form (v :: l)))).
      { cbn [map]. rewrite join_cons. apply value_start_app, json_form_start.
        cbn [forallb] in Hp. apply andb_true_iff in Hp. apply Hp. }
      rewrite skip_ws_start by exact Hs.
      pose proof (JSONArray_loop_forms (v :: l) IH Hp ltac:(discriminate)
                    fuel rest []) as L.
      eval_strs. destruct Hs as (c & r & E & Hc & H93).
      rewrite E in L, F |- *. cbn [app length] in L, F |- *.
      decide_tests. apply L. lia.
  - apply andb_true_iff in Hp as [Hp Hd].
    cbn [json_form] in F |- *.
    change (fun kv : pyvalue * pyvalue =>
              json_form (fst kv) ++ str ": " ++ json_form (snd kv))
      with item_form in F |- *.
    eval_strs. lengths F.
    destruct fuel as [|fuel]; [lia|].
    rewrite <- !app_assoc. cbn [app scan_once]. fold_tests.
    destruct d as [|kv d].
    + cbn [map join app]. rewrite skip_ws_delimiter by lia. fold_tests. reflexivity.
    + change (forallb text_item (kv :: d) = true) in Hp.
      pose proof (JSONObject_loop_forms (kv :: d) IH Hp ltac:(discriminate)
                    fuel rest []) as L.
      eval_strs.
      assert (Hs : exists X, join [44; 32]%N (map item_form (kv :: d)) = 34%N :: X).
      { cbn [map]. rewrite join_cons. cbn [forallb] in Hp.
        apply andb_true_iff in Hp as [Hkv _]. unfold text_item in Hkv.
        apply andb_true_iff in Hkv as [Hk _]. unfold item_form at 1.
        destruct (fst kv); try discriminate Hk. cbn [json_form].
        unfold encode_basestring_ascii. cbn [app]. eexists. reflexivity. }
      destruct Hs as [X EX]. rewrite EX in L, F |- *.
      cbn [app tl length] in L, F |- *.
      rewrite skip_ws_delimiter by lia. fold_tests.
      rewrite L by lia. cbn [app].
      rewrite dict_of_pairs_items by assumption. reflexivity.
Qed.

(** [json.loads] reads back what [json.dumps] writes for a plain value. *)
Lemma json_loads_dumps (v : pyvalue) :
  plain json_text v = true ->
  exists text, json_dumps v = Ok text /\ json_loads text = Ok v.
Proof.
  intros Hp. exists (json_form v). split; [apply json_dumps_plain, Hp|].
  pose proof (json_form_start v Hp) as Hs.
  pose proof (scan_once_json_form v Hp (2 * length (json_form v) + 2)%nat []
                I ltac:(lia)) as S.
  rewrite app_nil_r in S.
  unfold json_loads.
  pose proof (skip_ws_start (json_form v) [] Hs) as W. rewrite app_nil_r in W.
  rewrite W, S. cbn [bind skip_ws].
  destruct Hs as (c & r & -> & Hc & _). cbn [starts_with_bom].
  decide_tests. reflexivity.
Qed.

(** ** Python string literals *)

(** What [repr] writes for the character [c] inside the quotes [q], case by
    case. *)
Inductive literal_of (q c : N) : pystr -> Prop :=
| lit_raw :
    c <> q -> c <> 92%N -> raw_char c = true -> literal_of q c [c]
| lit_simple e :
    simple_escape e = Some c -> literal_of q c [92%N; e]
| lit_hex e k :
    simple_escape e = None -> hex_escape e = Some k ->
    (c < 16 ^ N.of_nat k)%N -> (c < 1114112)%N ->
    literal_of q c ([92%N; e] ++ hexdigits k c).

Lemma unicode_repr_char_literal (isprintable : N -> bool) (q c : N) :
  (forall x, isprintable x = true -> is_surrogate x = false /\ (x < 1114112)%N) ->
  q = 34%N \/ q = 39%N -> (c < 1114112)%N ->
  literal_of q c (unicode_repr_char isprintable q c).
Proof.
  intros Hp Hq Hc. unfold unicode_repr_char. eval_strs.
  destruct ((c =? q)%N || (c =? 92)%N) eqn:E1.
  { apply lit_simple. apply orb_true_iff in E1 as [E | E]; apply N.eqb_eq in E.
    - subst c. destruct Hq as [-> | ->]; reflexivity.
    - subst c. reflexivity. }
  apply orb_false_iff in E1 as [Eq E92]. apply N.eqb_neq in Eq, E92.
  destruct (c =? 9)%N eqn:E2.
  { apply N.eqb_eq in E2. subst c. apply lit_simple. reflexivity. }
  destruct (c =? 10)%N eqn:E3.
  { apply N.eqb_eq in E3. subst c. apply lit_simple. reflexivity. }
  destruct (c =? 13)%N eqn:E4.
  { apply N.eqb_eq in E4. subst c. apply lit_simple. reflexivity. }
  destruct ((c <? 32)%N || (c =? 127)%N) eqn:E5.
  { apply (lit_hex q c 120%N 2%nat); [reflexivity|reflexivity| |exact Hc].
    change (16 ^ N.of_nat 2)%N with 256%N.
    apply orb_true_iff in E5 as [E | E]; [apply N.ltb_lt in E|apply N.eqb_eq in E]; lia. }
  apply orb_false_iff in E5 as [E32 E127]. apply N.ltb_ge in E32. apply N.eqb_neq in E127.
  destruct (c <? 127)%N eqn:E6.
  { apply N.ltb_lt in E6. apply lit_raw; [assumption|assumption|].
    unfold raw_char, is_surrogate. decide_tests. reflexivity. }
  apply N.ltb_ge in E6.
  destruct (isprintable c) eqn:E7; cbn [negb].
  - destruct (Hp c E7) as [Hs _].
    apply lit_raw; [assumption|assumption|].
    unfold raw_char. rewrite Hs. decide_tests. reflexivity.
  - destruct (c <=? 255)%N eqn:E8.
    { apply N.leb_le in E8.
      apply (lit_hex q c 120%N 2%nat); [reflexivity|reflexivity| |exact Hc].
      change (16 ^ N.of_nat 2)%N with 256%N. lia. }
    destruct (c <=? 65535)%N eqn:E9.
    { apply N.leb_le in E9.
      apply (lit_hex q c 117%N 4%nat); [reflexivity|reflexivity| |exact Hc].
      change (16 ^ N.of_nat 4)%N with 65536%N. lia. }
    apply (lit_hex q c 85%N 8%nat); [reflexivity|reflexivity| |exact Hc].
    change (16 ^ N.of_nat 8)%N with 4294967296%N. lia.
Qed.

Lemma literal_of_length (q c : N) (t : pystr) : literal_of q c t -> (1 <= length t)%nat.
Proof. intros []; cbn; lia. Qed.

(** One character of a literal read back. *)
Lemma string_body_step (q c : N) (t rest : pystr) (fuel : nat) :
  q = 34%N \/ q = 39%N -> literal_of q c t ->
  string_body (S fuel) q (t ++ rest)
  = '(body, r) <- string_body fuel q rest ;; Ok (c :: body, r).
Proof.
  intros Hq L. destruct L.
  - cbn [app string_body]. rewrite (eqb_false c q), (eqb_false c 92) by assumption.
    rewrite H1. reflexivity.
  - cbn [app string_body].
    replace (92 =? q)%N with false
      by (symmetry; apply N.eqb_neq; destruct Hq; subst q; discriminate).
    fold_tests. rewrite H. reflexivity.
  - cbn [app string_body].
    replace (92 =? q)%N with false
      by (symmetry; apply N.eqb_neq; destruct Hq; subst q; discriminate).
    fold_tests. rewrite H, H0. rewrite scan_hex_roundtrip by assumption.
    replace (c <? 1114112)%N with true by (symmetry; apply N.ltb_lt; assumption).
    reflexivity.
Qed.

(** The body of a literal that [repr] wrote reads back. *)
Lemma string_body_repr (isprintable : N -> bool) (q : N) (s rest : pystr) (fuel : nat) :
  (forall x, isprintable x = true -> is_surrogate x = false /\ (x < 1114112)%N) ->
  q = 34%N \/ q = 39%N -> valid_text s = true ->
  (length (flat_map (unicode_repr_char isprintable q) s) < fuel)%nat ->
  string_body fuel q (flat_map (unicode_repr_char isprintable q) s ++ q :: rest)
  = Ok (s, rest).
Proof.
  intros Hp Hq. revert fuel. induction s as [|c s IH]; intros fuel V F.
  - destruct fuel as [|fuel]; [cbn in F; lia|].
    cbn [flat_map app string_body]. rewrite N.eqb_refl. reflexivity.
  - cbn [valid_text forallb] in V. apply andb_true_iff in V as [Vc Vs].
    apply N.ltb_lt in Vc.
    pose proof (unicode_repr_char_literal isprintable q c Hp Hq Vc) as L.
    pose proof (literal_of_length _ _ _ L) as Len.
    cbn [flat_map] in F |- *. rewrite length_app in F.
    destruct fuel as [|fuel]; [lia|].
    rewrite <- app_assoc. rewrite (string_body_step q c) by assumption.
    rewrite IH by (assumption || lia). reflexivity.
Qed.

Lemma repr_quote_cases (s : pystr) : repr_quote s = 34%N \/ repr_quote s = 39%N.
Proof. unfold repr_quote. destruct (_ && _); [left|right]; reflexivity. Qed.

(** A string literal that [repr] wrote, parsed. *)
Lemma parse_expr_str (isprintable : N -> bool) (s rest : pystr) (fuel : nat) :
  (forall x, isprintable x = true -> is_surrogate x = false /\ (x < 1114112)%N) ->
  valid_text s = true ->
  parse_expr (S fuel) (unicode_repr isprintable s ++ rest)
  = Ok (EConstant (VStr s), rest).
Proof.
  intros Hp V. unfold unicode_repr. cbv zeta.
  pose proof (repr_quote_cases s) as Hq.
  set (q := repr_quote s) in *.
  rewrite <- !app_assoc. cbn [app parse_expr].
  assert (B : string_body
                (length (flat_map (unicode_repr_char isprintable q) s ++ q :: rest)) q
                (flat_map (unicode_repr_char isprintable q) s ++ q :: rest)
              = Ok (s, rest)).
  { apply string_body_repr; try assumption.
    rewrite length_app. cbn [length]. lia. }
  destruct Hq as [E | E]; rewrite E in B |- *; fold_tests; rewrite B; reflexivity.
Qed.

(** ** Reading back what [repr] writes *)

Lemma lstrip_blank_start (t rest : pystr) :
  value_start t -> lstrip_blank (t ++ rest) = t ++ rest.
Proof.
  intros (c & r & -> & Hc & _). cbn [app lstrip_blank]. decide_tests. reflexivity.
Qed.

Lemma lstrip_blank_delimiter (c : N) (r : pystr) :
  (33 <= c)%N -> lstrip_blank (c :: r) = c :: r.
Proof. intros H. cbn [lstrip_blank]. decide_tests. reflexivity. Qed.





Section ReadBack.
Variable isprintable : N -> bool.
Hypothesis printable :
  forall x, isprintable x = true -> is_surrogate x = false /\ (x < 1114112)%N.



Definition display_item (kv : pyvalue * pyvalue) : pystr :=
  repr isprintable (fst kv) ++ str ": " ++ repr isprintable (snd kv).






End ReadBack.

(** ** [literal_eval] *)

(** Induction on an expression, through the elements of displays. *)
Section ExprInduction.
Variable P : expr -> Prop.
Hypothesis HConstant : forall value, P (EConstant value).
Hypothesis HTuple : forall elts, Forall P elts -> P (ETuple elts).
Hypothesis HList : forall elts, Forall P elts -> P (EList elts).
Hypothesis HSet : forall elts, Forall P elts -> P (ESet elts).
Hypothesis HDict :
  forall items,
  Forall (fun kv => match fst kv with Some k => P k | None => True end
                    /\ P (snd kv)) items ->
  P (EDict items).
Hypothesis HCall : forall func args keywords, P (ECall func args keywords).
Hypothesis HName : forall id, P (EName id).
Hypothesis HUnaryOp : forall op operand, P (EUnaryOp op operand).
Hypothesis HBinOp : forall lhs op rhs, P (EBinOp lhs op rhs).
Hypothesis HOther : forall class_name children, P (EOther class_name children).

End ExprInduction.












(** ** Round trips *)


Section Convert.
Variable text_ok : pystr -> bool.



End Convert.



Lemma display_python_parses (s : pystr) : parses_display display_python s.
Proof. intros node H. exact H. Qed.

Lemma display_python_printable : printable_scalars display_python.
Proof. intros c H. discriminate H. Qed.


(** The text of a surrogate pair: a high surrogate followed by a low one is
    read back as one character, which is why [json_text] leaves such text
    out. *)
Example json_surrogate_pair_joined :
  let text := [34%N] ++ str "\ud83d\ude00" ++ [34%N] in
  JsonConverter.serialise (VStr [55357; 56832]%N) = Ok text
  /\ JsonConverter.deserialise text = Ok (VStr [128512%N]).
Proof. split; reflexivity. Qed.


(** ** More on the registry *)

Lemma map_get_In {V : Type} (m : list (pystr * V)) (k : pystr) (v : V) :
  map_get m k = Some v -> In (k, v) m.
Proof.
  induction m as [|[k' v'] m IH]; cbn [map_get]; [discriminate|].
  destruct (str_eqb k' k) eqn:E.
  - intros [= ->]. apply str_eqb_eq in E. subst k'. left. reflexivity.
  - intros H. right. apply IH, H.
Qed.

Lemma map_get_None {V : Type} (m : list (pystr * V)) (k : pystr) :
  map_get m k = None -> ~ In k (map fst m).
Proof.
  induction m as [|[k' v'] m IH]; cbn [map_get map fst In]; [tauto|].
  destruct (str_eqb k' k) eqn:E; [discriminate|].
  intros H [K|K].
  - subst k'. rewrite str_eqb_refl in E. discriminate E.
  - exact (IH H K).
Qed.

(** X1.  The extensions [get_supported_extensions] lists are the ones
    [get_converter] accepts: a file name resolves to a class exactly when
    its extension is in the list. *)
Theorem get_converter_supported (filename : pystr) :
  (exists c, get_converter filename = Ok c)
  <-> In (snd (splitext filename)) get_supported_extensions.
Proof.
  unfold get_converter, get_supported_extensions.
  destruct (map_get converter_type_map (snd (splitext filename))) as [c|] eqn:E.
  - split; [intros _|intros _; exists c; reflexivity].
    apply map_get_In in E. apply (in_map fst) in E. exact E.
  - split; [intros [c H]; discriminate H|].
    intros H. destruct (map_get_None _ _ E H).
Qed.

(** X2.  A file name that resolves ends with an extension of the registry,
    written as the registry writes it, and that extension decides the
    class. *)
Theorem get_converter_suffix (filename : pystr) (c : converter_class) :
  get_converter filename = Ok c ->
  exists root ext,
    filename = root ++ ext
    /\ In (ext, c) converter_type_map
    /\ splitext filename = (root, ext).
Proof.
  unfold get_converter.
  destruct (map_get converter_type_map (snd (splitext filename))) as [c'|] eqn:E;
    [|discriminate].
  intros [= ->].
  exists (fst (splitext filename)), (snd (splitext filename)).
  split; [symmetry; apply splitext_join|].
  split; [apply map_get_In, E|].
  destruct (splitext filename); reflexivity.
Qed.

Lemma get_converter_suffix_witness :
  get_converter (str "dir.d/data.csv") = Ok cls_CsvConverter
  /\ exists root ext,
       str "dir.d/data.csv" = root ++ ext
       /\ In (ext, cls_CsvConverter) converter_type_map
       /\ splitext (str "dir.d/data.csv") = (root, ext).
Proof.
  split; [reflexivity|].
  exact (get_converter_suffix (str "dir.d/data.csv") cls_CsvConverter eq_refl).
Defined.


Lemma get_converter_raise (filename : pystr) :
  map_get converter_type_map (snd (splitext filename)) = None ->
  get_converter filename = Raise (Exception (unrecognised filename)).
Proof. unfold get_converter. intros ->. reflexivity. Qed.

(** X3.  The lookup is sensitive to case: a name whose extension is one of
    the registry in capital letters does not resolve. *)
Theorem get_converter_case_sensitive (stem ext : pystr) :
  In ext get_supported_extensions ->
  get_converter (stem ++ map upper ext)
  = Raise (Exception (unrecognised (stem ++ map upper ext))).
Proof.
  intros Hext. apply get_converter_raise.
  destruct (map_get converter_type_map (snd (splitext (stem ++ map upper ext))))
    as [c|] eqn:E; [exfalso|reflexivity].
  apply map_get_In in E.
  pose proof (splitext_join (stem ++ map upper ext)) as J.
  apply (f_equal (@rev N)) in J. rewrite !rev_app_distr in J.
  set (f := stem ++ map upper ext) in *.
  assert (L : exists x r, rev (snd (splitext f)) = x :: r
                          /\ (x = 121 \/ x = 118 \/ x = 110)%N).
  { cbv [converter_type_map In] in E.
    destruct E as [E|[E|[E|[]]]]; injection E as E _; rewrite <- E;
      do 2 eexists; (split; [reflexivity|]); auto. }
  assert (U : exists x r, rev (map upper ext) = x :: r
                          /\ (x = 89 \/ x = 86 \/ x = 78)%N).
  { unfold get_supported_extensions, converter_type_map in Hext.
    cbn [map fst In] in Hext.
    destruct Hext as [<-|[<-|[<-|[]]]];
      do 2 eexists; (split; [reflexivity|]); auto. }
  destruct L as (x & r & L & Hx). destruct U as (y & r' & U & Hy).
  rewrite L, U in J. cbn [app] in J. injection J as J _.
  lia.
Qed.

Lemma get_converter_case_sensitive_witness :
  In (str ".csv") get_supported_extensions
  /\ get_converter (str "data.CSV")
     = Raise (Exception (unrecognised (str "data.CSV"))).
Proof.
  split; [right; left; reflexivity|].
  exact (get_converter_case_sensitive (str "data") (str ".csv")
           (or_intror (or_introl eq_refl))).
Defined.

Lemma basename_app_lacks (a b : pystr) :
  lacks sep b -> basename (a ++ b) = basename a ++ b.
Proof.
  intros Hb. induction a as [|c a IH]; cbn [app].
  - cbn [basename app]. apply basename_lacks, Hb.
  - cbn [basename existsb]. rewrite existsb_app.
    unfold lacks in Hb. rewrite Hb, orb_false_r.
    destruct (N.eqb sep c || existsb (N.eqb sep) a); [exact IH|reflexivity].
Qed.

Lemma lstrip_dots_app (a b : pystr) :
  lstrip_dots a <> [] -> lstrip_dots (a ++ b) = lstrip_dots a ++ b.
Proof.
  induction a as [|c a IH]; cbn [lstrip_dots app]; [congruence|].
  destruct (N.eqb c extsep); [exact IH|reflexivity].
Qed.

Lemma lstrip_dots_suffix (a : pystr) : exists dots, a = dots ++ lstrip_dots a.
Proof.
  induction a as [|c a [dots IH]]; [exists []; reflexivity|].
  cbn [lstrip_dots]. destruct (N.eqb c extsep).
  - exists (c :: dots). cbn [app]. f_equal. exact IH.
  - exists []. reflexivity.
Qed.

(** X4.  A name made of a stem and an extension of the registry resolves to
    the class of that extension, provided the final path component of the
    stem holds a character that is not a dot; the stem is then the root
    that [splitext] returns. *)
Theorem get_converter_named (stem ext : pystr) (c : converter_class) :
  In (ext, c) converter_type_map ->
  lstrip_dots (basename stem) <> [] ->
  splitext (stem ++ ext) = (stem, ext)
  /\ get_converter (stem ++ ext) = Ok c.
Proof.
  intros Hin Hstem.
  assert (Hext : exists v, ext = extsep :: v /\ lacks extsep v /\ lacks sep ext
                           /\ map_get converter_type_map ext = Some c).
  { cbv [converter_type_map In] in Hin.
    destruct Hin as [E|[E|[E|[]]]]; injection E as <- <-;
      eexists; (split; [reflexivity|]); repeat split; reflexivity. }
  destruct Hext as (v & -> & Hv & Hsep & Hget).
  assert (S : snd (splitext (stem ++ extsep :: v)) = extsep :: v).
  { rewrite splitext_ext_spec, (basename_app_lacks _ _ Hsep),
      (lstrip_dots_app _ _ Hstem).
    apply spec_extension_app, Hv. }
  split.
  - pose proof (splitext_join (stem ++ extsep :: v)) as J.
    rewrite S in J. apply app_inv_tail in J.
    destruct (splitext (stem ++ extsep :: v)) as [r e].
    cbn [fst snd] in *. subst. reflexivity.
  - unfold get_converter. rewrite S, Hget. reflexivity.
Qed.

Lemma get_converter_named_witness :
  In (str ".json", cls_JsonConverter) converter_type_map
  /\ lstrip_dots (basename (str "out/.hidden")) <> []
  /\ splitext (str "out/.hidden" ++ str ".json") = (str "out/.hidden", str ".json")
  /\ get_converter (str "out/.hidden" ++ str ".json") = Ok cls_JsonConverter.
Proof.
  assert (H1 : In (str ".json", cls_JsonConverter) converter_type_map)
    by (right; right; left; reflexivity).
  assert (H2 : lstrip_dots (basename (str "out/.hidden")) <> [])
    by (vm_compute; discriminate).
  split; [exact H1|]. split; [exact H2|].
  exact (get_converter_named (str "out/.hidden") (str ".json") cls_JsonConverter H1 H2).
Defined.

(** ** The pipeline and the script *)



(** X6.  The script reports a name it cannot resolve on one line and writes
    nothing.  The input name is looked at first, and the output name before
    the input file is opened: a bad output name is reported whether or not
    the input file exists. *)
Theorem script_unrecognised (library_text : exn -> pystr) (py : python)
    (fs : filesystem) (input_file output_file : pystr) :
  (map_get converter_type_map (snd (splitext input_file)) = None ->
   script library_text py fs input_file output_file
   = (str "Failed to convert " ++ input_file ++ str " to " ++ output_file
        ++ str ": Unrecognised file type: " ++ input_file ++ [10%N], fs))
  /\ (map_get converter_type_map (snd (splitext input_file)) <> None ->
      map_get converter_type_map (snd (splitext output_file)) = None ->
      script library_text py fs input_file output_file
      = (str "Failed to convert " ++ input_file ++ str " to " ++ output_file
           ++ str ": Unrecognised file type: " ++ output_file ++ [10%N], fs)).
Proof.
  unfold script, main, do_conversion, get_converter.
  split.
  - intros ->. cbn [exception_str]. unfold unrecognised.
    rewrite <- !app_assoc. reflexivity.
  - intros Hin ->.
    destruct (map_get converter_type_map (snd (splitext input_file)));
      [|congruence].
    cbn [exception_str]. unfold unrecognised.
    rewrite <- !app_assoc. reflexivity.
Qed.

Lemma script_unrecognised_witness :
  map_get converter_type_map (snd (splitext (str "data.xyz"))) = None
  /\ script (fun _ => []) display_python (fun _ => None)
            (str "data.xyz") (str "out.json")
     = (str "Failed to convert data.xyz to out.json: Unrecognised file type: data.xyz"
          ++ [10%N],
        fun _ => None).
Proof.
  split; [reflexivity|].
  exact (proj1 (script_unrecognised (fun _ => []) display_python (fun _ => None)
                  (str "data.xyz") (str "out.json")) eq_refl).
Defined.

(** * The values of the JSON handler *)

(** ** What [json.dumps] accepts *)

Lemma mapM_cases {A B : Type} (f : A -> result B) (p : A -> bool) (e : exn)
    (l : list A) :
  Forall (fun x => if p x then exists b, f x = Ok b else f x = Raise e) l ->
  if forallb p l then exists bs, mapM f l = Ok bs else mapM f l = Raise e.
Proof.
  induction 1 as [|x l Hx _ IH]; cbn [forallb mapM].
  - exists []. reflexivity.
  - destruct (p x).
    + destruct Hx as [b ->]. cbn [bind andb].
      destruct (forallb p l).
      * destruct IH as [bs ->]. eexists. reflexivity.
      * rewrite IH. reflexivity.
    + rewrite Hx. reflexivity.
Qed.

Lemma json_dumps_jsonable (v : pyvalue) :
  if jsonable v then exists text, json_dumps v = Ok text
  else json_dumps v = Raise TypeError.
Proof.
  induction v as [| |[|]|z|lit|s|b|l IH|l IH|l IH|d IH] using pyvalue_induction;
    cbn [jsonable json_dumps]; try (eexists; reflexivity); try reflexivity.
  - pose proof (mapM_cases json_dumps jsonable TypeError l IH) as M.
    destruct (forallb jsonable l).
    + destruct M as [bs ->]. eexists. reflexivity.
    + rewrite M. reflexivity.
  - pose proof (mapM_cases json_dumps jsonable TypeError l IH) as M.
    destruct (forallb jsonable l).
    + destruct M as [bs ->]. eexists. reflexivity.
    + rewrite M. reflexivity.
  - match goal with
    | |- context [mapM ?f d] =>
        pose proof (mapM_cases f
                      (fun kv => json_key_ok (fst kv) && jsonable (snd kv))
                      TypeError d) as M
    end.
    match type of M with
    | ?P -> _ => assert (HP : P); [|specialize (M HP); clear HP]
    end.
    { rewrite Forall_forall in IH |- *. intros [k x] Hkx.
      destruct (IH _ Hkx) as [_ Hx]. cbn [fst snd] in Hx |- *.
      destruct k; cbn [json_key json_key_ok bind andb]; try reflexivity;
        try (destruct (jsonable x);
               [destruct Hx as [t ->]; eexists; reflexivity
               |rewrite Hx; reflexivity]).
      destruct b; cbn [bind]; (destruct (jsonable x);
               [destruct Hx as [t ->]; eexists; reflexivity
               |rewrite Hx; reflexivity]). }
    destruct (forallb (fun kv => json_key_ok (fst kv) && jsonable (snd kv)) d).
    + destruct M as [bs ->]. eexists. reflexivity.
    + rewrite M. reflexivity.
Qed.

(** X7.  [JsonConverter.serialise] encodes the values built from [None],
    booleans, numbers, text, lists, tuples and dictionaries whose keys are
    text, numbers, booleans or [None]; on every other value (bytes, a set or
    [Ellipsis] anywhere in it, a key that is a tuple or bytes) it fails with
    a [TypeError]. *)
Theorem json_serialise_accepts (v : pyvalue) :
  if jsonable v then exists text, JsonConverter.serialise v = Ok text
  else JsonConverter.serialise v = Raise TypeError.
Proof. exact (json_dumps_jsonable v). Qed.

(** ** The text [json.dumps] writes *)

Lemma forallb_map {A B : Type} (p : B -> bool) (f : A -> B) (l : list A) :
  forallb p (map f l) = forallb (fun a => p (f a)) l.
Proof. induction l as [|a l IH]; [reflexivity|]. cbn [map forallb]. rewrite IH. reflexivity. Qed.

Lemma forallb_app_true {A : Type} (p : A -> bool) (a b : list A) :
  forallb p a = true -> forallb p b = true -> forallb p (a ++ b) = true.
Proof. intros Ha Hb. rewrite forallb_app, Ha, Hb. reflexivity. Qed.

Lemma forallb_cons_true {A : Type} (p : A -> bool) (x : A) (l : list A) :
  p x = true -> forallb p l = true -> forallb p (x :: l) = true.
Proof. intros Hx Hl. cbn [forallb]. rewrite Hx, Hl. reflexivity. Qed.

Lemma uint_chars_ascii (d : Decimal.uint) : forallb printable_ascii (uint_chars d) = true.
Proof. induction d; cbn [uint_chars forallb]; try rewrite IHd; reflexivity. Qed.

Lemma int_repr_ascii (z : Z) : forallb printable_ascii (int_repr z) = true.
Proof.
  destruct z; cbn [int_repr forallb]; try rewrite uint_chars_ascii; reflexivity.
Qed.

Lemma hex_char_ascii (d : N) : (d < 16)%N -> printable_ascii (hex_char d) = true.
Proof.
  intros H. unfold hex_char, printable_ascii.
  destruct (d <? 10)%N eqn:E; tests_to_props;
    apply andb_true_iff; split; apply N.leb_le; lia.
Qed.

Lemma hexdigits_ascii (k : nat) (n : N) : forallb printable_ascii (hexdigits k n) = true.
Proof.
  revert n. induction k as [|k IH]; intros n; cbn [hexdigits]; [reflexivity|].
  apply forallb_app_true; [apply IH|].
  cbn [forallb]. rewrite hex_char_ascii; [reflexivity|].
  apply N.mod_lt. discriminate.
Qed.

Lemma encode_char_ascii (c : N) : forallb printable_ascii (encode_char c) = true.
Proof.
  unfold encode_char.
  repeat match goal with
    | |- context [if ?b then _ else _] => destruct b eqn:?
    end;
    try reflexivity;
    try (apply forallb_app_true; [reflexivity|]);
    try apply hexdigits_ascii.
  - cbn [forallb]. unfold printable_ascii.
    match goal with H : (_ && _)%bool = true |- _ => rewrite H end. reflexivity.
  - apply forallb_app_true; [apply hexdigits_ascii|].
    apply forallb_app_true; [reflexivity|apply hexdigits_ascii].
Qed.

Lemma flat_map_ascii (f : N -> pystr) (s : pystr) :
  (forall c, forallb printable_ascii (f c) = true) ->
  forallb printable_ascii (flat_map f s) = true.
Proof.
  intros Hf. induction s as [|c s IH]; cbn [flat_map]; [reflexivity|].
  apply forallb_app_true; [apply Hf|exact IH].
Qed.

Lemma encode_basestring_ascii_ascii (s : pystr) :
  forallb printable_ascii (encode_basestring_ascii s) = true.
Proof.
  unfold encode_basestring_ascii.
  apply forallb_app_true; [reflexivity|].
  apply forallb_app_true; [|reflexivity].
  apply flat_map_ascii, encode_char_ascii.
Qed.

Lemma join_ascii (sep : pystr) (l : list pystr) :
  forallb printable_ascii sep = true ->
  Forall (fun t => forallb printable_ascii t = true) l ->
  forallb printable_ascii (join sep l) = true.
Proof.
  intros Hs. induction 1 as [|t l Ht Hl IH]; [reflexivity|].
  rewrite join_cons. apply forallb_app_true; [exact Ht|].
  destruct l; [reflexivity|].
  apply forallb_app_true; [exact Hs|exact IH].
Qed.

Lemma mapM_Forall {A B : Type} (f : A -> result B) (P : A -> Prop) (Q : B -> Prop)
    (l : list A) (bs : list B) :
  Forall (fun a => P a -> forall b, f a = Ok b -> Q b) l ->
  Forall P l -> mapM f l = Ok bs -> Forall Q bs.
Proof.
  intros Hf. revert bs. induction Hf as [|a l Ha _ IH]; intros bs Hp; cbn [mapM].
  - intros [= <-]. constructor.
  - inversion Hp as [|? ? Pa Pl]; subst.
    destruct (f a) as [b|] eqn:E; [|discriminate]. cbn [bind].
    destruct (mapM f l) as [bs'|]; [|discriminate]. cbn [bind].
    intros [= <-]. constructor; [exact (Ha Pa b eq_refl)|exact (IH bs' Pl eq_refl)].
Qed.

Lemma json_key_ascii (k : pyvalue) (t : pystr) :
  json_key k = Ok t -> forallb printable_ascii (encode_basestring_ascii t) = true.
Proof. intros _. apply encode_basestring_ascii_ascii. Qed.

Lemma json_dumps_ascii (v : pyvalue) (text : pystr) :
  float_free v = true -> json_dumps v = Ok text ->
  forallb printable_ascii text = true.
Proof.
  revert text.
  induction v as [| |[|]|z|lit|s|b|l IH|l IH|l IH|d IH] using pyvalue_induction;
    cbn [float_free json_dumps]; intros text Hf; try discriminate;
    try (intros [= <-]; reflexivity).
  - intros [= <-]. apply int_repr_ascii.
  - intros [= <-]. apply encode_basestring_ascii_ascii.
  - destruct (mapM json_dumps l) as [items|] eqn:M; [|discriminate].
    cbn [bind]. intros [= <-].
    apply forallb_cons_true; [reflexivity|].
    apply forallb_app_true; [|reflexivity].
    apply join_ascii; [reflexivity|].
    apply (mapM_Forall json_dumps (fun x => float_free x = true) _ l items);
      [|apply Forall_forall; rewrite forallb_forall in Hf; exact Hf|exact M].
    rewrite Forall_forall in IH |- *. intros x Hx Fx t Ht. exact (IH x Hx t Fx Ht).
  - destruct (mapM json_dumps l) as [items|] eqn:M; [|discriminate].
    cbn [bind]. intros [= <-].
    apply forallb_cons_true; [reflexivity|].
    apply forallb_app_true; [|reflexivity].
    apply join_ascii; [reflexivity|].
    apply (mapM_Forall json_dumps (fun x => float_free x = true) _ l items);
      [|apply Forall_forall; rewrite forallb_forall in Hf; exact Hf|exact M].
    rewrite Forall_forall in IH |- *. intros x Hx Fx t Ht. exact (IH x Hx t Fx Ht).
  - match goal with
    | |- context [mapM ?f d] => set (item := f)
    end.
    destruct (mapM item d) as [items|] eqn:M; [|discriminate].
    cbn [bind]. intros [= <-].
    apply forallb_cons_true; [reflexivity|].
    apply forallb_app_true; [|reflexivity].
    apply join_ascii; [reflexivity|].
    apply (mapM_Forall item (fun kv => float_free (snd kv) = true) _ d items);
      [|apply Forall_forall; rewrite forallb_forall in Hf; exact Hf|exact M].
    rewrite Forall_forall in IH |- *. intros [k x] Hkx Fx t.
    destruct (IH _ Hkx) as [_ Hx]. cbn [fst snd] in *.
    unfold item. cbn [fst snd].
    destruct (json_key k) as [kt|]; [|discriminate]. cbn [bind].
    destruct (json_dumps x) as [xt|]; [|discriminate]. cbn [bind].
    intros [= <-].
    apply forallb_app_true; [apply encode_basestring_ascii_ascii|].
    do 2 (apply forallb_cons_true; [reflexivity|]).
    exact (Hx xt Fx eq_refl).
Qed.

(** X8.  The text [JsonConverter.serialise] writes is ASCII and holds no
    control character, hence no line break: every character of it lies
    between the space and the tilde, whatever the characters of the text in
    the value.  (The text of a float is outside the model.) *)
Theorem json_serialise_ascii (v : pyvalue) (text : pystr) :
  float_free v = true ->
  JsonConverter.serialise v = Ok text ->
  forallb printable_ascii text = true.
Proof. exact (json_dumps_ascii v text). Qed.

Lemma json_serialise_ascii_witness :
  float_free (VList [VStr [233; 10; 128512]%N]) = true
  /\ JsonConverter.serialise (VList [VStr [233; 10; 128512]%N])
     = Ok (str "[" ++ [34%N] ++ str "\u00e9\n\ud83d\ude00" ++ [34%N] ++ str "]")
  /\ forallb printable_ascii
       (str "[" ++ [34%N] ++ str "\u00e9\n\ud83d\ude00" ++ [34%N] ++ str "]") = true.
Proof.
  split; [reflexivity|]. split; [reflexivity|].
  exact (json_serialise_ascii (VList [VStr [233; 10; 128512]%N]) _ eq_refl eq_refl).
Defined.

(** ** What [json.loads] returns *)

(** A step of the scanner fails with [JSONDecodeError] only, and the value
    it returns is one of [json_value]. *)
Definition scan_sound (r : result (pyvalue * pystr)) : Prop :=
  match r with
  | Ok (v, _) => json_value v = true
  | Raise e => e = JSONDecodeError
  end.

Lemma scanstring_error (fuel : nat) (s chunks : pystr) (e : exn) :
  scanstring fuel s chunks = Raise e -> e = JSONDecodeError.
Proof.
  revert s chunks. induction fuel as [|fuel IH]; intros s chunks; cbn [scanstring].
  - intros [= <-]. reflexivity.
  - repeat match goal with
      | |- Raise _ = Raise _ -> _ => intros [= <-]; reflexivity
      | |- Ok _ = Raise _ -> _ => discriminate
      | |- scanstring fuel _ _ = Raise _ -> _ => apply IH
      | |- context [match ?x with _ => _ end] => destruct x
      end.
Qed.

Lemma scan_atom_sound (s : pystr) : scan_sound (scan_atom s).
Proof.
  unfold scan_atom.
  repeat match goal with
    | |- scan_sound (match ?x with _ => _ end) => destruct x
    end; try reflexivity.
  unfold number_value. cbn [scan_sound].
  destruct (nm_frac n), (nm_exp n); reflexivity.
Qed.

Definition json_items (d : dict) : bool :=
  forallb (fun kv => match fst kv with VStr _ => true | _ => false end
                     && json_value (snd kv)) d.

Lemma dict_store_keys (d : dict) (k v : pyvalue) :
  dict_keys (dict_store d k v) = dict_keys d
  \/ (dict_keys (dict_store d k v) = dict_keys d ++ [k]
      /\ existsb (fun k' => key_eqb k' k) (dict_keys d) = false).
Proof.
  induction d as [|[k' v'] d IH]; cbn [dict_store dict_keys map fst app existsb].
  - right. split; reflexivity.
  - destruct (key_eqb k' k) eqn:E; cbn [map fst].
    + left. reflexivity.
    + destruct IH as [IH|[IH N]]; unfold dict_keys in IH; rewrite IH.
      * left. reflexivity.
      * right. split; [reflexivity|exact N].
Qed.

Lemma dict_store_json (d : dict) (k : pystr) (v : pyvalue) :
  json_items d = true -> distinct_keys (dict_keys d) = true ->
  json_value v = true ->
  json_items (dict_store d (VStr k) v) = true
  /\ distinct_keys (dict_keys (dict_store d (VStr k) v)) = true.
Proof.
  intros Hi Hd Hv.
  induction d as [|[k' v'] d IH]; cbn [dict_store].
  - cbn [json_items forallb fst snd dict_keys map distinct_keys existsb negb andb].
    rewrite Hv. split; reflexivity.
  - cbn [json_items forallb fst snd] in Hi.
    apply andb_true_iff in Hi as [Hkv Hi].
    apply andb_true_iff in Hkv as [Hk' Hv'].
    cbn [dict_keys map fst distinct_keys] in Hd.
    apply andb_true_iff in Hd as [Hn Hd].
    destruct (key_eqb k' (VStr k)) eqn:E.
    + cbn [json_items forallb fst snd dict_keys map distinct_keys].
      rewrite Hk', Hv. cbn [andb]. split; [exact Hi|].
      unfold dict_keys in Hn, Hd. rewrite Hn, Hd. reflexivity.
    + destruct (IH Hi Hd) as [IH1 IH2].
      cbn [json_items forallb fst snd dict_keys map distinct_keys].
      rewrite Hk', Hv'. cbn [andb]. split; [exact IH1|].
      fold (dict_keys (dict_store d (VStr k) v)).
      rewrite IH2, andb_true_r.
      destruct (dict_store_keys d (VStr k) v) as [K|[K _]]; rewrite K.
      * exact Hn.
      * rewrite existsb_app. cbn [existsb]. rewrite E.
        apply negb_true_iff in Hn. unfold dict_keys in Hn |- *. rewrite Hn.
        reflexivity.
Qed.

Lemma dict_of_pairs_json (pairs : list (pystr * pyvalue)) :
  forallb (fun kv => json_value (snd kv)) pairs = true ->
  json_value (VDict (dict_of_pairs pairs)) = true.
Proof.
  unfold dict_of_pairs.
  assert (G : forall acc,
             json_items acc = true -> distinct_keys (dict_keys acc) = true ->
             forallb (fun kv => json_value (snd kv)) pairs = true ->
             json_value
               (VDict (fold_left (fun d kv => dict_store d (VStr (fst kv)) (snd kv))
                         pairs acc)) = true).
  { induction pairs as [|[k v] pairs IH]; intros acc Hi Hd Hp; cbn [fold_left].
    - cbn [json_value]. fold (json_items acc). rewrite Hi, Hd. reflexivity.
    - cbn [forallb fst snd] in Hp |- *. apply andb_true_iff in Hp as [Hv Hp].
      destruct (dict_store_json acc k v Hi Hd Hv) as [H1 H2].
      apply IH; assumption. }
  apply G; reflexivity.
Qed.

Lemma scan_sound_bind (r : result (pyvalue * pystr))
    (k : pyvalue * pystr -> result (pyvalue * pystr)) :
  scan_sound r ->
  (forall v rest, r = Ok (v, rest) -> json_value v = true -> scan_sound (k (v, rest))) ->
  scan_sound (bind r k).
Proof.
  destruct r as [[v rest]|e]; cbn [scan_sound bind].
  - intros Hv Hk. apply Hk; [reflexivity|exact Hv].
  - intros -> _. reflexivity.
Qed.

Lemma scanstring_bind (fuel : nat) (s chunks : pystr)
    (k : pystr * pystr -> result (pyvalue * pystr)) :
  (forall text rest, scan_sound (k (text, rest))) ->
  scan_sound (bind (scanstring fuel s chunks) k).
Proof.
  intros Hk. destruct (scanstring fuel s chunks) as [[text rest]|e] eqn:E;
    cbn [bind].
  - apply Hk.
  - cbn [scan_sound]. exact (scanstring_error _ _ _ _ E).
Qed.

Lemma scan_once_sound (fuel : nat) :
  (forall s, scan_sound (scan_once fuel s))
  /\ (forall s pairs,
        forallb (fun kv => json_value (snd kv)) pairs = true ->
        scan_sound (JSONObject_loop fuel s pairs))
  /\ (forall s values,
        forallb json_value values = true ->
        scan_sound (JSONArray_loop fuel s values)).
Proof.
  induction fuel as [|fuel (IHs & IHo & IHa)].
  - repeat split; intros; reflexivity.
  - split; [|split].
    + intros s. cbn [scan_once].
      destruct s as [|nextchar r]; [reflexivity|].
      destruct (nextchar =? 34)%N.
      { apply scanstring_bind. intros text rest. reflexivity. }
      destruct (nextchar =? 123)%N.
      { destruct (skip_ws r) as [|c r1]; [reflexivity|].
        destruct (c =? 125)%N; [reflexivity|].
        destruct (c =? 34)%N; [|reflexivity].
        apply IHo. reflexivity. }
      destruct (nextchar =? 91)%N.
      { destruct (skip_ws r) as [|c r1]; [reflexivity|].
        destruct (c =? 93)%N; [reflexivity|].
        apply IHa. reflexivity. }
      apply scan_atom_sound.
    + intros s pairs Hp. cbn [JSONObject_loop].
      apply scanstring_bind. intros key r1.
      destruct (skip_ws r1) as [|c r2]; [reflexivity|].
      destruct (c =? 58)%N; [|reflexivity].
      apply scan_sound_bind; [apply IHs|].
      intros value r3 _ Hv.
      assert (Hp' : forallb (fun kv => json_value (snd kv)) (pairs ++ [(key, value)])
                    = true).
      { rewrite forallb_app, Hp. cbn [forallb snd]. rewrite Hv. reflexivity. }
      destruct (skip_ws r3) as [|nextchar r4]; [reflexivity|].
      destruct (nextchar =? 125)%N.
      { cbn [scan_sound]. apply dict_of_pairs_json, Hp'. }
      destruct (nextchar =? 44)%N; [|reflexivity].
      destruct (skip_ws r4) as [|q r5]; [reflexivity|].
      destruct (q =? 34)%N; [|reflexivity].
      apply IHo, Hp'.
    + intros s values Hp. cbn [JSONArray_loop].
      apply scan_sound_bind; [apply IHs|].
      intros value r1 _ Hv.
      assert (Hp' : forallb json_value (values ++ [value]) = true).
      { rewrite forallb_app, Hp. cbn [forallb]. rewrite Hv. reflexivity. }
      destruct (skip_ws r1) as [|nextchar r2]; [reflexivity|].
      destruct (nextchar =? 93)%N; [exact Hp'|].
      destruct (nextchar =? 44)%N; [|reflexivity].
      apply IHa, Hp'.
Qed.

Lemma json_loads_sound (s : pystr) :
  match json_loads s with
  | Ok v => json_value v = true
  | Raise e => e = JSONDecodeError
  end.
Proof.
  unfold json_loads.
  destruct (starts_with_bom s); [reflexivity|].
  pose proof (proj1 (scan_once_sound (2 * length s + 2)) (skip_ws s)) as H.
  destruct (scan_once (2 * length s + 2) (skip_ws s)) as [[obj rest]|e];
    cbn [scan_sound bind] in H |- *.
  - destruct (skip_ws rest); [exact H|reflexivity].
  - exact H.
Qed.

Lemma json_value_jsonable (v : pyvalue) : json_value v = true -> jsonable v = true.
Proof.
  induction v as [| |b|z|lit|s|b|l IH|l IH|l IH|d IH] using pyvalue_induction;
    cbn [json_value jsonable]; try discriminate; try reflexivity.
  - rewrite !forallb_forall. rewrite Forall_forall in IH.
    intros H x Hx. apply IH; [exact Hx|apply H, Hx].
  - intros H. apply andb_true_iff in H as [H _].
    rewrite forallb_forall in H |- *. rewrite Forall_forall in IH.
    intros [k x] Hkx. specialize (H _ Hkx). destruct (IH _ Hkx) as [_ Hx].
    cbn [fst snd] in *. apply andb_true_iff in H as [Hk Hv].
    rewrite (Hx Hv), andb_true_r. destruct k; try discriminate Hk. reflexivity.
Qed.

(** X9.  [JsonConverter.deserialise] fails in one way only: whatever the
    text, the exception is a [JSONDecodeError]. *)
Theorem json_deserialise_error (s : pystr) (e : exn) :
  JsonConverter.deserialise s = Raise e -> e = JSONDecodeError.
Proof.
  unfold JsonConverter.deserialise. intros H.
  pose proof (json_loads_sound s) as S. rewrite H in S. exact S.
Qed.

Lemma json_deserialise_error_witness :
  JsonConverter.deserialise (str "[1,]") = Raise JSONDecodeError
  /\ JSONDecodeError = JSONDecodeError.
Proof.
  split; [reflexivity|].
  exact (json_deserialise_error (str "[1,]") JSONDecodeError eq_refl).
Defined.

(** X10.  Whatever [JsonConverter.deserialise] returns is built from [None],
    booleans, numbers, text, lists and dictionaries with text keys, no two
    keys of a dictionary equal, and [JsonConverter.serialise] accepts it:
    a conversion from JSON to JSON cannot fail in the encoding. *)
Theorem json_deserialise_value (s : pystr) (v : pyvalue) :
  JsonConverter.deserialise s = Ok v ->
  json_value v = true /\ exists text, JsonConverter.serialise v = Ok text.
Proof.
  unfold JsonConverter.deserialise, JsonConverter.serialise. intros H.
  pose proof (json_loads_sound s) as S. rewrite H in S.
  split; [exact S|].
  pose proof (json_dumps_jsonable v) as J.
  rewrite (json_value_jsonable v S) in J. exact J.
Qed.

Lemma json_deserialise_value_witness :
  let s := str "{" ++ [34%N] ++ str "a" ++ [34%N] ++ str ": [1, null], "
           ++ [34%N] ++ str "a" ++ [34%N] ++ str ": 2}" in
  JsonConverter.deserialise s = Ok (VDict [(VStr (str "a"), VInt 2)])
  /\ json_value (VDict [(VStr (str "a"), VInt 2)]) = true
  /\ exists text, JsonConverter.serialise (VDict [(VStr (str "a"), VInt 2)]) = Ok text.
Proof.
  cbv zeta. split; [reflexivity|].
  exact (json_deserialise_value
           (str "{" ++ [34%N] ++ str "a" ++ [34%N] ++ str ": [1, null], "
            ++ [34%N] ++ str "a" ++ [34%N] ++ str ": 2}")
           (VDict [(VStr (str "a"), VInt 2)]) eq_refl).
Defined.

(** ** Tuples *)

Lemma mapM_ext_in {A B : Type} (f g : A -> result B) (l : list A) :
  (forall a, In a l -> f a = g a) -> mapM f l = mapM g l.
Proof.
  induction l as [|a l IH]; intros H; [reflexivity|]. cbn [mapM].
  rewrite (H a (or_introl eq_refl)), IH; [reflexivity|].
  intros x Hx. apply H. right. exact Hx.
Qed.

Lemma mapM_map_arg {A B C : Type} (f : B -> result C) (g : A -> B) (l : list A) :
  mapM f (map g l) = mapM (fun a => f (g a)) l.
Proof.
  induction l as [|a l IH]; [reflexivity|]. cbn [map mapM]. rewrite IH. reflexivity.
Qed.

Lemma json_dumps_listify (v : pyvalue) : json_dumps (listify v) = json_dumps v.
Proof.
  induction v as [| |b|z|lit|s|b|l IH|l IH|l IH|d IH] using pyvalue_induction;
    try reflexivity; cbn [listify json_dumps].
  - rewrite mapM_map_arg, (mapM_ext_in _ json_dumps); [reflexivity|].
    rewrite Forall_forall in IH. exact IH.
  - rewrite mapM_map_arg, (mapM_ext_in _ json_dumps); [reflexivity|].
    rewrite Forall_forall in IH. exact IH.
  - rewrite mapM_map_arg.
    match goal with
    | |- bind (mapM ?f d) _ = bind (mapM ?g d) _ => rewrite (mapM_ext_in f g)
    end; [reflexivity|].
    rewrite Forall_forall in IH. intros [k x] Hkx. cbn [fst snd].
    destruct (IH _ Hkx) as [_ Hx]. cbn [snd] in Hx. rewrite Hx. reflexivity.
Qed.

Lemma plain_listify (text_ok : pystr -> bool) (v : pyvalue) :
  plain_or_tuple text_ok v = true -> plain text_ok (listify v) = true.
Proof.
  induction v as [| |b|z|lit|s|b|l IH|l IH|l IH|d IH] using pyvalue_induction;
    cbn [plain_or_tuple listify plain]; try discriminate; try (intros H; exact H).
  - rewrite forallb_map, !forallb_forall. rewrite Forall_forall in IH.
    intros H x Hx. apply IH; [exact Hx|apply H, Hx].
  - rewrite forallb_map, !forallb_forall. rewrite Forall_forall in IH.
    intros H x Hx. apply IH; [exact Hx|apply H, Hx].
  - intros H. apply andb_true_iff in H as [H Hd].
    apply andb_true_iff. split.
    + rewrite forallb_map. rewrite forallb_forall in H |- *.
      rewrite Forall_forall in IH. intros [k x] Hkx. specialize (H _ Hkx).
      destruct (IH _ Hkx) as [_ Hx]. cbn [fst snd] in *.
      apply andb_true_iff in H as [Hk Hv]. rewrite Hk, (Hx Hv). reflexivity.
    + unfold dict_keys in Hd |- *. rewrite map_map. cbn [fst]. exact Hd.
Qed.

(** X11.  JSON has no tuples.  [JsonConverter.serialise] writes a tuple as
    it writes a list, so what [deserialise] reads back is the value with a
    list in the place of every tuple. *)
Theorem json_tuple_as_list (v : pyvalue) :
  plain_or_tuple json_text v = true ->
  exists text,
    JsonConverter.serialise v = Ok text
    /\ JsonConverter.deserialise text = Ok (listify v).
Proof.
  intros Hp. unfold JsonConverter.serialise, JsonConverter.deserialise.
  destruct (json_loads_dumps (listify v) (plain_listify json_text v Hp))
    as (text & D & L).
  exists text. rewrite <- json_dumps_listify. split; assumption.
Qed.

Lemma json_tuple_as_list_witness :
  plain_or_tuple json_text (VTuple [VInt 1; VTuple []]) = true
  /\ exists text,
       JsonConverter.serialise (VTuple [VInt 1; VTuple []]) = Ok text
       /\ JsonConverter.deserialise text = Ok (listify (VTuple [VInt 1; VTuple []])).
Proof.
  split; [reflexivity|].
  exact (json_tuple_as_list (VTuple [VInt 1; VTuple []]) eq_refl).
Defined.

(** * The Python-literal handler: failures and blanks *)

(** ** The failures of [literal_eval] *)












Lemma lstrip_blank_app (b s : pystr) :
  blank b = true -> lstrip_blank (b ++ s) = lstrip_blank s.
Proof.
  induction b as [|c b IH]; cbn [blank forallb app lstrip_blank]; [reflexivity|].
  intros H. apply andb_true_iff in H as [Hc Hb]. rewrite Hc. apply IH, Hb.
Qed.

(** X13.  Spaces and tabs before the literal do not count: the text, with
    or without them, deserialises to the same result. *)
Theorem py_deserialise_indented (py : python) (b s : pystr) :
  blank b = true ->
  PyConverter.deserialise py (b ++ s) = PyConverter.deserialise py s.
Proof.
  intros Hb. unfold PyConverter.deserialise, literal_eval.
  rewrite (lstrip_blank_app b s Hb). reflexivity.
Qed.

Lemma py_deserialise_indented_witness :
  blank (str "  ") = true
  /\ PyConverter.deserialise display_python (str "  " ++ str "[1]")
     = PyConverter.deserialise display_python (str "[1]").
Proof.
  split; [reflexivity|].
  exact (py_deserialise_indented display_python (str "  ") (str "[1]") eq_refl).
Defined.

(** * Tables and CSV

    The writer and the reader of [csv] agree on the tables: what
    [CsvConverter.serialise] writes, [CsvConverter.deserialise] reads. *)

(** ** The writer and the reader of CSV, line by line *)

(** The text of a field in a line. *)
Definition field_enc (t : pystr) : pystr :=
  if existsb needs_quoting t then [quotechar] ++ copy_field t ++ [quotechar]
  else copy_field t.

(** The fields from the [n]-th on. *)
Fixpoint fields_text (n : nat) (cells : list pystr) : pystr :=
  match cells with
  | [] => []
  | t :: ts =>
      (if (0 <? n)%nat then [delimiter] else []) ++ field_enc t ++ fields_text (S n) ts
  end.

(** The line of a row, without its terminator. *)
Definition line_of (cells : list pystr) : pystr :=
  match cells with
  | [[]] => [quotechar; quotechar]
  | _ => fields_text 0 cells
  end.

Section WriterLines.
Variable isprintable : N -> bool.

Lemma writerow_fold (row : list pyvalue) (rec : pystr) (n : nat) :
  fold_left (fun '(rec, n) v =>
               (join_append rec n (field_text isprintable v) false, S n))
            row (rec, n)
  = (rec ++ fields_text n (map (field_text isprintable) row), (n + length row)%nat).
Proof.
  revert rec n. induction row as [|v row IH]; intros rec n; cbn [fold_left map fields_text length].
  - rewrite app_nil_r, Nat.add_0_r. reflexivity.
  - rewrite IH. unfold join_append at 1. cbn [orb].
    fold (field_enc (field_text isprintable v)).
    rewrite <- !app_assoc. f_equal. lia.
Qed.

Lemma field_enc_nil (t : pystr) : field_enc t = [] -> t = [].
Proof.
  unfold field_enc. destruct (existsb needs_quoting t); [discriminate|].
  destruct t as [|c t]; [reflexivity|]. cbn [copy_field flat_map].
  destruct (c =? quotechar)%N; discriminate.
Qed.

Lemma fields_text_nil (n : nat) (cells : list pystr) :
  fields_text n cells = [] ->
  cells = [] \/ (n = 0%nat /\ cells = [[]]).
Proof.
  destruct cells as [|t ts]; [left; reflexivity|]. cbn [fields_text].
  intros H. right.
  apply app_eq_nil in H as [Hn H]. apply app_eq_nil in H as [Ht Hts].
  destruct n; [|discriminate Hn].
  apply field_enc_nil in Ht. subst t. split; [reflexivity|].
  destruct ts as [|u ts]; [reflexivity|]. discriminate Hts.
Qed.

Lemma csv_writerow_line (row : list pyvalue) :
  csv_writerow isprintable row
  = line_of (map (field_text isprintable) row) ++ lineterminator.
Proof.
  unfold csv_writerow. rewrite writerow_fold. cbn [app Nat.add].
  set (cells := map (field_text isprintable) row).
  assert (L : length row = length cells) by (unfold cells; rewrite length_map; reflexivity).
  destruct (fields_text 0 cells) as [|c rec] eqn:E.
  - apply fields_text_nil in E. destruct E as [E|[_ E]].
    + rewrite E in L |- *. destruct row; [|discriminate L]. reflexivity.
    + rewrite E in L |- *. destruct row as [|v [|w row]]; try discriminate L.
      reflexivity.
  - cbn [length Nat.eqb andb].
    rewrite andb_false_r.
    unfold line_of. destruct cells as [|[|x t] [|u ts]];
      try discriminate E; rewrite E; reflexivity.
Qed.
End WriterLines.

(** The characters of a line, fed to the parser one by one. *)
Definition feed (s : pystr) (self : ReaderObj) : result ReaderObj :=
  foldM (fun self c => parse_process_char self (Some c)) s self.

Lemma feed_app (a b : pystr) (self : ReaderObj) :
  feed (a ++ b) self = self' <- feed a self ;; feed b self'.
Proof.
  unfold feed. revert self. induction a as [|c a IH]; intros self; cbn [app foldM bind].
  - reflexivity.
  - destruct (parse_process_char self (Some c)) as [self1|e]; cbn [bind];
      [apply IH|reflexivity].
Qed.

Lemma feed_cons (c : N) (s : pystr) (self : ReaderObj) :
  feed (c :: s) self = self' <- parse_process_char self (Some c) ;; feed s self'.
Proof. reflexivity. Qed.

Definition fits (f : pystr) : Prop := (N.of_nat (length f) <= field_limit)%N.

Lemma parse_add_char_fits (f : pystr) (ffs : list pystr) (c : N) (st : ParserState) :
  fits (f ++ [c]) ->
  parse_add_char {| fields := ffs; field := f; state := st |} c
  = Ok {| fields := ffs; field := f ++ [c]; state := st |}.
Proof.
  unfold fits, parse_add_char. rewrite length_app. cbn [length field fields state].
  intros H.
  replace (field_limit <=? N.of_nat (length f))%N with false; [reflexivity|].
  symmetry. apply N.leb_gt. lia.
Qed.

Lemma fits_app_l (a b : pystr) : fits (a ++ b) -> fits a.
Proof. unfold fits. rewrite length_app. lia. Qed.

(** A character that an unquoted field holds. *)
Definition unquoted_char (c : N) : bool := negb (needs_quoting c).

Lemma unquoted_char_tests (c : N) :
  unquoted_char c = true ->
  is_newline c = false /\ (c =? quotechar)%N = false /\ (c =? delimiter)%N = false.
Proof.
  unfold unquoted_char, needs_quoting, lineterminator, is_newline.
  cbn [existsb]. intros H. apply negb_true_iff in H.
  apply orb_false_iff in H as [H1 H2]. apply orb_false_iff in H1 as [H1 H3].
  apply orb_false_iff in H2 as [H2 H4]. apply orb_false_iff in H4 as [H4 _].
  rewrite H1, H3, H2, H4. repeat split; reflexivity.
Qed.

Lemma in_field_feed (u f : pystr) (ffs : list pystr) :
  forallb unquoted_char u = true -> fits (f ++ u) ->
  feed u {| fields := ffs; field := f; state := IN_FIELD |}
  = Ok {| fields := ffs; field := f ++ u; state := IN_FIELD |}.
Proof.
  revert f. induction u as [|c u IH]; intros f Hu Hf.
  - rewrite app_nil_r. reflexivity.
  - cbn [forallb] in Hu. apply andb_true_iff in Hu as [Hc Hu].
    destruct (unquoted_char_tests c Hc) as (N1 & N2 & N3).
    rewrite feed_cons. cbn [parse_process_char state].
    rewrite N1, N3.
    replace (f ++ c :: u) with ((f ++ [c]) ++ u) in Hf |- *
      by (rewrite <- app_assoc; reflexivity).
    rewrite parse_add_char_fits by exact (fits_app_l _ _ Hf).
    cbn [bind]. apply IH; assumption.
Qed.

Lemma in_quoted_feed (u f : pystr) (ffs : list pystr) :
  fits (f ++ u) ->
  feed (copy_field u) {| fields := ffs; field := f; state := IN_QUOTED_FIELD |}
  = Ok {| fields := ffs; field := f ++ u; state := IN_QUOTED_FIELD |}.
Proof.
  revert f. induction u as [|c u IH]; intros f Hf.
  - rewrite app_nil_r. reflexivity.
  - replace (f ++ c :: u) with ((f ++ [c]) ++ u) in Hf |- *
      by (rewrite <- app_assoc; reflexivity).
    pose proof (fits_app_l _ _ Hf) as Hc.
    unfold copy_field. cbn [flat_map]. fold (copy_field u).
    destruct (c =? quotechar)%N eqn:E.
    + apply N.eqb_eq in E. subst c. cbn [app]. rewrite feed_cons.
      cbn [parse_process_char state]. rewrite ?N.eqb_refl. cbn [bind].
      rewrite feed_cons. unfold set_state.
      cbn [parse_process_char state fields field]. rewrite ?N.eqb_refl.
      rewrite parse_add_char_fits by exact Hc.
      cbn [bind set_state fields field]. apply IH, Hf.
    + cbn [app]. rewrite feed_cons. cbn [parse_process_char state]. rewrite E.
      rewrite parse_add_char_fits by exact Hc.
      cbn [bind]. apply IH, Hf.
Qed.

Lemma copy_field_unquoted (u : pystr) :
  forallb unquoted_char u = true -> copy_field u = u.
Proof.
  induction u as [|c u IH]; [reflexivity|]. cbn [forallb]. intros H.
  apply andb_true_iff in H as [Hc Hu].
  destruct (unquoted_char_tests c Hc) as (_ & N2 & _).
  unfold copy_field. cbn [flat_map]. rewrite N2. cbn [app]. f_equal. apply IH, Hu.
Qed.

Lemma existsb_needs_quoting (t : pystr) :
  existsb needs_quoting t = false -> forallb unquoted_char t = true.
Proof.
  induction t as [|c t IH]; [reflexivity|]. cbn [existsb forallb]. intros H.
  apply orb_false_iff in H as [Hc Ht]. unfold unquoted_char at 1.
  rewrite Hc, (IH Ht). reflexivity.
Qed.

(** A field may start: at the start of a record or after a delimiter. *)
Definition fresh (st : ParserState) : Prop := st = START_RECORD \/ st = START_FIELD.

(** The state after the text of a field has been fed. *)
Lemma feed_field (t : pystr) (ffs : list pystr) (st : ParserState) :
  fresh st -> fits t ->
  exists st',
    feed (field_enc t) {| fields := ffs; field := []; state := st |}
    = Ok {| fields := ffs; field := t; state := st' |}
    /\ (st' = IN_FIELD \/ st' = QUOTE_IN_QUOTED_FIELD
        \/ (st' = st /\ field_enc t = [])).
Proof.
  intros Hst Hf. unfold field_enc.
  destruct (existsb needs_quoting t) eqn:Q.
  - exists QUOTE_IN_QUOTED_FIELD. split; [|right; left; reflexivity].
    cbn [app]. rewrite feed_cons.
    assert (S1 : parse_process_char {| fields := ffs; field := []; state := st |}
                   (Some quotechar)
                 = Ok {| fields := ffs; field := []; state := IN_QUOTED_FIELD |}).
    { destruct Hst as [-> | ->]; reflexivity. }
    rewrite S1. cbn [bind]. rewrite feed_app.
    rewrite (in_quoted_feed t [] ffs) by exact Hf. cbn [bind app].
    reflexivity.
  - apply existsb_needs_quoting in Q. rewrite (copy_field_unquoted t Q).
    destruct t as [|c u].
    + exists st. split; [reflexivity|]. right. right. split; reflexivity.
    + exists IN_FIELD. split; [|left; reflexivity].
      cbn [forallb] in Q. apply andb_true_iff in Q as [Hc Hu].
      destruct (unquoted_char_tests c Hc) as (N1 & N2 & N3).
      rewrite feed_cons.
      assert (S1 : parse_process_char {| fields := ffs; field := []; state := st |}
                     (Some c)
                   = Ok {| fields := ffs; field := [c]; state := IN_FIELD |}).
      { destruct Hst as [-> | ->]; unfold parse_process_char, set_state;
          cbn [state fields field]; rewrite N1, N2, N3;
          rewrite (parse_add_char_fits [] ffs c)
            by (apply (fits_app_l [c] u), Hf); reflexivity. }
      rewrite S1. cbn [bind].
      apply (in_field_feed u [c] ffs Hu Hf).
Qed.

Lemma field_then_delimiter (t rest : pystr) (ffs : list pystr) (st : ParserState) :
  fresh st -> fits t ->
  feed (field_enc t ++ delimiter :: rest) {| fields := ffs; field := []; state := st |}
  = feed rest {| fields := ffs ++ [t]; field := []; state := START_FIELD |}.
Proof.
  intros Hst Hf. destruct (feed_field t ffs st Hst Hf) as (st' & F & C).
  rewrite feed_app, F. cbn [bind]. rewrite feed_cons.
  destruct C as [-> | [-> | [-> E]]]; [reflexivity|reflexivity|].
  rewrite E in F. cbn in F. injection F as <-.
  destruct Hst as [-> | ->]; reflexivity.
Qed.

Lemma field_then_eol (t : pystr) (ffs : list pystr) (st : ParserState) :
  fresh st -> fits t -> st = START_FIELD \/ field_enc t <> [] ->
  (self' <- feed (field_enc t) {| fields := ffs; field := []; state := st |} ;;
   parse_process_char self' None)
  = Ok {| fields := ffs ++ [t]; field := []; state := START_RECORD |}.
Proof.
  intros Hst Hf Hne. destruct (feed_field t ffs st Hst Hf) as (st' & F & C).
  rewrite F. cbn [bind].
  destruct C as [-> | [-> | [-> E]]]; [reflexivity|reflexivity|].
  destruct Hne as [-> | Hne]; [|contradiction].
  reflexivity.
Qed.

Lemma fields_text_pos (n : nat) (cells : list pystr) :
  (0 < n)%nat ->
  fields_text n cells = flat_map (fun t => delimiter :: field_enc t) cells.
Proof.
  revert n. induction cells as [|t ts IH]; intros n Hn; cbn [fields_text flat_map];
    [reflexivity|].
  destruct n; [lia|]. cbn [Nat.ltb Nat.leb app]. f_equal. f_equal. apply IH. lia.
Qed.

Lemma feed_fields (ts : list pystr) (t : pystr) (ffs : list pystr) (st : ParserState) :
  fresh st -> Forall fits (t :: ts) ->
  st = START_FIELD \/ field_enc t <> [] \/ ts <> [] ->
  (self' <- feed (field_enc t ++ flat_map (fun t => delimiter :: field_enc t) ts)
                 {| fields := ffs; field := []; state := st |} ;;
   parse_process_char self' None)
  = Ok {| fields := ffs ++ t :: ts; field := []; state := START_RECORD |}.
Proof.
  revert t ffs st. induction ts as [|u ts IH]; intros t ffs st Hst Hf Hne.
  - cbn [flat_map]. rewrite app_nil_r.
    inversion Hf; subst. apply field_then_eol; [assumption|assumption|].
    destruct Hne as [H|[H|H]]; [left; exact H|right; exact H|contradiction].
  - cbn [flat_map]. inversion Hf as [|? ? Ft Fts]; subst.
    rewrite <- app_comm_cons.
    rewrite field_then_delimiter by assumption.
    rewrite IH; [|right; reflexivity|exact Fts|left; reflexivity].
    rewrite <- app_assoc. reflexivity.
Qed.

(** The reader reads the line of a row back into its cells. *)
Lemma reader_line (cells : list pystr) :
  cells <> [] -> Forall fits cells ->
  (self' <- feed (line_of cells) parse_reset ;; parse_process_char self' None)
  = Ok {| fields := cells; field := []; state := START_RECORD |}.
Proof.
  intros Hne Hf. destruct cells as [|t ts]; [contradiction|].
  destruct ts as [|u ts].
  - destruct t as [|c t]; [reflexivity|].
    unfold line_of. cbn [fields_text Nat.ltb Nat.leb app]. rewrite app_nil_r.
    apply (field_then_eol (c :: t) [] START_RECORD); [left; reflexivity| |].
    + inversion Hf; assumption.
    + right. intros E. apply field_enc_nil in E. discriminate E.
  - assert (L : line_of (t :: u :: ts)
                = field_enc t ++ flat_map (fun t => delimiter :: field_enc t) (u :: ts)).
    { unfold line_of.
      destruct t; cbn [fields_text Nat.ltb Nat.leb app];
        rewrite (fields_text_pos 2) by lia; reflexivity. }
    rewrite L.
    apply (feed_fields (u :: ts) t [] START_RECORD);
      [left; reflexivity|exact Hf|right; right; discriminate].
Qed.

(** ** The lines of the text *)

(** The text of a table: the line of the header and the lines of the rows,
    each with its terminator. *)
Definition csv_text (names : list pystr) (rows : list (list pystr)) : pystr :=
  concat (map (fun cells => line_of cells ++ lineterminator) (names :: rows)).

Lemma splitlines_from_line (line rest acc : pystr) :
  existsb is_linebreak line = false ->
  splitlines_from (line ++ lineterminator ++ rest) acc
  = (acc ++ line) :: splitlines_from rest [].
Proof.
  revert acc. induction line as [|c line IH]; intros acc H.
  - rewrite app_nil_r. reflexivity.
  - cbn [existsb] in H. apply orb_false_iff in H as [Hc Hl].
    cbn [app splitlines_from].
    assert (E : (c =? 13)%N = false).
    { unfold is_linebreak in Hc.
      repeat (apply orb_false_iff in Hc; destruct Hc as [Hc ?]). assumption. }
    rewrite E, Hc, (IH (acc ++ [c]) Hl), <- app_assoc. reflexivity.
Qed.

Lemma splitlines_lines (lines : list pystr) :
  Forall (fun line => existsb is_linebreak line = false) lines ->
  splitlines (concat (map (fun line => line ++ lineterminator) lines)) = lines.
Proof.
  unfold splitlines. induction 1 as [|line lines Hl _ IH]; [reflexivity|].
  cbn [map concat]. rewrite <- app_assoc, splitlines_from_line by exact Hl.
  cbn [app]. f_equal. exact IH.
Qed.

Lemma existsb_app_false {A : Type} (p : A -> bool) (a b : list A) :
  existsb p a = false -> existsb p b = false -> existsb p (a ++ b) = false.
Proof. intros Ha Hb. rewrite existsb_app, Ha, Hb. reflexivity. Qed.

Lemma copy_field_linebreak (t : pystr) :
  existsb is_linebreak t = false -> existsb is_linebreak (copy_field t) = false.
Proof.
  induction t as [|c t IH]; [reflexivity|]. cbn [existsb]. intros H.
  apply orb_false_iff in H as [Hc Ht].
  unfold copy_field. cbn [flat_map]. fold (copy_field t).
  apply existsb_app_false; [|apply IH, Ht].
  destruct (c =? quotechar)%N; cbn [existsb]; rewrite Hc; reflexivity.
Qed.

Lemma field_enc_linebreak (t : pystr) :
  existsb is_linebreak t = false -> existsb is_linebreak (field_enc t) = false.
Proof.
  intros H. unfold field_enc. destruct (existsb needs_quoting t).
  - apply existsb_app_false; [reflexivity|].
    apply existsb_app_false; [apply copy_field_linebreak, H|reflexivity].
  - apply copy_field_linebreak, H.
Qed.

Lemma fields_text_linebreak (n : nat) (cells : list pystr) :
  Forall (fun t => existsb is_linebreak t = false) cells ->
  existsb is_linebreak (fields_text n cells) = false.
Proof.
  intros H. revert n. induction H as [|t ts Ht _ IH]; intros n; [reflexivity|].
  cbn [fields_text].
  apply existsb_app_false; [destruct (0 <? n)%nat; reflexivity|].
  apply existsb_app_false; [apply field_enc_linebreak, Ht|apply IH].
Qed.

Lemma line_of_linebreak (cells : list pystr) :
  Forall (fun t => existsb is_linebreak t = false) cells ->
  existsb is_linebreak (line_of cells) = false.
Proof.
  intros H. unfold line_of. destruct cells as [|[|c t] [|u ts]];
    try reflexivity; apply fields_text_linebreak, H.
Qed.

Lemma cell_text_parts (t : pystr) :
  cell_text t = true -> existsb is_linebreak t = false /\ fits t.
Proof.
  unfold cell_text, fits. intros H. apply andb_true_iff in H as [H1 H2].
  apply negb_true_iff in H1. apply N.leb_le in H2. split; assumption.
Qed.

Lemma cells_parts (cells : list pystr) :
  forallb cell_text cells = true ->
  Forall (fun t => existsb is_linebreak t = false) cells /\ Forall fits cells.
Proof.
  rewrite forallb_forall. intros H.
  split; apply Forall_forall; intros t Ht; apply cell_text_parts, H, Ht.
Qed.

Lemma bind_assoc {A B C : Type} (r : result A) (f : A -> result B) (g : B -> result C) :
  bind (bind r f) g = bind r (fun a => bind (f a) g).
Proof. destruct r; reflexivity. Qed.

Lemma reader_rows_lines (rows : list (list pystr)) :
  Forall (fun cells => cells <> [] /\ Forall fits cells) rows ->
  reader_rows (map line_of rows) parse_reset = Ok rows.
Proof.
  induction 1 as [|cells rows [Hne Hf] _ IH]; [reflexivity|].
  cbn [map reader_rows].
  pose proof (reader_line cells Hne Hf) as L. unfold feed in L.
  rewrite <- bind_assoc, L. cbn [bind state is_START_RECORD fields].
  rewrite IH. reflexivity.
Qed.

Lemma fold_left_map {A B C : Type} (f : A -> C -> A) (g : B -> C) (l : list B) (a : A) :
  fold_left (fun a b => f a (g b)) l a = fold_left f (map g l) a.
Proof. revert a. induction l as [|b l IH]; intros a; [reflexivity|apply IH]. Qed.

Lemma combine_map {A B C D : Type} (f : A -> C) (g : B -> D) (a : list A) (b : list B) :
  map (fun kv => (f (fst kv), g (snd kv))) (combine a b) = combine (map f a) (map g b).
Proof.
  revert b. induction a as [|x a IH]; intros [|y b]; cbn [combine map fst snd];
    try reflexivity. f_equal. apply IH.
Qed.

Lemma dict_keys_combine (ks vs : list pyvalue) :
  length ks = length vs -> dict_keys (combine ks vs) = ks.
Proof.
  revert vs. induction ks as [|k ks IH]; intros [|v vs] H; try discriminate H;
    [reflexivity|].
  cbn [combine dict_keys map fst]. f_equal. apply IH. injection H as H. exact H.
Qed.

Lemma DictReader_row_table (names cells : list pystr) :
  distinct_keys (map VStr names) = true -> length cells = length names ->
  VDict (DictReader_row names cells) = table_row names cells.
Proof.
  intros Hd Hl. unfold DictReader_row, table_row. rewrite Hl, Nat.ltb_irrefl.
  f_equal.
  rewrite (fold_left_map (fun d kv => dict_store d (fst kv) (snd kv))
             (fun kv : pystr * pystr => (VStr (fst kv), VStr (snd kv)))).
  rewrite (combine_map VStr VStr).
  rewrite dict_store_all; [reflexivity|intros k0 k []|].
  rewrite dict_keys_combine; [exact Hd|]. rewrite !length_map. symmetry. exact Hl.
Qed.

(** The reader side: the text of a table deserialises to the table. *)
Lemma csv_deserialise_text (names : list pystr) (rows : list (list pystr)) :
  names <> [] -> distinct_keys (map VStr names) = true ->
  forallb cell_text names = true ->
  Forall (row_ok (length names)) rows ->
  CsvConverter.deserialise (csv_text names rows) = Ok (table names rows).
Proof.
  intros Hne Hd Hn Hr. unfold CsvConverter.deserialise, csv_text.
  rewrite <- (map_map line_of (fun line => line ++ lineterminator)).
  rewrite splitlines_lines.
  2:{ apply Forall_forall. intros line Hl. apply in_map_iff in Hl as (cells & <- & Hc).
      apply line_of_linebreak.
      destruct Hc as [<-|Hc]; [apply cells_parts, Hn|].
      rewrite Forall_forall in Hr. apply cells_parts, (Hr _ Hc). }
  rewrite reader_rows_lines.
  2:{ constructor; [split; [exact Hne|apply cells_parts, Hn]|].
      rewrite Forall_forall in Hr |- *. intros cells Hc.
      destruct (Hr _ Hc) as [Hl Ht]. split; [|apply cells_parts, Ht].
      intros ->. destruct names; [contradiction|discriminate Hl]. }
  cbn [bind DictReader_list]. unfold table. do 2 f_equal.
  induction Hr as [|cells rows [Hl Ht] _ IH]; [reflexivity|].
  cbn [filter]. destruct cells as [|c cells].
  { destruct names; [contradiction|discriminate Hl]. }
  cbn [is_empty_row negb map]. rewrite IH.
  rewrite DictReader_row_table by assumption. reflexivity.
Qed.

Section WriterRows.
Variable isprintable : N -> bool.

Lemma filter_forallb_nil {A : Type} (p : A -> bool) (l : list A) :
  forallb p l = true -> filter (fun x => negb (p x)) l = [].
Proof.
  induction l as [|x l IH]; [reflexivity|]. cbn [forallb filter]. intros H.
  apply andb_true_iff in H as [Hx Hl]. rewrite Hx. cbn [negb]. apply IH, Hl.
Qed.

(** The line of a row that [DictWriter] accepts. *)
Lemma writerow_line (names : list pystr) (d : dict) :
  forallb (fun k => existsb (key_eqb k) (map VStr names)) (dict_keys d) = true ->
  writerow isprintable (map VStr names) (VDict d)
  = Ok (line_of (cells_of isprintable names (VDict d)) ++ lineterminator).
Proof.
  intros Hk. unfold writerow, _dict_to_list.
  rewrite (filter_forallb_nil _ _ Hk). cbn [bind].
  rewrite csv_writerow_line, !map_map. do 3 f_equal.
  apply map_ext. intros name. unfold cell_of.
  destruct (dict_get d (VStr name)); reflexivity.
Qed.

Lemma dict_get_skip (n : pystr) (ns : list pystr) (v : pyvalue) (d : dict)
    (m : pystr) :
  existsb (key_eqb (VStr n)) (map VStr ns) = false -> In m ns ->
  dict_get ((VStr n, v) :: d) (VStr m) = dict_get d (VStr m).
Proof.
  intros Hn Hm. cbn [dict_get].
  rewrite (existsb_false_In _ _ (VStr m) Hn (in_map VStr _ _ Hm)). reflexivity.
Qed.

(** The cells of a row of a table are the cells it was made of. *)
Lemma cells_of_table_row (names cells : list pystr) :
  distinct_keys (map VStr names) = true -> length cells = length names ->
  cells_of isprintable names (table_row names cells) = cells.
Proof.
  unfold cells_of, table_row. revert cells.
  induction names as [|n ns IH]; intros [|c cs] Hd Hl; try discriminate Hl;
    [reflexivity|].
  cbn [map distinct_keys] in Hd. apply andb_true_iff in Hd as [Hn Hd].
  apply negb_true_iff in Hn.
  cbn [map combine]. f_equal.
  - unfold cell_of. cbn [dict_get key_eqb]. rewrite str_eqb_refl. reflexivity.
  - rewrite <- (IH cs Hd) at 2 by (injection Hl as Hl; exact Hl).
    apply map_ext_in. intros m Hm. unfold cell_of.
    rewrite (dict_get_skip n ns _ _ m Hn Hm). reflexivity.
Qed.

Lemma table_row_keys (names cells : list pystr) (k : pyvalue) :
  length cells = length names ->
  forallb (fun k => existsb (key_eqb k) (map VStr names))
          (dict_keys (combine (map VStr names) (map VStr cells))) = true.
Proof.
  intros Hl. rewrite dict_keys_combine by (rewrite !length_map; symmetry; exact Hl).
  apply forallb_forall. intros x Hx. apply existsb_exists. exists x.
  split; [exact Hx|]. apply in_map_iff in Hx as (m & <- & _).
  cbn [key_eqb]. apply str_eqb_refl.
Qed.

Lemma mapM_Ok {A B : Type} (f : A -> result B) (g : A -> B) (l : list A) :
  (forall a, In a l -> f a = Ok (g a)) -> mapM f l = Ok (map g l).
Proof. intros H. apply mapM_map, Forall_forall, H. Qed.

(** The writer side: the text [serialise] writes for a list of rows that
    [DictWriter] accepts under the header of the first. *)
Lemma csv_serialise_text (py : python) (names : list pystr) (first : dict)
    (rest : list pyvalue) :
  isprintable = Py_UNICODE_ISPRINTABLE py ->
  dict_keys first = map VStr names ->
  distinct_keys (map VStr names) = true ->
  forallb (writable_row isprintable names) (VDict first :: rest) = true ->
  CsvConverter.serialise py (VList (VDict first :: rest))
  = Ok (csv_text names (map (cells_of isprintable names) (VDict first :: rest))).
Proof.
  intros Hi Hk Hd Hw. unfold CsvConverter.serialise. rewrite <- Hi.
  cbn [getitem_0 keys bind iterate]. rewrite Hk.
  unfold writeheader.
  assert (Hh : fold_left (fun d k => dict_store d k k) (map VStr names) []
               = combine (map VStr names) (map VStr names)).
  { transitivity (fold_left (fun a kv => dict_store a (fst kv) (snd kv))
                    (map (fun k : pyvalue => (k, k)) (map VStr names)) []).
    - exact (fold_left_map (fun a kv => dict_store a (fst kv) (snd kv))
               (fun k : pyvalue => (k, k)) (map VStr names) []).
    - assert (C : forall l : list pyvalue, map (fun k => (k, k)) l = combine l l).
      { induction l as [|x l IH]; [reflexivity|]. cbn [map combine]. f_equal. exact IH. }
      rewrite C, dict_store_all; [reflexivity|intros k0 k []|].
      rewrite dict_keys_combine; [exact Hd|reflexivity]. }
  rewrite Hh.
  rewrite writerow_line by (apply (table_row_keys names names VNone); reflexivity).
  change (VDict (combine (map VStr names) (map VStr names))) with (table_row names names).
  rewrite cells_of_table_row by (try exact Hd; reflexivity).
  cbn [bind]. unfold writerows.
  rewrite (mapM_Ok _ (fun r => line_of (cells_of isprintable names r) ++ lineterminator)).
  - cbn [bind]. unfold csv_text. cbn [map concat]. rewrite map_map. reflexivity.
  - intros r Hr. rewrite forallb_forall in Hw. specialize (Hw r Hr).
    destruct r; try discriminate Hw. cbn [writable_row] in Hw.
    apply andb_true_iff in Hw as [Hw _]. apply writerow_line, Hw.
Qed.
End WriterRows.

(** ** Round trips through CSV *)

Lemma table_row_writable (isprintable : N -> bool) (names cells : list pystr) :
  distinct_keys (map VStr names) = true -> row_ok (length names) cells ->
  writable_row isprintable names (table_row names cells) = true.
Proof.
  intros Hd [Hl Hc]. unfold table_row. cbn [writable_row].
  rewrite (table_row_keys names cells VNone Hl). cbn [andb].
  rewrite <- (forallb_map cell_text).
  change (map (cell_of isprintable (combine (map VStr names) (map VStr cells))) names)
    with (cells_of isprintable names (table_row names cells)).
  rewrite cells_of_table_row by assumption. exact Hc.
Qed.

Lemma csv_table_roundtrip (py : python) (names : list pystr) (rows : list (list pystr)) :
  names <> [] -> rows <> [] ->
  distinct_keys (map VStr names) = true ->
  forallb cell_text names = true ->
  Forall (row_ok (length names)) rows ->
  exists text,
    CsvConverter.serialise py (table names rows) = Ok text
    /\ CsvConverter.deserialise text = Ok (table names rows)
    /\ text = csv_text names rows.
Proof.
  intros Hne Hrows Hd Hn Hr.
  destruct rows as [|cells rows]; [contradiction|].
  set (isprintable := Py_UNICODE_ISPRINTABLE py).
  assert (C : map (cells_of isprintable names) (map (table_row names) (cells :: rows))
              = cells :: rows).
  { rewrite map_map. rewrite <- (map_id (cells :: rows)) at 2.
    apply map_ext_in. intros r Hin. rewrite Forall_forall in Hr.
    apply cells_of_table_row; [exact Hd|apply (Hr r Hin)]. }
  assert (K : dict_keys (combine (map VStr names) (map VStr cells)) = map VStr names).
  { apply dict_keys_combine. rewrite !length_map. symmetry.
    inversion Hr as [|? ? [Hl _] _]; exact Hl. }
  assert (W : forallb (writable_row isprintable names)
                (map (table_row names) (cells :: rows)) = true).
  { rewrite forallb_map. apply forallb_forall. intros r Hin.
    rewrite Forall_forall in Hr. apply table_row_writable; [exact Hd|apply Hr, Hin]. }
  exists (csv_text names (cells :: rows)). split; [|split; [|reflexivity]].
  - pose proof (csv_serialise_text isprintable py names
                  (combine (map VStr names) (map VStr cells))
                  (map (table_row names) rows) eq_refl K Hd W) as S.
    unfold table. cbn [map]. unfold table_row at 1. rewrite S.
    do 2 f_equal. exact C.
  - apply csv_deserialise_text; assumption.
Qed.

(** X14.  A table survives CSV: the record of a header of distinct names
    and of rows with one cell for each name, names and cells being text
    without line boundaries and within the field limit, is serialised to a
    text that deserialises to the same record. *)
Theorem csv_roundtrip (py : python) (names : list pystr) (rows : list (list pystr)) :
  names <> [] -> rows <> [] ->
  distinct_keys (map VStr names) = true ->
  forallb cell_text names = true ->
  Forall (row_ok (length names)) rows ->
  exists text,
    CsvConverter.serialise py (table names rows) = Ok text
    /\ CsvConverter.deserialise text = Ok (table names rows).
Proof.
  intros Hne Hrows Hd Hn Hr.
  destruct (csv_table_roundtrip py names rows Hne Hrows Hd Hn Hr) as (text & S & D & _).
  exists text. split; assumption.
Qed.

Lemma csv_roundtrip_witness :
  let names := [str "name"; str "address"] in
  let rows := [[str "Joe"; str "1 Somewhere Street, Sydney"]; [str "Jim"; []]] in
  names <> [] /\ rows <> []
  /\ distinct_keys (map VStr names) = true
  /\ forallb cell_text names = true
  /\ Forall (row_ok (length names)) rows
  /\ exists text,
       CsvConverter.serialise display_python (table names rows) = Ok text
       /\ CsvConverter.deserialise text = Ok (table names rows).
Proof.
  cbv zeta.
  assert (H1 : [str "name"; str "address"] <> []) by discriminate.
  assert (H2 : [[str "Joe"; str "1 Somewhere Street, Sydney"]; [str "Jim"; []]] <> [])
    by discriminate.
  assert (H3 : Forall (row_ok (length [str "name"; str "address"]))
                 [[str "Joe"; str "1 Somewhere Street, Sydney"]; [str "Jim"; []]])
    by (repeat constructor).
  repeat (split; [first [assumption|reflexivity]|]).
  exact (csv_roundtrip display_python [str "name"; str "address"]
           [[str "Joe"; str "1 Somewhere Street, Sydney"]; [str "Jim"; []]]
           H1 H2 eq_refl eq_refl H3).
Defined.



(** ** Line endings *)

Lemma is_linebreak_10 : is_linebreak 10 = true.
Proof. reflexivity. Qed.

Lemma splitlines_from_universal (n : nat) :
  forall s acc, (length s <= n)%nat ->
  splitlines_from (universal_newlines s) acc = splitlines_from s acc.
Proof.
  induction n as [|n IH]; intros s acc Hl.
  - destruct s; [reflexivity|cbn [length] in Hl; lia].
  - destruct s as [|c r]; [reflexivity|]. cbn [length] in Hl.
    cbn [universal_newlines]. destruct (c =? 13)%N eqn:E.
    + destruct r as [|c' r'].
      * cbn [splitlines_from]. rewrite E. reflexivity.
      * destruct (c' =? 10)%N eqn:E'.
        -- cbn [splitlines_from]. rewrite E, E'.
           change (10 =? 13)%N with false. rewrite is_linebreak_10.
           f_equal. apply IH. cbn [length] in Hl. lia.
        -- cbn [splitlines_from]. rewrite E, E'.
           change (10 =? 13)%N with false. rewrite is_linebreak_10.
           f_equal. apply (IH (c' :: r')). lia.
    + cbn [splitlines_from]. rewrite E.
      destruct (is_linebreak c); [f_equal|]; apply IH; lia.
Qed.

Lemma splitlines_universal (s : pystr) :
  splitlines (universal_newlines s) = splitlines s.
Proof. apply (splitlines_from_universal (length s)). lia. Qed.

(** X16.  The CSV handler reads a text the same whatever ends its lines: a
    text with carriage returns and line feeds, as [serialise] writes it,
    and the text [open] makes of it on reading, where every line ends with
    a line feed, deserialise to the same result. *)
Theorem csv_deserialise_newlines (s : pystr) :
  CsvConverter.deserialise (universal_newlines s) = CsvConverter.deserialise s.
Proof.
  unfold CsvConverter.deserialise. rewrite splitlines_universal. reflexivity.
Qed.

(** ** The reader accepts every text *)

Definition not_eating (st : ParserState) : Prop := st <> EAT_CRNL.

Lemma parse_add_char_room (self : ReaderObj) (c : N) :
  (N.of_nat (length (field self)) < field_limit)%N ->
  parse_add_char self c
  = Ok {| fields := fields self; field := field self ++ [c]; state := state self |}.
Proof.
  intros H. unfold parse_add_char.
  replace (field_limit <=? N.of_nat (length (field self)))%N with false; [reflexivity|].
  symmetry. apply N.leb_gt, H.
Qed.

Lemma process_char_ok (self : ReaderObj) (c : N) :
  not_eating (state self) -> is_newline c = false ->
  (N.of_nat (length (field self)) < field_limit)%N ->
  exists self',
    parse_process_char self (Some c) = Ok self'
    /\ not_eating (state self')
    /\ (length (field self') <= S (length (field self)))%nat.
Proof.
  intros Hst Hc Hroom. unfold parse_process_char. rewrite Hc.
  pose proof (parse_add_char_room self c Hroom) as A.
  pose proof (parse_add_char_room (set_state self START_FIELD) c Hroom) as A'.
  destruct (state self) eqn:S; try (exfalso; apply Hst; reflexivity);
    repeat match goal with
      | |- context [if ?b then _ else _] => destruct b
      end;
    rewrite ?A, ?A'; cbn [bind];
    eexists; (split; [reflexivity|]);
    cbn [state field set_state parse_save_field length]; rewrite ?length_app;
    cbn [length]; (split; [try rewrite S; discriminate|lia]).
Qed.

Lemma process_eol_ok (self : ReaderObj) :
  not_eating (state self) ->
  exists self',
    parse_process_char self None = Ok self'
    /\ not_eating (state self')
    /\ (length (field self') <= length (field self))%nat.
Proof.
  intros Hst. unfold parse_process_char.
  destruct (state self) eqn:S; try (exfalso; apply Hst; reflexivity);
    eexists; (split; [reflexivity|]);
    cbn [state field set_state parse_save_field length];
    (split; [try rewrite S; discriminate|lia]).
Qed.

Lemma feed_ok (line : pystr) (self : ReaderObj) :
  forallb (fun c => negb (is_newline c)) line = true ->
  not_eating (state self) ->
  (N.of_nat (length (field self) + length line) <= field_limit)%N ->
  exists self',
    feed line self = Ok self'
    /\ not_eating (state self')
    /\ (length (field self') <= length (field self) + length line)%nat.
Proof.
  revert self. induction line as [|c line IH]; intros self Hl Hst Hroom.
  - exists self. repeat split; [exact Hst|lia].
  - cbn [forallb] in Hl. apply andb_true_iff in Hl as [Hc Hl].
    apply negb_true_iff in Hc. cbn [length] in Hroom.
    destruct (process_char_ok self c Hst Hc) as (self1 & E1 & S1 & L1); [lia|].
    destruct (IH self1 Hl S1) as (self2 & E2 & S2 & L2); [lia|].
    exists self2. rewrite feed_cons, E1. cbn [bind length].
    repeat split; [exact E2|exact S2|lia].
Qed.

Lemma reader_rows_ok (lines : list pystr) :
  Forall (fun line => forallb (fun c => negb (is_newline c)) line = true) lines ->
  forall self,
  not_eating (state self) ->
  (N.of_nat (length (field self) + length (concat lines)) <= field_limit)%N ->
  exists rows, reader_rows lines self = Ok rows.
Proof.
  induction 1 as [|line lines Hl _ IH]; intros self Hst Hroom; cbn [reader_rows].
  - destruct (_ || _); eexists; reflexivity.
  - cbn [concat] in Hroom. rewrite length_app in Hroom.
    destruct (feed_ok line self Hl Hst) as (self1 & E1 & S1 & L1); [lia|].
    unfold feed in E1. rewrite E1. cbn [bind].
    destruct (process_eol_ok self1 S1) as (self2 & E2 & S2 & L2).
    rewrite E2. cbn [bind].
    destruct (is_START_RECORD (state self2)).
    + destruct (IH parse_reset) as [rows ->]; [discriminate|cbn [parse_reset field length]; lia|].
      eexists. reflexivity.
    + apply IH; [exact S2|lia].
Qed.

Lemma splitlines_from_bound (n : nat) :
  forall s acc, (length s <= n)%nat ->
  existsb is_linebreak acc = false ->
  Forall (fun line => existsb is_linebreak line = false) (splitlines_from s acc)
  /\ (length (concat (splitlines_from s acc)) <= length acc + length s)%nat.
Proof.
  induction n as [|n IH]; intros s acc Hn Ha.
  - destruct s; [|cbn [length] in Hn; lia].
    cbn [splitlines_from]. destruct acc; cbn [concat length]; [split; [constructor|lia]|].
    split; [constructor; [exact Ha|constructor]|rewrite app_nil_r; cbn [length]; lia].
  - destruct s as [|c r].
    { cbn [splitlines_from]. destruct acc; cbn [concat length]; [split; [constructor|lia]|].
      split; [constructor; [exact Ha|constructor]|rewrite app_nil_r; cbn [length]; lia]. }
    cbn [length] in Hn. cbn [splitlines_from].
    assert (Step : forall r', (length r' <= n)%nat ->
              Forall (fun line => existsb is_linebreak line = false)
                (acc :: splitlines_from r' [])
              /\ (length (concat (acc :: splitlines_from r' []))
                  <= length acc + length r')%nat).
    { intros r' Hr. destruct (IH r' [] Hr eq_refl) as [F L].
      split; [constructor; assumption|].
      cbn [concat]. rewrite length_app. cbn [length] in L. lia. }
    destruct (c =? 13)%N.
    + destruct r as [|c' r'].
      * destruct (Step [] ltac:(cbn; lia)) as [F L]. split; [exact F|cbn [length] in *; lia].
      * cbn [length] in Hn. destruct (c' =? 10)%N.
        -- destruct (Step r' ltac:(lia)) as [F L].
           split; [exact F|cbn [length] in *; lia].
        -- destruct (Step (c' :: r') ltac:(cbn [length]; lia)) as [F L].
           split; [exact F|cbn [length] in *; lia].
    + destruct (is_linebreak c) eqn:E.
      * destruct (Step r ltac:(lia)) as [F L].
        split; [exact F|cbn [length] in *; lia].
      * destruct (IH r (acc ++ [c]) ltac:(lia)) as [F L].
        { apply existsb_app_false; [exact Ha|]. cbn [existsb]. rewrite E. reflexivity. }
        split; [exact F|]. rewrite length_app in L. cbn [length] in *. lia.
Qed.

Lemma splitlines_from_lines (s acc : pystr) :
  existsb is_linebreak acc = false ->
  Forall (fun line => existsb is_linebreak line = false) (splitlines_from s acc)
  /\ (length (concat (splitlines_from s acc)) <= length acc + length s)%nat.
Proof. apply (splitlines_from_bound (length s)). lia. Qed.

Lemma linebreak_newline (line : pystr) :
  existsb is_linebreak line = false ->
  forallb (fun c => negb (is_newline c)) line = true.
Proof.
  induction line as [|c line IH]; [reflexivity|]. cbn [existsb forallb]. intros H.
  apply orb_false_iff in H as [Hc Hl]. rewrite (IH Hl), andb_true_r.
  unfold is_linebreak in Hc. unfold is_newline.
  repeat (apply orb_false_iff in Hc; destruct Hc as [Hc ?]).
  repeat match goal with H : (_ =? _)%N = false |- _ => rewrite H; clear H end.
  reflexivity.
Qed.

(** The rows of the reader: one for each line at most. *)
Lemma reader_rows_count (lines : list pystr) :
  (forall self rows, reader_rows lines self = Ok rows ->
                     (length rows <= S (length lines))%nat)
  /\ (forall rows, reader_rows lines parse_reset = Ok rows ->
                   (length rows <= length lines)%nat).
Proof.
  induction lines as [|line lines [IH1 IH2]].
  - split.
    + intros self rows. cbn [reader_rows]. destruct (_ || _); intros [= <-]; cbn; lia.
    + intros rows [= <-]. cbn. lia.
  - assert (G : forall self rows, reader_rows (line :: lines) self = Ok rows ->
                                  (length rows <= S (length lines))%nat).
    { intros self rows. cbn [reader_rows].
      destruct (foldM _ line self) as [self1|]; [|discriminate]. cbn [bind].
      destruct (parse_process_char self1 None) as [self2|]; [|discriminate]. cbn [bind].
      destruct (is_START_RECORD (state self2)).
      - destruct (reader_rows lines parse_reset) as [rows'|] eqn:E; [|discriminate].
        cbn [bind]. intros [= <-]. cbn [length]. specialize (IH2 rows' eq_refl). lia.
      - intros E. exact (IH1 self2 rows E). }
    split; [|exact (G parse_reset)].
    intros self rows E. specialize (G self rows E). cbn [length]. lia.
Qed.

Lemma DictReader_list_length (rows : list (list pystr)) :
  (length (DictReader_list rows) <= length rows - 1)%nat.
Proof.
  destruct rows as [|names rows]; [cbn; lia|].
  cbn [DictReader_list length]. rewrite length_map.
  pose proof (filter_length_le (fun row => negb (is_empty_row row)) rows). lia.
Qed.

Lemma csv_deserialise_ok (s : pystr) :
  fits s ->
  exists rows,
    CsvConverter.deserialise s = Ok (VList rows)
    /\ (length rows <= length (splitlines s) - 1)%nat.
Proof.
  unfold fits. intros Hs. unfold CsvConverter.deserialise, splitlines.
  destruct (splitlines_from_lines s [] eq_refl) as [F L]. cbn [length] in L.
  destruct (reader_rows_ok (splitlines_from s [])) with (self := parse_reset)
    as [rows E].
  - rewrite Forall_forall in F |- *. intros line Hl. apply linebreak_newline, F, Hl.
  - discriminate.
  - cbn [parse_reset field length]. lia.
  - rewrite E. cbn [bind]. eexists. split; [reflexivity|].
    pose proof (proj2 (reader_rows_count _) rows E).
    pose proof (DictReader_list_length rows). lia.
Qed.

(** X17.  The CSV handler refuses no text of at most 131072 characters, the
    field limit of the reader: [deserialise] returns a list, with at most
    one row for each line after the first. *)
Theorem csv_deserialise_total (s : pystr) :
  (N.of_nat (length s) <= field_limit)%N ->
  exists rows,
    CsvConverter.deserialise s = Ok (VList rows)
    /\ (length rows <= length (splitlines s) - 1)%nat.
Proof. exact (csv_deserialise_ok s). Qed.

Lemma csv_deserialise_total_witness :
  (N.of_nat (length (str "a,b" ++ [10; 34]%N ++ str "x")) <= field_limit)%N
  /\ exists rows,
       CsvConverter.deserialise (str "a,b" ++ [10; 34]%N ++ str "x") = Ok (VList rows)
       /\ (length rows <= length (splitlines (str "a,b" ++ [10; 34]%N ++ str "x")) - 1)%nat.
Proof.
  assert (H : (N.of_nat (length (str "a,b" ++ [10; 34]%N ++ str "x")) <= field_limit)%N)
    by (vm_compute; discriminate).
  split; [exact H|].
  exact (csv_deserialise_total (str "a,b" ++ [10; 34]%N ++ str "x") H).
Defined.



(** ** What [serialise] requires *)

Lemma mapM_Ok_inv {A B : Type} (f : A -> result B) (l : list A) (bs : list B) :
  mapM f l = Ok bs -> Forall (fun a => exists b, f a = Ok b) l.
Proof.
  revert bs. induction l as [|a l IH]; intros bs; [constructor|]. cbn [mapM].
  destruct (f a) as [b|] eqn:E; [|discriminate]. cbn [bind].
  destruct (mapM f l) as [bs'|]; [|discriminate]. intros _.
  constructor; [exists b; exact E|apply (IH bs'); reflexivity].
Qed.

Lemma filter_nil_forallb {A : Type} (p : A -> bool) (l : list A) :
  filter (fun x => negb (p x)) l = [] -> forallb p l = true.
Proof.
  induction l as [|x l IH]; [reflexivity|]. cbn [filter forallb].
  destruct (p x); cbn [negb andb]; [exact IH|discriminate].
Qed.

(** X19.  [CsvConverter.serialise] succeeds on tables only: when it
    returns, the item [d[0]] is a dictionary and every item of [d] is a
    dictionary with no key besides the keys of [d[0]].  So a number, a
    text, a list of numbers, as the other handlers may return them, are
    refused. *)
Theorem csv_serialise_requires (py : python) (d : pyvalue) (text : pystr) :
  CsvConverter.serialise py d = Ok text ->
  exists first rows,
    getitem_0 d = Ok (VDict first)
    /\ iterate d = Ok rows
    /\ Forall (fun r =>
                 exists rd,
                   r = VDict rd
                   /\ forallb (fun k => existsb (key_eqb k) (dict_keys first))
                              (dict_keys rd) = true) rows.
Proof.
  unfold CsvConverter.serialise.
  destruct (getitem_0 d) as [fv|]; [|discriminate]. cbn [bind].
  destruct fv as [| |b|z|lit|s|b|l|l|l|first]; try discriminate. cbn [keys bind].
  destruct (writeheader _ _) as [header|]; [|discriminate]. cbn [bind].
  destruct (iterate d) as [rows|]; [|discriminate]. cbn [bind].
  unfold writerows.
  destruct (mapM _ rows) as [lines|] eqn:M; [|discriminate]. intros _.
  exists first, rows. split; [reflexivity|]. split; [reflexivity|].
  apply mapM_Ok_inv in M. rewrite Forall_forall in M |- *.
  intros r Hr. destruct (M r Hr) as [line W].
  unfold writerow, _dict_to_list in W.
  destruct r as [| |b|z|lit|s|b|l|l|l|rd]; try discriminate W.
  exists rd. split; [reflexivity|].
  apply filter_nil_forallb.
  destruct (filter _ (dict_keys rd)); [reflexivity|discriminate W].
Qed.

Lemma csv_serialise_requires_witness :
  CsvConverter.serialise display_python joe_record = Ok joe_text
  /\ exists first rows,
       getitem_0 joe_record = Ok (VDict first)
       /\ iterate joe_record = Ok rows
       /\ Forall (fun r =>
                    exists rd,
                      r = VDict rd
                      /\ forallb (fun k => existsb (key_eqb k) (dict_keys first))
                                 (dict_keys rd) = true) rows.
Proof.
  split; [reflexivity|].
  exact (csv_serialise_requires display_python joe_record joe_text eq_refl).
Defined.

(** ** The keys of the rows *)

(** An item of a row of [DictReader]: a name of the header with the text of
    its field, or with [None] when the line is short, or the key [None]
    with the fields a long line has in excess. *)
Definition reader_item (names : list pystr) (kv : pyvalue * pyvalue) : Prop :=
  (exists n, fst kv = VStr n /\ In n names
             /\ (snd kv = VNone \/ exists t, snd kv = VStr t))
  \/ (fst kv = VNone /\ exists l, snd kv = VList (map VStr l)).

Lemma dict_store_items (names : list pystr) (d : dict) (k v : pyvalue) :
  Forall (reader_item names) d -> reader_item names (k, v) ->
  Forall (reader_item names) (dict_store d k v).
Proof.
  intros Hd Hkv. induction Hd as [|[k' v'] d Hk' Hd IH]; cbn [dict_store].
  - constructor; [exact Hkv|constructor].
  - destruct (key_eqb k' k) eqn:E; [|constructor; assumption].
    constructor; [|assumption].
    destruct Hkv as [(n & Hk & Hn & Hv)|[Hk Hv]]; cbn [fst snd] in *; subst k.
    + left. destruct k'; try discriminate E. cbn [key_eqb] in E.
      apply str_eqb_eq in E. subst s. exists n. cbn [fst snd]. auto.
    + right. destruct k'; try discriminate E. cbn [fst snd]. auto.
Qed.

Lemma dict_get_store_kept (d : dict) (k v k' : pyvalue) :
  (exists x, dict_get d k' = Some x) ->
  exists x, dict_get (dict_store d k v) k' = Some x.
Proof.
  induction d as [|[k0 v0] d IH]; cbn [dict_get dict_store]; [intros [x H]; discriminate H|].
  intros H. destruct (key_eqb k0 k); cbn [dict_get];
    destruct (key_eqb k0 k'); eauto.
Qed.

Lemma dict_get_store_text (d : dict) (n : pystr) (v : pyvalue) :
  exists x, dict_get (dict_store d (VStr n) v) (VStr n) = Some x.
Proof.
  induction d as [|[k0 v0] d IH]; cbn [dict_get dict_store key_eqb].
  - rewrite str_eqb_refl. eauto.
  - destruct (key_eqb k0 (VStr n)) eqn:E; cbn [dict_get]; rewrite E; eauto.
Qed.

Section Folds.
Context {X : Type}.
Variables (names : list pystr) (key : X -> pystr) (value : X -> pyvalue).
Hypothesis value_ok : forall x, value x = VNone \/ exists t, value x = VStr t.

Lemma fold_store_items (l : list X) (d : dict) :
  (forall x, In x l -> In (key x) names) ->
  Forall (reader_item names) d ->
  Forall (reader_item names)
    (fold_left (fun d x => dict_store d (VStr (key x)) (value x)) l d).
Proof.
  revert d. induction l as [|x l IH]; intros d Hl Hd; [exact Hd|].
  cbn [fold_left]. apply IH; [intros y Hy; apply Hl; right; exact Hy|].
  apply dict_store_items; [exact Hd|].
  left. exists (key x). cbn [fst snd].
  split; [reflexivity|]. split; [apply Hl; left; reflexivity|apply value_ok].
Qed.

Lemma fold_store_has (l : list X) (d : dict) (n : pystr) :
  (exists x, dict_get d (VStr n) = Some x) \/ In n (map key l) ->
  exists x,
    dict_get (fold_left (fun d x => dict_store d (VStr (key x)) (value x)) l d)
             (VStr n) = Some x.
Proof.
  revert d. induction l as [|y l IH]; intros d H; cbn [fold_left].
  - destruct H as [H|[]]. exact H.
  - apply IH. cbn [map In] in H. destruct H as [H|[H|H]].
    + left. apply dict_get_store_kept, H.
    + left. subst n. apply dict_get_store_text.
    + right. exact H.
Qed.
End Folds.

Lemma in_combine_or_skipn (names row : list pystr) (n : pystr) :
  In n names ->
  In n (map fst (combine names row)) \/ In n (skipn (length row) names).
Proof.
  revert row. induction names as [|m names IH]; intros row Hn; [destruct Hn|].
  destruct row as [|c row]; [right; exact Hn|].
  cbn [combine map fst In length skipn]. destruct Hn as [->|Hn]; [left; left; reflexivity|].
  destruct (IH row Hn) as [H|H]; [left; right; exact H|right; exact H].
Qed.

Lemma in_combine_fst (names row : list pystr) (kv : pystr * pystr) :
  In kv (combine names row) -> In (fst kv) names.
Proof. destruct kv as [k v]. apply in_combine_l. Qed.

Lemma in_skipn {A : Type} (k : nat) (l : list A) (x : A) : In x (skipn k l) -> In x l.
Proof.
  revert l. induction k as [|k IH]; intros [|y l]; cbn [skipn]; auto.
  intros H. right. apply IH, H.
Qed.

Lemma DictReader_row_items (names row : list pystr) :
  Forall (reader_item names) (DictReader_row names row)
  /\ forall n, In n names ->
               exists x, dict_get (DictReader_row names row) (VStr n) = Some x.
Proof.
  unfold DictReader_row.
  set (d0 := fold_left (fun d kv => dict_store d (VStr (fst kv)) (VStr (snd kv)))
               (combine names row) []).
  assert (I0 : Forall (reader_item names) d0).
  { apply (fold_store_items names fst (fun kv => VStr (snd kv)));
      [intros x; right; eauto|apply in_combine_fst|constructor]. }
  assert (G0 : forall n, In n (map fst (combine names row)) ->
                         exists x, dict_get d0 (VStr n) = Some x).
  { intros n Hn. apply (fold_store_has fst (fun kv => VStr (snd kv))). right. exact Hn. }
  destruct (length names <? length row)%nat eqn:E1;
    [|destruct (length row <? length names)%nat eqn:E2].
  - split.
    + apply dict_store_items; [exact I0|]. right. cbn [fst snd]. eauto.
    + intros n Hn. apply dict_get_store_kept, G0.
      destruct (in_combine_or_skipn names row n Hn) as [H|H]; [exact H|].
      apply Nat.ltb_lt in E1. rewrite skipn_all2 in H by lia. destruct H.
  - split.
    + apply (fold_store_items names (fun k => k) (fun _ => VNone));
        [intros x; left; reflexivity|intros x Hx; apply (in_skipn _ _ _ Hx)|exact I0].
    + intros n Hn. apply (fold_store_has (fun k => k) (fun _ => VNone)).
      rewrite map_id.
      destruct (in_combine_or_skipn names row n Hn) as [H|H];
        [left; apply G0, H|right; exact H].
  - split; [exact I0|].
    intros n Hn. apply G0.
    destruct (in_combine_or_skipn names row n Hn) as [H|H]; [exact H|].
    apply Nat.ltb_ge in E1, E2. rewrite skipn_all2 in H by lia. destruct H.
Qed.

Lemma dict_get_In (d : dict) (k x : pyvalue) :
  dict_get d k = Some x -> exists k', In (k', x) d /\ key_eqb k' k = true.
Proof.
  induction d as [|[k0 v0] d IH]; cbn [dict_get]; [discriminate|].
  destruct (key_eqb k0 k) eqn:E.
  - intros [= ->]. exists k0. split; [left; reflexivity|exact E].
  - intros H. destruct (IH H) as (k' & Hin & Hk). exists k'. split; [right|]; assumption.
Qed.

(** X20.  Every row [CsvConverter.deserialise] returns is a dictionary over
    the names of the header: each name is a key, with the text of the field
    for value, or [None] when the line has fewer fields than the header;
    the only other key a row may have is [None], with the list of the
    fields that a longer line has in excess.  No value is anything but
    text: the reader infers no types. *)
Theorem csv_rows_keys (s : pystr) (rows : list pyvalue) :
  CsvConverter.deserialise s = Ok (VList rows) ->
  Forall (fun r =>
            exists d,
              r = VDict d
              /\ (forall n, In n (csv_header s) ->
                            dict_get d (VStr n) = Some VNone
                            \/ exists t, dict_get d (VStr n) = Some (VStr t))
              /\ (forall k, In k (dict_keys d) ->
                            k = VNone \/ exists n, k = VStr n /\ In n (csv_header s)))
         rows.
Proof.
  unfold CsvConverter.deserialise, csv_header.
  destruct (reader_rows (splitlines s) parse_reset) as [[|names lines]|];
    try discriminate; cbn [bind DictReader_list]; intros [= <-];
    [constructor|].
  apply Forall_forall. intros r Hr.
  apply in_map_iff in Hr as (row & <- & _).
  destruct (DictReader_row_items names row) as [I G].
  exists (DictReader_row names row). split; [reflexivity|]. split.
  - intros n Hn. destruct (G n Hn) as [x Hx].
    destruct (dict_get_In _ _ _ Hx) as (k' & Hin & Hk).
    rewrite Forall_forall in I. specialize (I _ Hin).
    destruct I as [(m & _ & _ & [Hv|[t Hv]])|[Hk' _]]; cbn [fst snd] in *.
    + left. rewrite Hx, Hv. reflexivity.
    + right. exists t. rewrite Hx, Hv. reflexivity.
    + subst k'. discriminate Hk.
  - intros k Hk. unfold dict_keys in Hk. apply in_map_iff in Hk as ([k0 v0] & <- & Hin).
    rewrite Forall_forall in I. specialize (I _ Hin).
    destruct I as [(m & Hm & Hn & _)|[Hk' _]]; cbn [fst snd] in *.
    + right. exists m. split; assumption.
    + left. exact Hk'.
Qed.

Lemma csv_rows_keys_witness :
  let s := str "a,b" ++ [10%N] ++ str "1" ++ [10%N] ++ str "1,2,3" in
  let rows :=
    [VDict [(VStr (str "a"), VStr (str "1")); (VStr (str "b"), VNone)];
     VDict [(VStr (str "a"), VStr (str "1")); (VStr (str "b"), VStr (str "2"));
            (VNone, VList [VStr (str "3")])]] in
  CsvConverter.deserialise s = Ok (VList rows)
  /\ csv_header s = [str "a"; str "b"]
  /\ Forall (fun r =>
               exists d,
                 r = VDict d
                 /\ (forall n, In n (csv_header s) ->
                               dict_get d (VStr n) = Some VNone
                               \/ exists t, dict_get d (VStr n) = Some (VStr t))
                 /\ (forall k, In k (dict_keys d) ->
                               k = VNone \/ exists n, k = VStr n /\ In n (csv_header s)))
            rows.
Proof.
  cbv zeta. split; [reflexivity|]. split; [reflexivity|].
  exact (csv_rows_keys (str "a,b" ++ [10%N] ++ str "1" ++ [10%N] ++ str "1,2,3")
           _ eq_refl).
Defined.

(** ** Reading back the displays with tuples *)

(** What may follow a value in a display: a comma, a closing bracket,
    parenthesis or brace, or the colon after a key. *)
Definition ends (rest : pystr) : Prop :=
  match rest with
  | [] => True
  | c :: _ => (c = 44 \/ c = 93 \/ c = 125 \/ c = 41 \/ c = 58)%N
  end.

Lemma ends_token (rest : pystr) : ends rest -> token_ends rest = true.
Proof.
  destruct rest as [|c r]; [reflexivity|]. cbn [ends token_ends].
  intros [-> | [-> | [-> | [-> | ->]]]]; reflexivity.
Qed.

Lemma ends_no_digit (rest : pystr) : ends rest -> no_digit_ahead rest.
Proof.
  destruct rest as [|c r]; [exact (fun H => H)|]. cbn [ends no_digit_ahead].
  intros [-> | [-> | [-> | [-> | ->]]]]; reflexivity.
Qed.

Lemma number_zero_ends (rest : pystr) :
  ends rest -> number (48%N :: rest) = Ok (0%Z, rest).
Proof.
  intros D. unfold number.
  pose proof (scan_digits_uint (Decimal.D0 Decimal.Nil) rest (ends_no_digit rest D)) as S.
  cbn [uint_chars app] in S. rewrite S, (ends_token rest D). reflexivity.
Qed.

Lemma number_positive_ends (p : positive) (rest : pystr) :
  ends rest ->
  number (uint_chars (Pos.to_uint p) ++ rest) = Ok (Zpos p, rest).
Proof.
  intros D. unfold number.
  rewrite scan_digits_uint by (apply ends_no_digit, D).
  rewrite (ends_token rest D).
  pose proof (to_uint_head p) as H.
  pose proof (DecimalPos.Unsigned.of_to p) as E.
  unfold N.of_uint.
  destruct (Pos.to_uint p); try destruct H; rewrite E; reflexivity.
Qed.

(** A display starts with a character that closes nothing. *)
Definition opens (t : pystr) : Prop :=
  exists c r, t = c :: r /\ (33 <= c <= 126)%N
              /\ c <> 93%N /\ c <> 41%N /\ c <> 125%N.

Lemma opens_start (t : pystr) : opens t -> value_start t.
Proof. intros (c & r & E & Hc & H93 & _). exists c, r. auto. Qed.

Lemma opens_app (t x : pystr) : opens t -> opens (t ++ x).
Proof. intros (c & r & -> & H). exists c, (r ++ x). split; [reflexivity|exact H]. Qed.

Lemma opens_length (t : pystr) : opens t -> (1 <= length t)%nat.
Proof. intros (c & r & -> & _). cbn [length]. lia. Qed.

Lemma repr_opens (isprintable : N -> bool) (v : pyvalue) :
  literal_value v = true -> opens (repr isprintable v).
Proof.
  destruct v as [| |[|]|z|lit|s|b|l|l|l|d]; cbn [literal_value repr];
    try discriminate; intros _.
  1-3, 7-8: eval_strs; cbn [app]; eexists _, _; repeat split; try reflexivity; lia.
  - destruct (int_repr_head z) as (c & r & E & Hc). exists c, r.
    split; [exact E|]. lia.
  - unfold unicode_repr. cbv zeta. cbn [app].
    eexists _, _. split; [reflexivity|].
    destruct (repr_quote_cases s) as [-> | ->]; lia.
  - destruct l as [|x [|y l]]; eval_strs; cbn [app];
      eexists _, _; repeat split; try reflexivity; lia.
Qed.

Section ReadDisplay.
Variable isprintable : N -> bool.
Hypothesis printable :
  forall x, isprintable x = true -> is_surrogate x = false /\ (x < 1114112)%N.

(** The fragment parser reads the display of [v] back, whatever follows it
    in the display of a larger value. *)
Definition reads (v : pyvalue) : Prop :=
  literal_value v = true ->
  forall fuel rest,
  ends rest -> (2 * length (repr isprintable v) <= fuel)%nat ->
  parse_expr fuel (repr isprintable v ++ rest) = Ok (display_expr v, rest).

Lemma parse_elements_displays (close : N) (l : list pyvalue) :
  close = 93%N \/ close = 41%N ->
  Forall reads l -> forallb literal_value l = true ->
  forall fuel rest,
  (2 * length (join (str ", ") (map (repr isprintable) l)) < fuel)%nat ->
  parse_elements fuel close
    (join (str ", ") (map (repr isprintable) l) ++ close :: rest)
  = Ok (map display_expr l, rest).
Proof.
  intros Hclose. induction 1 as [|v l Hv Hl IH]; intros Hp fuel rest F.
  - destruct fuel as [|fuel]; [lia|]. cbn [map join app parse_elements].
    rewrite N.eqb_refl. reflexivity.
  - cbn [forallb] in Hp. apply andb_true_iff in Hp as [Hpv Hpl].
    cbn [map] in F |- *. rewrite join_cons in F |- *.
    destruct fuel as [|fuel]; [lia|].
    pose proof (repr_opens isprintable v Hpv) as Hs.
    rewrite length_app in F. rewrite <- app_assoc.
    destruct Hs as (c & r & E & Hc & H93 & H41 & H125).
    cbn [parse_elements]. rewrite E at 1. cbn [app].
    replace (c =? close)%N with false
      by (symmetry; apply N.eqb_neq; destruct Hclose; subst close; assumption).
    assert (Eclose : ends (close :: rest))
      by (cbn [ends]; destruct Hclose; subst close; auto).
    destruct l as [|v' l'].
    + cbn [map app].
      rewrite (Hv Hpv fuel (close :: rest)); [|exact Eclose|lia].
      cbn [bind]. rewrite lstrip_blank_delimiter
        by (destruct Hclose; subst close; lia).
      rewrite N.eqb_refl. reflexivity.
    + assert (Hs' : value_start (join (str ", ") (map (repr isprintable) (v' :: l')))).
      { cbn [map]. rewrite join_cons. apply value_start_app, opens_start, repr_opens.
        cbn [forallb] in Hpl. apply andb_true_iff in Hpl. apply Hpl. }
      specialize (IH Hpl fuel rest).
      cbn [map] in F, IH, Hs' |- *. eval_strs. lengths F. cbn [app].
      rewrite (Hv Hpv fuel); [|left; reflexivity|lia].
      cbn [bind]. rewrite lstrip_blank_delimiter by lia.
      replace (44 =? close)%N with false
        by (destruct Hclose; subst close; reflexivity).
      fold_tests.
      cbn [lstrip_blank]. fold_tests. rewrite lstrip_blank_start by exact Hs'.
      rewrite IH by lia. reflexivity.
Qed.

Definition literal_item (kv : pyvalue * pyvalue) : bool :=
  literal_value (fst kv) && hashable (fst kv) && literal_value (snd kv).

Definition display_expr_item (kv : pyvalue * pyvalue) : option expr * expr :=
  (Some (display_expr (fst kv)), display_expr (snd kv)).

Lemma display_item_opens (kv : pyvalue * pyvalue) :
  literal_item kv = true -> opens (display_item isprintable kv).
Proof.
  unfold literal_item, display_item. intros H.
  apply andb_true_iff in H as [H _]. apply andb_true_iff in H as [H _].
  apply opens_app, repr_opens, H.
Qed.

Lemma parse_items_displays (d : dict) :
  Forall (fun kv => reads (fst kv) /\ reads (snd kv)) d ->
  forallb literal_item d = true ->
  forall fuel rest,
  (2 * length (join (str ", ") (map (display_item isprintable) d)) < fuel)%nat ->
  parse_items fuel (join (str ", ") (map (display_item isprintable) d) ++ 125%N :: rest)
  = Ok (map display_expr_item d, rest).
Proof.
  induction 1 as [|[k v] d [Hk Hv] Hd IH]; intros Hp fuel rest F.
  - destruct fuel as [|fuel]; [lia|]. reflexivity.
  - cbn [forallb] in Hp. apply andb_true_iff in Hp as [Hpkv Hpd].
    pose proof (display_item_opens (k, v) Hpkv) as Ho.
    unfold literal_item in Hpkv. cbn [fst snd] in Hpkv, Hk, Hv.
    apply andb_true_iff in Hpkv as [Hpk Hpv].
    apply andb_true_iff in Hpk as [Hpk _].
    cbn [map] in F |- *. rewrite join_cons in F |- *.
    destruct fuel as [|fuel]; [lia|].
    rewrite <- app_assoc.
    destruct Ho as (q & r & E & Hq & _ & _ & H125).
    cbn [parse_items]. rewrite E at 1. cbn [app].
    replace (q =? 125)%N with false by (symmetry; apply N.eqb_neq; exact H125).
    unfold display_item at 1 in F. unfold display_item at 1.
    unfold display_expr_item at 1. cbn [fst snd] in F |- *.
    eval_strs. lengths F. rewrite <- !app_assoc. cbn [app].
    rewrite (Hk Hpk fuel); [|right; right; right; right; reflexivity|lia].
    cbn [bind]. rewrite lstrip_blank_delimiter by lia. fold_tests.
    cbn [lstrip_blank]. fold_tests.
    rewrite (lstrip_blank_start (repr isprintable v))
      by (apply opens_start, repr_opens, Hpv).
    destruct d as [|kv' d'].
    + cbn [map app].
      rewrite (Hv Hpv fuel (125%N :: rest)); [|right; right; left; reflexivity|lia].
      cbn [bind]. rewrite lstrip_blank_delimiter by lia. fold_tests. reflexivity.
    + specialize (IH Hpd fuel rest).
      assert (Hs : value_start
                     (join [44; 32]%N (map (display_item isprintable) (kv' :: d')))).
      { cbn [map]. rewrite join_cons. cbn [forallb] in Hpd.
        apply andb_true_iff in Hpd as [Hkv' _].
        apply value_start_app, opens_start, display_item_opens, Hkv'. }
      eval_strs. cbn [map] in F, IH, Hs |- *. lengths F. cbn [app].
      rewrite (Hv Hpv fuel); [|left; reflexivity|lia].
      cbn [bind]. rewrite lstrip_blank_delimiter by lia. fold_tests.
      cbn [lstrip_blank]. fold_tests. rewrite lstrip_blank_start by exact Hs.
      rewrite IH by lia. reflexivity.
Qed.

Theorem parse_expr_display (v : pyvalue) : reads v.
Proof.
  induction v as [| |b|z|lit|s|b|l IH|l IH|l IH|d IH] using pyvalue_induction;
    unfold reads; cbn [literal_value]; try discriminate;
    intros Hp fuel rest D F.
  - destruct fuel as [|fuel]; [cbn in F; lia|].
    cbn [repr]. eval_strs. cbn [app parse_expr]. fold_tests.
    unfold keyword. eval_strs. cbn [strip_prefix]. fold_tests.
    rewrite (ends_token rest D). reflexivity.
  - destruct fuel as [|fuel]; [destruct b; cbn in F; lia|].
    destruct b; cbn [repr]; eval_strs; cbn [app parse_expr]; fold_tests;
      unfold keyword; eval_strs; cbn [strip_prefix]; fold_tests;
      rewrite (ends_token rest D); reflexivity.
  - cbn [repr] in F |- *.
    destruct fuel as [|fuel];
      [pose proof (value_start_length _ (int_repr_start z)); lia|].
    destruct z as [|p|p]; cbn [int_repr display_expr].
    + cbn [app parse_expr]. fold_tests. rewrite (number_zero_ends rest D). reflexivity.
    + pose proof (number_positive_ends p rest D) as Nm.
      destruct (uint_chars_head _ (to_uint_head p)) as (c & r & E & Hd & _).
      pose proof (is_digit_range c Hd) as Hc.
      rewrite E in Nm |- *. cbn [app] in Nm |- *. cbn [parse_expr].
      decide_tests. rewrite Hd, Nm. reflexivity.
    + cbn [app parse_expr]. fold_tests.
      rewrite (number_positive_ends p rest D). reflexivity.
  - cbn [repr display_expr] in F |- *.
    destruct fuel as [|fuel];
      [pose proof (opens_length _ (repr_opens isprintable (VStr s) Hp));
       cbn [repr] in *; lia|].
    apply parse_expr_str; assumption.
  - (* tuples *)
    destruct l as [|x [|y l]]; cbn [repr display_expr map] in F |- *.
    + eval_strs. destruct fuel as [|fuel]; [cbn in F; lia|].
      cbn [app parse_expr]. fold_tests. cbn [lstrip_blank]. fold_tests. reflexivity.
    + inversion IH as [|? ? Hx _]; subst.
      cbn [forallb] in Hp. apply andb_true_iff in Hp as [Hpx _].
      eval_strs. lengths F. destruct fuel as [|fuel]; [lia|].
      rewrite <- !app_assoc. cbn [app parse_expr]. fold_tests.
      pose proof (repr_opens isprintable x Hpx) as Hs.
      rewrite (lstrip_blank_start _ _ (opens_start _ Hs)).
      destruct Hs as (c & r & E & Hc & H93 & H41 & H125).
      rewrite E at 1. cbn [app]. decide_tests.
      change (c :: r ++ ?t) with ((c :: r) ++ t).
      rewrite <- E.
      rewrite (Hx Hpx fuel); [|left; reflexivity|lia].
      cbn [bind lstrip_blank]. fold_tests.
      destruct fuel as [|fuel]; [lia|].
      cbn [parse_elements]. fold_tests. reflexivity.
    + inversion IH as [|? ? Hx IHl]; subst.
      cbn [forallb] in Hp. apply andb_true_iff in Hp as [Hpx Hpl].
      rewrite join_cons in F |- *.
      eval_strs. lengths F. destruct fuel as [|fuel]; [lia|].
      rewrite <- !app_assoc. cbn [app parse_expr]. fold_tests.
      pose proof (repr_opens isprintable x Hpx) as Hs.
      rewrite (lstrip_blank_start _ _ (opens_start _ Hs)).
      destruct Hs as (c & r & E & Hc & H93 & H41 & H125).
      rewrite E at 1. cbn [app]. decide_tests.
      change (c :: r ++ ?t) with ((c :: r) ++ t).
      rewrite <- E.
      rewrite (Hx Hpx fuel); [|left; reflexivity|lia].
      cbn [bind lstrip_blank]. fold_tests.
      pose proof (parse_elements_displays 41%N (y :: l) (or_intror eq_refl) IHl Hpl
                    fuel rest) as L.
      eval_strs.
      assert (Hs' : value_start (join [44; 32]%N (map (repr isprintable) (y :: l)))).
      { cbn [map]. rewrite join_cons. apply value_start_app, opens_start, repr_opens.
        cbn [forallb] in Hpl. apply andb_true_iff in Hpl. apply Hpl. }
      cbn [lstrip_blank]. fold_tests. cbn [map] in L, Hs'.
      rewrite lstrip_blank_start by exact Hs'.
      rewrite L by lia. reflexivity.
  - cbn [repr display_expr] in F |- *. eval_strs. lengths F.
    destruct fuel as [|fuel]; [lia|].
    rewrite <- !app_assoc. cbn [app parse_expr]. fold_tests.
    pose proof (parse_elements_displays 93%N l (or_introl eq_refl) IH Hp fuel rest) as L.
    eval_strs.
    destruct l as [|v l].
    + cbn [map join app] in L |- *. cbn [lstrip_blank]. fold_tests.
      rewrite L by (cbn; lia). reflexivity.
    + rewrite lstrip_blank_start.
      * rewrite L by lia. reflexivity.
      * cbn [map]. rewrite join_cons. apply value_start_app, opens_start, repr_opens.
        cbn [forallb] in Hp. apply andb_true_iff in Hp. apply Hp.
  - apply andb_true_iff in Hp as [Hp Hd].
    cbn [repr display_expr] in F |- *.
    change (fun kv : pyvalue * pyvalue =>
              repr isprintable (fst kv) ++ str ": " ++ repr isprintable (snd kv))
      with (display_item isprintable) in F |- *.
    change (fun kv : pyvalue * pyvalue =>
              (Some (display_expr (fst kv)), display_expr (snd kv)))
      with display_expr_item.
    change (forallb literal_item d = true) in Hp.
    eval_strs. lengths F.
    destruct fuel as [|fuel]; [lia|].
    rewrite <- !app_assoc. cbn [app parse_expr]. fold_tests.
    pose proof (parse_items_displays d IH Hp fuel rest) as L. eval_strs.
    destruct d as [|kv d].
    + cbn [map join app] in L |- *. cbn [lstrip_blank]. fold_tests.
      rewrite L by (cbn; lia). reflexivity.
    + rewrite lstrip_blank_start.
      * rewrite L by lia. reflexivity.
      * cbn [map]. rewrite join_cons. cbn [forallb] in Hp.
        apply andb_true_iff in Hp as [Hkv _].
        apply value_start_app, opens_start, display_item_opens, Hkv.
Qed.

Lemma literal_display_display (v : pyvalue) :
  literal_value v = true ->
  literal_display (repr isprintable v) = Ok (display_expr v).
Proof.
  intros Hp. unfold literal_display.
  pose proof (parse_expr_display v Hp (2 * length (repr isprintable v) + 2)%nat []
              I ltac:(lia)) as P.
  rewrite app_nil_r in P. rewrite P. reflexivity.
Qed.
End ReadDisplay.

(** [_convert] returns the value for the expression its display denotes. *)
Definition converted (v : pyvalue) : Prop :=
  literal_value v = true -> _convert (display_expr v) = Ok v.

Lemma convert_elements_display (l : list pyvalue) :
  Forall converted l -> forallb literal_value l = true ->
  mapM _convert (map display_expr l) = Ok l.
Proof.
  induction 1 as [|x l Hx _ IH]; intros Hp; [reflexivity|].
  cbn [forallb] in Hp. apply andb_true_iff in Hp as [Hpx Hpl].
  cbn [map mapM]. rewrite (Hx Hpx). cbn [bind]. rewrite (IH Hpl). reflexivity.
Qed.

Lemma convert_items_display (d : dict) :
  Forall (fun kv => converted (fst kv) /\ converted (snd kv)) d ->
  forallb literal_item d = true ->
  distinct_keys (dict_keys d) = true ->
  forall acc,
    (forall k0 k, In k0 (dict_keys acc) -> In k (dict_keys d) -> key_eqb k0 k = false) ->
    convert_items _convert (map display_expr_item d) acc = Ok (acc ++ d).
Proof.
  induction 1 as [|[k v] d [Hk Hv] _ IH]; intros Hp Hd acc Hacc.
  - cbn. rewrite app_nil_r. reflexivity.
  - cbn [forallb] in Hp. apply andb_true_iff in Hp as [Hpkv Hpd].
    unfold literal_item in Hpkv. cbn [fst snd] in Hpkv, Hk, Hv.
    apply andb_true_iff in Hpkv as [Hpk Hpv].
    apply andb_true_iff in Hpk as [Hpk Hh].
    cbn [dict_keys map fst distinct_keys] in Hd.
    apply andb_true_iff in Hd as [Hnew Hd]. apply negb_true_iff in Hnew.
    cbn [map convert_items]. unfold display_expr_item at 1. cbn [fst snd].
    rewrite (Hk Hpk). cbn [bind]. rewrite (Hv Hpv). cbn [bind].
    unfold dict_setitem. rewrite Hh. cbn [bind].
    rewrite dict_store_new.
    2:{ intros k0 H0. apply Hacc; [exact H0|left; reflexivity]. }
    rewrite IH.
    + rewrite <- app_assoc. reflexivity.
    + exact Hpd.
    + exact Hd.
    + intros k0 k1 H0 H1. unfold dict_keys in H0. rewrite map_app in H0.
      apply in_app_or in H0 as [H0 | H0].
      * apply Hacc; [exact H0|right; exact H1].
      * cbn in H0. destruct H0 as [<- | []].
        apply (existsb_false_In _ _ k1 Hnew). exact H1.
Qed.

Theorem convert_display_expr (v : pyvalue) : converted v.
Proof.
  induction v as [| |b|z|lit|s|b|l IH|l IH|l IH|d IH] using pyvalue_induction;
    unfold converted; cbn [literal_value]; try discriminate; intros Hp;
    try reflexivity.
  - destruct z; reflexivity.
  - cbn [display_expr _convert].
    rewrite (convert_elements_display l IH Hp). reflexivity.
  - cbn [display_expr _convert].
    rewrite (convert_elements_display l IH Hp). reflexivity.
  - apply andb_true_iff in Hp as [Hp Hd].
    cbn [display_expr _convert].
    change (fun kv : pyvalue * pyvalue =>
              (Some (display_expr (fst kv)), display_expr (snd kv)))
      with display_expr_item.
    rewrite (convert_items_display d IH Hp Hd []); [reflexivity|].
    intros k0 k [].
Qed.

Lemma literal_eval_display (py : python) (v : pyvalue) :
  parses_display py (repr (Py_UNICODE_ISPRINTABLE py) v) ->
  printable_scalars py -> literal_value v = true ->
  literal_eval (ast_parse py) (repr (Py_UNICODE_ISPRINTABLE py) v) = Ok v.
Proof.
  intros Hparse Hprint Hp. unfold literal_eval.
  pose proof (opens_start _ (repr_opens (Py_UNICODE_ISPRINTABLE py) v Hp)) as Hs.
  pose proof (lstrip_blank_start _ [] Hs) as W. rewrite app_nil_r in W.
  rewrite W.
  rewrite (Hparse _ (literal_display_display _ Hprint v Hp)). cbn [bind].
  apply convert_display_expr, Hp.
Qed.

(** X23.  The Python-literal handler reads back what it writes for the
    values built from [None], booleans, integers, text, tuples, lists and
    dictionaries with hashable keys, no two keys of a dictionary equal
    (where [True] equals [1] and [False] equals [0]): tuples stay tuples
    and keys keep their types.  As for the records, the parser of CPython
    is assumed to parse the display [repr] writes. *)
Theorem py_roundtrip_literals (py : python) (v : pyvalue) :
  parses_display py (repr (Py_UNICODE_ISPRINTABLE py) v) ->
  printable_scalars py -> literal_value v = true ->
  exists text,
    PyConverter.serialise py v = Ok text
    /\ PyConverter.deserialise py text = Ok v.
Proof.
  intros Hparse Hprint Hp. eexists. split; [reflexivity|].
  apply literal_eval_display; assumption.
Qed.

Lemma py_roundtrip_literals_witness :
  let v := VDict [(VTuple [VInt 1; VStr (str "a")], VTuple [VNone]);
                  (VInt (-2), VList [VTuple []; VBool true])] in
  parses_display display_python (repr (Py_UNICODE_ISPRINTABLE display_python) v)
  /\ printable_scalars display_python
  /\ literal_value v = true
  /\ PyConverter.serialise display_python v
     = Ok (str "{(1, 'a'): (None,), -2: [(), True]}")
  /\ exists text,
       PyConverter.serialise display_python v = Ok text
       /\ PyConverter.deserialise display_python text = Ok v.
Proof.
  cbv zeta.
  split; [apply display_python_parses|].
  split; [exact display_python_printable|].
  split; [reflexivity|]. split; [reflexivity|].
  exact (py_roundtrip_literals display_python
           (VDict [(VTuple [VInt 1; VStr (str "a")], VTuple [VNone]);
                   (VInt (-2), VList [VTuple []; VBool true])])
           (display_python_parses _) display_python_printable eq_refl).
Defined.

(** ** Conversions, end to end *)











